(** * scheduleit: the command router of [src/agent.py] (class [MistralAgent])

    A shallow embedding of the message handler [MistralAgent.run] and of the
    methods it calls, followed by the properties of the routing, parsing,
    history and calendar-update logic.

    Conventions of the embedding.
    - A Python [str] is a Rocq [string] that holds its UTF-8 encoding.  The
      text operations [lower], [split] and [strip] are written for ASCII
      letters and white space: a character outside of ASCII has no case and
      is no white space here.  [isdigit] and [int] follow the Unicode
      tables.
    - A JSON object handed over by the calendar API is a [value]; a Python
      [dict] is a [gmap string value].
    - [self.conversation_history] is a [gmap string (list turn)].
    - Code that may raise is a computation in the monad [M]: it maps a
      [world] to an [outcome] (a result, or the raised exception with the
      text of [str(e)]) and the world it leaves behind.  The world holds the
      mutable state of the agent and a log of the requests that change the
      calendar (the insert and update requests that were sent; the listing
      and reading requests are answered by the services and are not
      logged).
    - The remote services (LLM, calendar, weather, maps, geolocation), the
      environment variables and the library functions of [datetime] and
      [json] are the fields of a record [services]; the general theorems
      hold for every value of that record, and the module [Demo] gives
      concrete collaborators on which the handler can be run. *)

From Stdlib Require Import ZArith Ascii String DecimalString Lia.
From stdpp Require Import gmap strings list fin_maps.

#[local] Set Warnings "-register-all".
#[local] Open Scope string_scope.
#[local] Open Scope list_scope.
#[local] Open Scope nat_scope.
#[local] Open Scope stdpp_scope.

(** ** Python text operations *)

Module PyStr.

Definition code (c : ascii) : nat := nat_of_ascii c.

Definition is_upper (c : ascii) : bool := (65 <=? code c)%nat && (code c <=? 90)%nat.

(** [str.isspace] on one ASCII character: TAB..CR, FS..US and the space. *)
Definition is_space (c : ascii) : bool :=
  ((9 <=? code c)%nat && (code c <=? 13)%nat) || ((28 <=? code c)%nat && (code c <=? 32)%nat).

Definition lower_ascii (c : ascii) : ascii :=
  if is_upper c then ascii_of_nat (code c + 32) else c.

(** [s.lower()] *)
Fixpoint lower (s : string) : string :=
  match s with
  | EmptyString => EmptyString
  | String c s' => String (lower_ascii c) (lower s')
  end.

Definition is_empty (s : string) : bool :=
  match s with EmptyString => true | _ => false end.

(** [s.startswith(p)] *)
Definition startswith (p s : string) : bool := String.prefix p s.

(** [needle in hay] *)
Fixpoint contains (needle hay : string) : bool :=
  startswith needle hay ||
  match hay with
  | EmptyString => false
  | String _ hay' => contains needle hay'
  end.

Fixpoint rev_string (s : string) : string :=
  match s with
  | EmptyString => EmptyString
  | String c s' => rev_string s' +:+ String c EmptyString
  end.

(** [s.endswith(p)] *)
Definition endswith (p s : string) : bool :=
  startswith (rev_string p) (rev_string s).

(** [s.split(sep)] for a non-empty [sep]: the occurrences of [sep] are found
    from left to right and do not overlap.  [skip] counts the characters of
    a separator that was just matched and are still to be passed over;
    [cur] is the piece read so far. *)
Fixpoint split_aux (sep : string) (skip : nat) (cur s : string) : list string :=
  match s with
  | EmptyString => [cur]
  | String c s' =>
      match skip with
      | S k => split_aux sep k cur s'
      | O =>
          if startswith sep s
          then cur :: split_aux sep (String.length sep - 1) EmptyString s'
          else split_aux sep 0 (cur +:+ String c EmptyString) s'
      end
  end.

Definition split (sep s : string) : list string := split_aux sep 0 EmptyString s.

(** [s.split()]: the maximal runs of characters that are not white space. *)
Fixpoint split_ws_aux (cur s : string) : list string :=
  match s with
  | EmptyString => if is_empty cur then [] else [cur]
  | String c s' =>
      if is_space c
      then (if is_empty cur then split_ws_aux EmptyString s'
            else cur :: split_ws_aux EmptyString s')
      else split_ws_aux (cur +:+ String c EmptyString) s'
  end.

Definition split_ws (s : string) : list string := split_ws_aux EmptyString s.

Fixpoint lstrip (s : string) : string :=
  match s with
  | EmptyString => EmptyString
  | String c s' => if is_space c then lstrip s' else s
  end.

Fixpoint rstrip (s : string) : string :=
  match s with
  | EmptyString => EmptyString
  | String c s' =>
      let r := rstrip s' in
      if is_space c && is_empty r then EmptyString else String c r
  end.

(** [s.strip()] *)
Definition strip (s : string) : string := rstrip (lstrip s).

(** [sep.join(l)] *)
Fixpoint join (sep : string) (l : list string) : string :=
  match l with
  | [] => EmptyString
  | [x] => x
  | x :: l' => x +:+ sep +:+ join sep l'
  end.

(** [s.replace(old, new)] for a non-empty [old]. *)
Definition replace (old new s : string) : string := join new (split old s).

(** [s.split(sep, 1)]: cut at the first occurrence of [sep], if any. *)
Fixpoint split_once_aux (sep cur s : string) : option (string * string) :=
  if startswith sep s
  then Some (cur, String.substring (String.length sep) (String.length s) s)
  else match s with
       | EmptyString => None
       | String c s' => split_once_aux sep (cur +:+ String c EmptyString) s'
       end.

Definition split_once (sep s : string) : option (string * string) :=
  split_once_aux sep EmptyString s.

(** [s.rsplit(sep, 1)[0]]: what stands before the last occurrence of [sep],
    the whole of [s] when there is none. *)
Fixpoint rsplit_head (sep s : string) : option string :=
  match s with
  | EmptyString => if is_empty sep then Some EmptyString else None
  | String c s' =>
      match rsplit_head sep s' with
      | Some h => Some (String c h)
      | None => if startswith sep s then Some EmptyString else None
      end
  end.

Definition rsplit_once_head (sep s : string) : string :=
  match rsplit_head sep s with Some h => h | None => s end.

(** *** Digits

    A text is held as its UTF-8 encoding; [isdigit] and [int] look at its
    characters.  The tables are those of Unicode 14.0.0. *)

(** The code points of a text, [None] when the bytes are no UTF-8
    encoding.  [pending] counts the continuation bytes that the character
    being read still needs, [acc] holds the bits read so far. *)
Fixpoint code_points_aux (pending : nat) (acc : N) (s : string) : option (list N) :=
  match s with
  | EmptyString => match pending with O => Some [] | S _ => None end
  | String c s' =>
      let b := N_of_ascii c in
      match pending with
      | O =>
          if (b <? 128)%N then cons b <$> code_points_aux 0 0 s'
          else if (b <? 192)%N then None
          else if (b <? 224)%N then code_points_aux 1 (b - 192) s'
          else if (b <? 240)%N then code_points_aux 2 (b - 224) s'
          else if (b <? 248)%N then code_points_aux 3 (b - 240) s'
          else None
      | S k =>
          if ((128 <=? b) && (b <? 192))%N then
            let acc := (acc * 64 + (b - 128))%N in
            match k with
            | O => cons acc <$> code_points_aux 0 0 s'
            | S _ => code_points_aux k acc s'
            end
          else None
      end
  end.

Definition code_points (s : string) : option (list N) := code_points_aux 0 0 s.

(** The digit zero of every script with decimal digits (general category
    Nd); the digits one to nine follow it. *)
Definition decimal_zeros : list N :=
  [
   48; 1632; 1776; 1984; 2406; 2534; 2662; 2790; 2918; 3046; 3174; 3302; 3430; 3558;
   3664; 3792; 3872; 4160; 4240; 6112; 6160; 6470; 6608; 6784; 6800; 6992; 7088;
   7232; 7248; 42528; 43216; 43264; 43472; 43504; 43600; 44016; 65296; 66720; 68912;
   69734; 69872; 69942; 70096; 70384; 70736; 70864; 71248; 71360; 71472; 71904;
   72016; 72784; 73040; 73120; 92768; 92864; 93008; 120782; 120792; 120802; 120812;
   120822; 123200; 123632; 125264; 130032
  ]%N.

(** The ranges of the other characters for which [str.isdigit] holds
    (superscripts, circled digits and the like): they are digits and no
    decimal digits. *)
Definition other_digits : list (N * N) :=
  [
   (178, 179); (185, 185); (4969, 4977); (6618, 6618); (8304, 8304); (8308, 8313);
   (8320, 8329); (9312, 9320); (9332, 9340); (9352, 9360); (9450, 9450); (9461,
   9469); (9471, 9471); (10102, 10110); (10112, 10120); (10122, 10130); (68160,
   68163); (69216, 69224); (69714, 69722); (127232, 127242)
  ]%N.

(** The value of a decimal digit, [None] for another character. *)
Definition decimal_value (cp : N) : option N :=
  match filter (fun zero => (zero <=? cp)%N && (cp <? zero + 10)%N = true) decimal_zeros with
  | zero :: _ => Some (cp - zero)%N
  | [] => None
  end.

Definition is_decimal (cp : N) : bool :=
  match decimal_value cp with Some _ => true | None => false end.

Definition is_other_digit (cp : N) : bool :=
  existsb (fun range => (range.1 <=? cp)%N && (cp <=? range.2)%N) other_digits.

(** [s.isdigit()]: the text is not empty and each of its characters is a
    decimal digit or another digit. *)
Definition isdigit (s : string) : bool :=
  match code_points s with
  | Some (cp :: cps) => forallb (fun cp => is_decimal cp || is_other_digit cp) (cp :: cps)
  | _ => false
  end.

(** The decimal digits at the start of a list of characters, and the
    characters that follow them. *)
Fixpoint leading_decimals (cps : list N) : list N * list N :=
  match cps with
  | [] => ([], [])
  | cp :: rest =>
      match decimal_value cp with
      | Some v => let '(values, others) := leading_decimals rest in (v :: values, others)
      | None => ([], cps)
      end
  end.

(** The number that a list of decimal digit values writes. *)
Definition number_of (values : list N) : Z :=
  fold_left (fun acc v => (10 * acc + Z.of_N v)%Z) values 0%Z.

(** The first [n] characters of a text. *)
Fixpoint take_chars (n : nat) (s : string) : string :=
  match s with
  | EmptyString => EmptyString
  | String c s' =>
      if ((128 <=? N_of_ascii c) && (N_of_ascii c <? 192))%N
      then String c (take_chars n s')
      else match n with
           | O => EmptyString
           | S k => String c (take_chars k s')
           end
  end.

(** [str(n)] for an integer. *)
Definition str_of_Z (z : Z) : string := NilZero.string_of_int (Z.to_int z).

(** The most digits that [int] converts
    ([sys.int_info.default_max_str_digits]). *)
Definition max_str_digits : nat := 4300.

(** [int(s)] for a text of digits (a text for which [s.isdigit()] holds, as
    at the one call of line 379): the number when every character is a
    decimal digit and there are at most 4300 of them; otherwise the text of
    the [ValueError], [inl]. *)
Definition int_of_digits (s : string) : string + Z :=
  let invalid :=
    "invalid literal for int() with base 10: " +:+ take_chars 200 ("'" +:+ s +:+ "'") in
  match code_points s with
  | Some cps =>
      let '(values, others) := leading_decimals cps in
      if (max_str_digits <? length values)%nat then
        inl ("Exceeds the limit (4300 digits) for integer string conversion: value has "
             +:+ str_of_Z (Z.of_nat (length values))
             +:+ " digits; use sys.set_int_max_str_digits() to increase the limit")
      else
        match values, others with
        | _ :: _, [] => inr (number_of values)
        | _, _ => inl invalid
        end
  | None => inl invalid
  end.

End PyStr.

Import PyStr.

(** ** Values, exceptions and the state of the agent *)

(** JSON data as the Google API client returns it. *)
Inductive value :=
  | VNull
  | VBool (b : bool)
  | VInt (z : Z)
  | VStr (s : string)
  | VList (l : list value)
  | VDict (d : gmap string value).

(** A calendar event resource is a JSON object. *)
Abbreviation event := (gmap string value).

(** One entry of a conversation: [{"role": ..., "content": ...}]. *)
Record turn := Turn { role : string; content : string }.

(** The result of code that may raise; [Raise e] carries [str(e)]. *)
Inductive outcome (A : Type) :=
  | Ret (a : A)
  | Raise (e : string).
Arguments Ret {A} a.
Arguments Raise {A} e.

#[global] Instance outcome_ret : MRet outcome := @Ret.
#[global] Instance outcome_bind : MBind outcome := fun A B f m =>
  match m with
  | Ret a => f a
  | Raise e => Raise e
  end.

(** [int(s)] for a text of digits; it raises [ValueError] when a character
    is a digit and no decimal digit (as the superscript two) or when there
    are more than 4300 digits. *)
Definition int (s : string) : outcome Z :=
  match int_of_digits s with
  | inr n => Ret n
  | inl e => Raise e
  end.

(** A mutating request sent to the calendar ([events().insert] and
    [events().update], both with [sendUpdates='all']). *)
Inductive cal_request :=
  | CalInsert (body : event)
  | CalUpdate (event_id : value) (body : event).

(** The mutable attributes of the agent ([self.conversation_history] and
    [self.memory_limit]) and the log of the insert and update requests sent
    to the calendar. *)
Record world := World {
  conversation_history : gmap string (list turn);
  memory_limit : nat;
  calendar_log : list cal_request
}.

Definition M (A : Type) : Type := world -> outcome A * world.

#[global] Instance M_ret : MRet M := fun A a w => (Ret a, w).
#[global] Instance M_bind : MBind M := fun A B f m w =>
  match m w with
  | (Ret a, w') => f a w'
  | (Raise e, w') => (Raise e, w')
  end.

(** A computation without effect on the world. *)
Definition lift {A} (o : outcome A) : M A := fun w => (o, w).

(** [try: body except Exception as e: handler(str(e))] *)
Definition try_except {A} (body : M A) (handler : string -> M A) : M A := fun w =>
  match body w with
  | (Ret a, w') => (Ret a, w')
  | (Raise e, w') => handler e w'
  end.

Definition log_request (r : cal_request) : M unit := fun w =>
  (Ret tt, World (conversation_history w) (memory_limit w) (calendar_log w ++ [r])%list).

(** ** Dates *)

(** A [datetime]: the wall-clock time in microseconds since
    0001-01-01T00:00:00 and the UTC offset (in seconds) of the attached time
    zone, [None] for a naive value. *)
Record datetime := Datetime { wall_us : Z; utcoffset : option Z }.

Definition hour_us : Z := 3600 * 1000000.
Definition day_us : Z := 24 * hour_us.

(** [datetime.max] is 9999-12-31T23:59:59.999999, day 3652059 of the
    calendar. *)
Definition max_wall_us : Z := 3652059 * day_us - 1.

(** [timedelta(hours=h)] and [timedelta(days=d)]: the number of days of a
    [timedelta] is bounded by 999999999. *)
Definition timedelta_us (us : Z) : outcome Z :=
  if (Z.abs (us / day_us) <=? 999999999)%Z then Ret us
  else Raise "days out of range for timedelta".

Definition timedelta_hours (h : Z) : outcome Z := timedelta_us (h * hour_us).
Definition timedelta_days (d : Z) : outcome Z := timedelta_us (d * day_us).

(** [dt + delta] raises [OverflowError] outside of the years 1..9999. *)
Definition dt_add (dt : datetime) (delta : Z) : outcome datetime :=
  let w := (wall_us dt + delta)%Z in
  if ((0 <=? w) && (w <=? max_wall_us))%Z
  then Ret (Datetime w (utcoffset dt))
  else Raise "date value out of range".

(** [dt.replace(hour=12, minute=0, second=0, microsecond=0)] *)
Definition dt_at_noon (dt : datetime) : datetime :=
  Datetime ((wall_us dt / day_us) * day_us + 12 * hour_us)%Z (utcoffset dt).

(** ** The collaborators *)

(** The parameters of [events().list]. *)
Record list_request := ListRequest {
  calendarId : string;
  timeMin : string;
  maxResults : nat;
  singleEvents : bool;
  orderBy : string
}.

Record services := Services {
  (** [self.location], [str(self.timezone)], [os.getenv("WEATHER_API_KEY")]
      and [self.maps_api_key] *)
  sv_location : string;
  sv_timezone : string;
  sv_weather_api_key : option string;
  sv_maps_api_key : option string;
  (** [datetime.now(self.timezone)] *)
  sv_now : datetime;
  (** [now.astimezone(timezone.utc).isoformat()] *)
  sv_utc_isoformat : datetime -> string;
  sv_fromisoformat : string -> outcome datetime;
  sv_isoformat : datetime -> string;
  (** [dt.astimezone(self.timezone)] *)
  sv_astimezone : datetime -> outcome datetime;
  sv_strftime : string -> datetime -> string;
  sv_json_loads : string -> outcome value;
  (** [str(v)] for a value that is not a string *)
  sv_str : value -> string;
  (** [client.chat.complete_async]: the message contents of
      [response.choices] *)
  sv_chat_complete : list turn -> outcome (list string);
  (** [events().list(...).execute().get('items', [])] *)
  sv_events_list : list_request -> outcome (list event);
  sv_events_get : value -> outcome event;
  sv_events_insert : event -> outcome event;
  sv_events_update : value -> event -> outcome event;
  (** The request to openweathermap for a city, the status test and the
      formatting of the answer (lines 113-125 of [get_weather], which
      compute with floating point numbers): [Ret (Some line)] on status 200,
      [Ret None] on another status, [Raise] when any step raises. *)
  sv_weather_report : string -> outcome (option string);
  (** The distance matrix request for an origin, a destination and a mode,
      decoded from JSON *)
  sv_distance_matrix : string -> value -> string -> outcome value;
  (** The request to ip-api.com of [get_location_details] and the formatting
      of its answer (floating point coordinates): [Ret (Some text)] when the
      status is 'success', [Ret None] otherwise, [Raise] when a step
      raises. *)
  sv_ip_api_details : outcome (option string)
}.

(** ** Python operations on values *)

Definition nl : string := String "010"%char EmptyString.

Definition type_name (v : value) : string :=
  match v with
  | VNull => "NoneType"
  | VBool _ => "bool"
  | VInt _ => "int"
  | VStr _ => "str"
  | VList _ => "list"
  | VDict _ => "dict"
  end.

Definition attribute_error {A} (v : value) (attr : string) : outcome A :=
  Raise ("'" +:+ type_name v +:+ "' object has no attribute '" +:+ attr +:+ "'").

Definition key_error {A} (k : string) : outcome A := Raise ("'" +:+ k +:+ "'").

(** [bool(v)] *)
Definition truthy (v : value) : bool :=
  match v with
  | VNull => false
  | VBool b => b
  | VInt z => negb (z =? 0)%Z
  | VStr s => negb (is_empty s)
  | VList l => match l with [] => false | _ => true end
  | VDict d => negb (bool_decide (size d = 0))
  end.

(** [bool(s)] for an optional string (an environment variable). *)
Definition env_truthy (o : option string) : bool :=
  match o with
  | Some s => negb (is_empty s)
  | None => false
  end.

(** [d[k]] on a dict *)
Definition dict_getitem (d : gmap string value) (k : string) : outcome value :=
  match d !! k with
  | Some v => Ret v
  | None => key_error k
  end.

(** [d.get(k)] and [d.get(k, default)] on a dict *)
Definition dict_get (d : gmap string value) (k : string) (default : value) : value :=
  match d !! k with
  | Some v => v
  | None => default
  end.

(** [v[k]] for a string key. *)
Definition getitem (v : value) (k : string) : outcome value :=
  match v with
  | VDict d => dict_getitem d k
  | VList _ => Raise "list indices must be integers or slices, not str"
  | VStr _ => Raise "string indices must be integers, not 'str'"
  | _ => Raise ("'" +:+ type_name v +:+ "' object is not subscriptable")
  end.

(** [v[0]] *)
Definition getitem0 (v : value) : outcome value :=
  match v with
  | VList (x :: _) => Ret x
  | VList [] => Raise "list index out of range"
  | VStr (String c _) => Ret (VStr (String c EmptyString))
  | VStr EmptyString => Raise "string index out of range"
  | VDict _ => Raise "0"
  | _ => Raise ("'" +:+ type_name v +:+ "' object is not subscriptable")
  end.

(** [v.get(k, default)] *)
Definition value_get (v : value) (k : string) (default : value) : outcome value :=
  match v with
  | VDict d => Ret (dict_get d k default)
  | _ => attribute_error v "get"
  end.

(** The string a method of [str] is called on: [v.lower()], [v.replace(..)]
    and the like raise [AttributeError] on another value. *)
Definition as_str (v : value) (method : string) : outcome string :=
  match v with
  | VStr s => Ret s
  | _ => attribute_error v method
  end.

(** [f"{v}"] *)
Definition fmt (sv : services) (v : value) : string :=
  match v with
  | VStr s => s
  | VNull => "None"
  | _ => sv_str sv v
  end.

Fixpoint chars (s : string) : list value :=
  match s with
  | EmptyString => []
  | String c s' => VStr (String c EmptyString) :: chars s'
  end.

(** [for x in v]: the elements of a list, the keys of a dict, the characters
    of a string. *)
Definition iterate (v : value) : outcome (list value) :=
  match v with
  | VList l => Ret l
  | VDict d => Ret (VStr <$> (map_to_list d).*1)
  | VStr s => Ret (chars s)
  | _ => Raise ("'" +:+ type_name v +:+ "' object is not iterable")
  end.

(** ** The methods of [MistralAgent] *)

Definition MISTRAL_MODEL : string := "mistral-large-latest".

Definition SYSTEM_PROMPT : string :=
  "You are a helpful assistant with access to my calendar and location information.
When responding to location queries, return the exact formatted location details provided without reformatting.
For other queries, provide helpful and concise responses.".

Definition dq : string := String "034"%char EmptyString.

(** The system message of the extraction call of the event creation
    branch. *)
Definition CREATE_EVENT_PROMPT : string :=
  "RESPOND WITH RAW JSON ONLY. NO CODE BLOCKS. NO MARKDOWN.
                    Example:
                    {
                        " +:+ dq +:+ "summary" +:+ dq +:+ ": " +:+ dq +:+ "Event title here" +:+ dq +:+ ",
                        " +:+ dq +:+ "start_time" +:+ dq +:+ ": " +:+ dq +:+ "2025-02-21T12:00:00-05:00" +:+ dq +:+ ",
                        " +:+ dq +:+ "location" +:+ dq +:+ ": " +:+ dq +:+ "Location here" +:+ dq +:+ "
                    }".

(** The state of a fresh agent ([__init__]): no history, the last 10
    messages are kept. *)
Definition init_world : world := World ∅ 10 [].

Section Agent.

Context (sv : services).

Definition get_local_time : datetime := sv_now sv.

Definition upcoming_request (max_results : nat) : list_request :=
  {| calendarId := "primary";
     timeMin := sv_utc_isoformat sv get_local_time;
     maxResults := max_results;
     singleEvents := true;
     orderBy := "startTime" |}.

Definition get_upcoming_events (max_results : nat) : outcome (list event) :=
  sv_events_list sv (upcoming_request max_results).

Definition get_weather : option string :=
  if negb (env_truthy (sv_weather_api_key sv)) then None
  else
    let city := strip (hd EmptyString (split "," (sv_location sv))) in
    match sv_weather_report sv city with
    | Ret line => line
    | Raise _ => None
    end.

(** [response['rows'][0]['elements'][0][field]['text']] *)
Definition matrix_text (response : value) (field : string) : outcome value :=
  rows ← getitem response "rows";
  row ← getitem0 rows;
  elements ← getitem row "elements";
  element ← getitem0 elements;
  entry ← getitem element field;
  getitem entry "text".

Definition get_travel_time (destination : value) : option string :=
  if negb (env_truthy (sv_maps_api_key sv)) then None
  else
    let body : outcome string :=
      driving ← sv_distance_matrix sv (sv_location sv) destination "driving";
      walking ← sv_distance_matrix sv (sv_location sv) destination "walking";
      drive_time ← matrix_text driving "duration";
      walk_time ← matrix_text walking "duration";
      distance ← matrix_text driving "distance";
      mret ("Distance: " +:+ fmt sv distance +:+ nl +:+
            "Driving time: " +:+ fmt sv drive_time +:+ nl +:+
            "Walking time: " +:+ fmt sv walk_time)
    in
    match body with
    | Ret text => Some text
    | Raise _ => None
    end.

(** [event['start'].get('dateTime', event['start'].get('date'))], parsed and
    moved to the local time zone. *)
Definition event_local_start (ev : event) : outcome datetime :=
  start ← dict_getitem ev "start";
  date ← value_get start "date" VNull;
  start_time ← value_get start "dateTime" date;
  text ← as_str start_time "replace";
  start_dt ← sv_fromisoformat sv (replace "Z" "+00:00" text);
  sv_astimezone sv start_dt.

Definition get_next_event_travel_info : outcome string :=
  events ← get_upcoming_events 1;
  match events with
  | [] => mret "No upcoming events found."
  | ev :: _ =>
      let location := dict_get ev "location" VNull in
      if negb (truthy location) then mret "Next event has no location specified."
      else
        local_time ← event_local_start ev;
        match get_travel_time location with
        | None => mret ("Could not calculate travel time to: " +:+ fmt sv location)
        | Some travel_info =>
            if is_empty travel_info
            then mret ("Could not calculate travel time to: " +:+ fmt sv location)
            else
              summary ← dict_getitem ev "summary";
              mret ("Next event: " +:+ fmt sv summary +:+ " at " +:+
                    sv_strftime sv "%I:%M %p" local_time +:+ nl +:+
                    "Location: " +:+ fmt sv location +:+ nl +:+ travel_info)
        end
  end.

(** The lines of one attendee in [get_event_details]. *)
Definition attendee_line (attendee : value) : outcome string :=
  status ← value_get attendee "responseStatus" (VStr "no response");
  email ← getitem attendee "email";
  name ← value_get attendee "displayName" email;
  mret (nl +:+ "    - " +:+ fmt sv name +:+ " (" +:+ fmt sv status +:+ ")").

Fixpoint attendee_lines (attendees : list value) : outcome string :=
  match attendees with
  | [] => mret EmptyString
  | attendee :: rest =>
      line ← attendee_line attendee;
      lines ← attendee_lines rest;
      mret (line +:+ lines)
  end.

Definition get_event_details (ev : event) : outcome string :=
  local_time ← event_local_start ev;
  summary ← dict_getitem ev "summary";
  let details :=
    "- " +:+ fmt sv summary +:+ " (" +:+ sv_strftime sv "%I:%M %p %Z" local_time +:+ ")" in
  let details :=
    match ev !! "location" with
    | Some location =>
        let details := details +:+ nl +:+ "  Location: " +:+ fmt sv location in
        if env_truthy (sv_maps_api_key sv) then
          match get_travel_time location with
          | Some travel_info =>
              if is_empty travel_info then details
              else details +:+ nl +:+ "  " +:+ travel_info
          | None => details
          end
        else details
    | None => details
    end in
  match ev !! "attendees" with
  | Some attendees =>
      items ← iterate attendees;
      lines ← attendee_lines items;
      mret (details +:+ nl +:+ "  Attendees:" +:+ lines)
  | None => mret details
  end.

(** The start of a new event: lines 207-218 of [create_event]. *)
Definition resolve_start (start_time : value) : outcome datetime :=
  let now := get_local_time in
  match start_time with
  | VStr s =>
      if negb (endswith "Z" s) then
        start_dt ← (if contains "tomorrow" (lower s)
                    then delta ← timedelta_days 1;
                         start_dt ← dt_add now delta;
                         mret (dt_at_noon start_dt)
                    else sv_fromisoformat sv (replace "Z" "+00:00" s));
        sv_astimezone sv start_dt
      else
        start_dt ← sv_fromisoformat sv (replace "Z" "+00:00" s);
        sv_astimezone sv start_dt
  | _ =>
      s ← as_str start_time "replace";
      start_dt ← sv_fromisoformat sv (replace "Z" "+00:00" s);
      sv_astimezone sv start_dt
  end.

(** The end of a new event: lines 220-225 of [create_event]. *)
Definition resolve_end (start_dt : datetime) (end_time : value) : outcome datetime :=
  if negb (truthy end_time) then
    delta ← timedelta_hours 1;
    dt_add start_dt delta
  else
    s ← as_str end_time "replace";
    end_dt ← sv_fromisoformat sv (replace "Z" "+00:00" s);
    sv_astimezone sv end_dt.

(** [{'dateTime': dt.isoformat(), 'timeZone': str(self.timezone)}] *)
Definition time_field (dt : datetime) : value :=
  VDict (<["dateTime" := VStr (sv_isoformat sv dt)]>
         (<["timeZone" := VStr (sv_timezone sv)]> ∅)).

Definition new_event_body (summary : value) (start_dt end_dt : datetime)
    (location : value) : event :=
  let ev : event :=
    <["summary" := summary]>
      (<["start" := time_field start_dt]>
         (<["end" := time_field end_dt]> ∅)) in
  if truthy location then <["location" := location]> ev else ev.

Definition create_event (summary start_time end_time location : value) : M string :=
  try_except
    (start_dt ← lift (resolve_start start_time);
     end_dt ← lift (resolve_end start_dt end_time);
     let ev := new_event_body summary start_dt end_dt location in
     _ ← log_request (CalInsert ev);
     created_event ← lift (sv_events_insert sv ev);
     created_id ← lift (dict_getitem created_event "id");
     verify_event ← lift (sv_events_get sv created_id);
     if truthy (VDict verify_event)
     then mret ("Event created successfully: " +:+
                fmt sv (dict_get verify_event "htmlLink" VNull))
     else mret "Event creation failed verification")
    (fun e => mret ("Failed to create event: " +:+ e)).

Definition set_history (user_id : string) (history : list turn) : M unit := fun w =>
  (Ret tt, World (<[user_id := history]> (conversation_history w))
                 (memory_limit w) (calendar_log w)).

Definition get_conversation_history (user_id : string) : M (list turn) := fun w =>
  match conversation_history w !! user_id with
  | Some history => (Ret history, w)
  | None => (Ret [], World (<[user_id := []]> (conversation_history w))
                           (memory_limit w) (calendar_log w))
  end.

Definition get_memory_limit : M nat := fun w => (Ret (memory_limit w), w).

(** [history.pop(0)] removes the oldest entry. *)
Definition add_to_history (user_id role content : string) : M unit :=
  history ← get_conversation_history user_id;
  limit ← get_memory_limit;
  let history := (history ++ [Turn role content])%list in
  let history := if (limit <? length history)%nat then drop 1 history else history in
  set_history user_id history.

Definition get_location_details : string :=
  match sv_ip_api_details sv with
  | Ret (Some text) => text
  | _ => "📍 Location: " +:+ sv_location sv
  end.

(** One round of the loop of [modify_event] over [changes.items()]. *)
Definition apply_change (updated_event : event) (change : string * value) : outcome event :=
  let '(key, val) := change in
  match val with
  | VDict d =>
      match updated_event !! key with
      | None => Ret (<[key := VDict (d ∪ ∅)]> updated_event)
      | Some (VDict old) => Ret (<[key := VDict (d ∪ old)]> updated_event)
      | Some other => attribute_error other "update"
      end
  | _ => Ret (<[key := val]> updated_event)
  end.

(** [changes] is a dict that is read in insertion order: the list of its
    items. *)
Fixpoint apply_changes (updated_event : event) (changes : list (string * value))
    : outcome event :=
  match changes with
  | [] => Ret updated_event
  | change :: rest =>
      updated_event ← apply_change updated_event change;
      apply_changes updated_event rest
  end.

Definition modify_event (event_id : value) (changes : list (string * value)) : M string :=
  try_except
    (ev ← lift (sv_events_get sv event_id);
     updated_event ← lift (apply_changes ev changes);
     _ ← log_request (CalUpdate event_id updated_event);
     result ← lift (sv_events_update sv event_id updated_event);
     mret ("Event updated successfully: " +:+ fmt sv (dict_get result "htmlLink" VNull)))
    (fun e => mret ("Failed to modify event: " +:+ e)).

(** The search loop of [postpone_event], [update_event_location] and
    [update_event_attendees] (the three copies are the same):
    [[
      for event in events:
          if event['summary'].lower() == event_summary.lower():
              target_event = event
              break
    ]] *)
Fixpoint find_target_event (events : list event) (event_summary : string)
    : outcome (option event) :=
  match events with
  | [] => Ret None
  | ev :: rest =>
      summary ← dict_getitem ev "summary";
      s ← as_str summary "lower";
      if String.eqb (lower s) (lower event_summary) then Ret (Some ev)
      else find_target_event rest event_summary
  end.

(** [if not target_event] *)
Definition target_missing (target_event : option event) : bool :=
  match target_event with
  | Some ev => negb (truthy (VDict ev))
  | None => true
  end.

Definition not_found (event_summary : string) : string :=
  "Could not find event '" +:+ event_summary +:+ "'".

(** [datetime.fromisoformat(event[field]['dateTime'].replace('Z', '+00:00'))] *)
Definition event_time (ev : event) (field : string) : outcome datetime :=
  time ← dict_getitem ev field;
  date_time ← getitem time "dateTime";
  s ← as_str date_time "replace";
  sv_fromisoformat sv (replace "Z" "+00:00" s).

Definition postpone_event (event_summary : string) (hours : Z) : M string :=
  try_except
    (events ← lift (get_upcoming_events 10);
     target_event ← lift (find_target_event events event_summary);
     match target_event with
     | Some ev =>
         if target_missing target_event then mret (not_found event_summary)
         else
           start_time ← lift (event_time ev "start");
           end_time ← lift (event_time ev "end");
           delta ← lift (timedelta_hours hours);
           new_start ← lift (dt_add start_time delta);
           delta' ← lift (timedelta_hours hours);
           new_end ← lift (dt_add end_time delta');
           let changes := [("start", time_field new_start); ("end", time_field new_end)] in
           event_id ← lift (dict_getitem ev "id");
           result ← modify_event event_id changes;
           mret ("Event '" +:+ event_summary +:+ "' postponed by " +:+ str_of_Z hours +:+
                 " hours." +:+ nl +:+ result)
     | None => mret (not_found event_summary)
     end)
    (fun e => mret ("Failed to postpone event: " +:+ e)).

Definition update_event_location (event_summary new_location : string) : M string :=
  try_except
    (events ← lift (get_upcoming_events 10);
     target_event ← lift (find_target_event events event_summary);
     match target_event with
     | Some ev =>
         if target_missing target_event then mret (not_found event_summary)
         else
           let changes := [("location", VStr new_location)] in
           event_id ← lift (dict_getitem ev "id");
           result ← modify_event event_id changes;
           mret ("Updated location for '" +:+ event_summary +:+ "' to: " +:+ new_location +:+
                 nl +:+ result)
     | None => mret (not_found event_summary)
     end)
    (fun e => mret ("Failed to update event location: " +:+ e)).

(** An element of the set [existing_emails]: lists and dicts cannot be
    hashed. *)
Definition hashable (v : value) : outcome value :=
  match v with
  | VList _ | VDict _ => Raise ("unhashable type: '" +:+ type_name v +:+ "'")
  | _ => Ret v
  end.

(** [{att['email'] for att in existing_attendees}] *)
Fixpoint existing_emails (existing_attendees : list value) : outcome (list value) :=
  match existing_attendees with
  | [] => Ret []
  | att :: rest =>
      email ← getitem att "email";
      email ← hashable email;
      emails ← existing_emails rest;
      mret (email :: emails)
  end.

(** [email == v] for a string [email] *)
Definition is_email (email : string) (v : value) : bool :=
  match v with
  | VStr s => String.eqb s email
  | _ => false
  end.

(** [email in existing_emails] *)
Definition email_in (emails : list value) (email : string) : bool :=
  existsb (is_email email) emails.

(** [{'email': email}] *)
Definition attendee_of (email : string) : value :=
  VDict (<["email" := VStr email]> ∅).

(** [[{'email': email} for email in attendees if email not in existing_emails]] *)
Definition new_attendees (emails : list value) (attendees : list string) : list value :=
  attendee_of <$> filter (fun email => email_in emails email = false) attendees.

(** Lines 638-643 of [update_event_attendees]: [all_attendees]. *)
Definition all_attendees (target_event : event) (attendees : list string)
    : outcome (list value) :=
  let existing_attendees := dict_get target_event "attendees" (VList []) in
  items ← iterate existing_attendees;
  emails ← existing_emails items;
  match existing_attendees with
  | VList existing => Ret (existing ++ new_attendees emails attendees)%list
  | _ => Raise ("unsupported operand type(s) for +: '" +:+ type_name existing_attendees +:+
                "' and 'list'")
  end.

Definition update_event_attendees (event_summary : string) (attendees : list string)
    : M string :=
  try_except
    (events ← lift (get_upcoming_events 10);
     target_event ← lift (find_target_event events event_summary);
     match target_event with
     | Some ev =>
         if target_missing target_event then mret (not_found event_summary)
         else
           all ← lift (all_attendees ev attendees);
           let changes := [("attendees", VList all)] in
           event_id ← lift (dict_getitem ev "id");
           result ← modify_event event_id changes;
           mret ("Updated attendees for '" +:+ event_summary +:+ "'" +:+ nl +:+
                 "New attendees: " +:+ join ", " attendees +:+ nl +:+ result)
     | None => mret (not_found event_summary)
     end)
    (fun e => mret ("Failed to update event attendees: " +:+ e)).

(** *** The handler [run] *)

Definition location_queries : list string :=
  ["what is my location"; "where am i"; "what's my location"; "where"; "location";
   "what is my current location"; "tell me my location"].

Definition creation_phrases : list string :=
  ["schedule a"; "create event"; "add meeting"; "new appointment"].

Definition calendar_words : list string := ["calendar"; "schedule"; "event"; "meeting"].

Definition travel_words : list string := ["far"; "distance"; "travel time"; "how long"].

(** [any(query == s for query in queries)] *)
Definition any_equal (queries : list string) (s : string) : bool :=
  existsb (fun query => String.eqb query s) queries.

(** [any(phrase in s for phrase in phrases)] *)
Definition any_in (phrases : list string) (s : string) : bool :=
  existsb (fun phrase => contains phrase s) phrases.

(** [response.choices[0].message.content] *)
Definition first_choice (choices : list string) : outcome string :=
  match choices with
  | c :: _ => Ret c
  | [] => Raise "list index out of range"
  end.

(** Lines 344-347: the fence of a Markdown code block is removed. *)
Definition strip_code_fence (content : string) : outcome string :=
  let content := strip content in
  if startswith "```" content then
    match split_once nl content with
    | Some (_, content) => Ret (rsplit_once_head nl content)
    | None => Raise "list index out of range"
    end
  else Ret content.

(** The event creation branch of [run] (lines 327-361). *)
Definition run_create_event (content : string) : M string :=
  try_except
    (let messages :=
       [Turn "system" CREATE_EVENT_PROMPT;
        Turn "user" ("Create this event: " +:+ content)] in
     choices ← lift (sv_chat_complete sv messages);
     reply ← lift (first_choice choices);
     text ← lift (strip_code_fence reply);
     event_info ← lift (sv_json_loads sv text);
     summary ← lift (getitem event_info "summary");
     start_time ← lift (getitem event_info "start_time");
     location ← lift (value_get event_info "location" VNull);
     result ← create_event summary start_time VNull location;
     mret ("✅ Event created!" +:+ nl +:+ result))
    (fun e => mret ("Failed to create event: " +:+ e)).

(** One round of the loop of the postpone branch (lines 371-379); the state
    is [(event_name, hours)].  [int] may raise. *)
Definition postpone_body (words : list string) (st : option string * Z)
    (i : nat) (word : string) : outcome (option string * Z) :=
  let '(event_name, hours) := st in
  if String.eqb word "postpone" then
    if (i + 1 <? length words)%nat
    then Ret (Some (nth (i + 1) words EmptyString), hours)
    else Ret st
  else if String.eqb word "hour" || String.eqb word "hours" then
    if (0 <? i)%nat && isdigit (nth (i - 1) words EmptyString)
    then hours ← int (nth (i - 1) words EmptyString);
         Ret (event_name, hours)
    else Ret st
  else Ret st.

(** [for i, word in enumerate(words)], from index [i] on. *)
Fixpoint postpone_loop (words : list string) (i : nat) (rest : list string)
    (st : option string * Z) : outcome (option string * Z) :=
  match rest with
  | [] => Ret st
  | word :: rest' =>
      st ← postpone_body words st i word;
      postpone_loop words (S i) rest' st
  end.

(** Lines 367-379: the event name and the number of hours of a postpone
    request. *)
Definition extract_postpone (msg_lower : string) : outcome (option string * Z) :=
  let words := split_ws msg_lower in
  postpone_loop words 0 words (None, 1%Z).

(** The postpone branch of [run] (lines 365-388). *)
Definition run_postpone (msg_lower : string) : M string :=
  try_except
    (command ← lift (extract_postpone msg_lower);
     match command with
     | (Some event_name, hours) =>
         if is_empty event_name then mret "Please specify which event to postpone."
         else postpone_event event_name hours
     | (None, _) => mret "Please specify which event to postpone."
     end)
    (fun e => mret ("Failed to postpone event: " +:+ e)).

(** [a, b = pieces] followed by the two [strip] calls. *)
Definition unpack_pair (pieces : list string) : outcome (string * string) :=
  match pieces with
  | [a; b] => Ret (strip a, strip b)
  | _ :: _ :: _ :: _ => Raise "too many values to unpack (expected 2)"
  | _ => Raise "not enough values to unpack (expected 2, got 1)"
  end.

Definition USAGE_FORMAT : string :=
  "Please use format: update location of [event name] to [new location]".

Definition USAGE_CONNECTOR : string :=
  "Please specify the new location using 'to' or 'at'".

(** Lines 394-399: [parts], the text that follows the phrase; [None] when
    neither phrase occurs. *)
Definition location_parts (msg_lower : string) : option string :=
  if contains "update location of" msg_lower
  then Some (nth 1 (split "update location of" msg_lower) EmptyString)
  else if contains "change location of" msg_lower
  then Some (nth 1 (split "change location of" msg_lower) EmptyString)
  else None.

(** Lines 394-409: either a reply that is returned at once ([inl]) or the
    event name and the new location ([inr]). *)
Definition extract_update_location (msg_lower : string)
    : outcome (string + string * string) :=
  match location_parts msg_lower with
  | None => Ret (inl USAGE_FORMAT)
  | Some parts =>
      if contains " to " parts then
        pair ← unpack_pair (split " to " parts);
        mret (inr pair)
      else if contains " at " parts then
        pair ← unpack_pair (split " at " parts);
        mret (inr pair)
      else Ret (inl USAGE_CONNECTOR)
  end.

(** The location update branch of [run] (lines 392-418). *)
Definition run_update_location (msg_lower : string) : M string :=
  try_except
    (command ← lift (extract_update_location msg_lower);
     match command with
     | inl reply => mret reply
     | inr (event_name, new_location) =>
         if negb (is_empty event_name) && negb (is_empty new_location)
         then update_event_location event_name new_location
         else mret "Please specify both the event name and new location."
     end)
    (fun e => mret ("Failed to update event location: " +:+ e)).

(** The loop of the attendee branch (lines 428-433), which stops at the
    first word 'to' or 'for' that is not the first word. *)
Fixpoint attendees_loop (words : list string) (i : nat) (rest : list string)
    : option string * list string :=
  match rest with
  | [] => (None, [])
  | word :: rest' =>
      if (String.eqb word "to" || String.eqb word "for") && (0 <? i)%nat
      then (Some (join " " (take (i - 2) (drop 2 words))),
            filter (fun w => contains "@" w = true) (drop (i + 1) words))
      else attendees_loop words (S i) rest'
  end.

Definition extract_update_attendees (msg_lower : string) : option string * list string :=
  let words := split_ws msg_lower in
  attendees_loop words 0 words.

(** The attendee branch of [run] (lines 422-442). *)
Definition run_update_attendees (msg_lower : string) : M string :=
  try_except
    (match extract_update_attendees msg_lower with
     | (Some event_name, (_ :: _) as attendees) =>
         if is_empty event_name
         then mret "Please specify the event name and attendee email addresses."
         else update_event_attendees event_name attendees
     | _ => mret "Please specify the event name and attendee email addresses."
     end)
    (fun e => mret ("Failed to update event attendees: " +:+ e)).

(** The digest of the upcoming events (lines 456-457). *)
Fixpoint events_digest (events : list event) : outcome string :=
  match events with
  | [] => Ret EmptyString
  | ev :: rest =>
      details ← get_event_details ev;
      digest ← events_digest rest;
      mret (details +:+ nl +:+ digest)
  end.

(** Lines 445-449: the location line and, when there is one, the weather
    line. *)
Definition location_and_weather : string :=
  let location_context := "My location: " +:+ sv_location sv +:+ nl in
  match get_weather with
  | Some weather =>
      if is_empty weather then location_context
      else location_context +:+ weather +:+ nl
  | None => location_context
  end.

(** Lines 445-463: [(location_context, calendar_context)]. *)
Definition build_context (msg_lower : string) : outcome (string * string) :=
  let location_context := location_and_weather in
  calendar_context ←
    (if any_in calendar_words msg_lower then
       events ← get_upcoming_events 5;
       digest ← events_digest events;
       mret ("Here are my upcoming events:" +:+ nl +:+ digest)
     else mret EmptyString);
  location_context ←
    (if any_in travel_words msg_lower then
       travel_info ← get_next_event_travel_info;
       if is_empty travel_info then mret location_context
       else mret (location_context +:+ nl +:+ travel_info +:+ nl)
     else mret location_context);
  mret (location_context, calendar_context).

(** The messages of the chat call (lines 466-470). *)
Definition chat_messages (history : list turn) (context : string * string)
    (content : string) : list turn :=
  ([Turn "system" SYSTEM_PROMPT] ++ history ++
   [Turn "user" (fst context +:+ snd context +:+ nl +:+ content)])%list.

(** The free-form reply of [run] (lines 444-481). *)
Definition run_general_chat (user_id : string) (history : list turn)
    (msg_lower content : string) : M string :=
  context ← lift (build_context msg_lower);
  choices ← lift (sv_chat_complete sv (chat_messages history context content));
  _ ← add_to_history user_id "user" content;
  reply ← lift (first_choice choices);
  _ ← add_to_history user_id "assistant" reply;
  lift (first_choice choices).

(** [run(message)] with [user_id = str(message.author.id)] and
    [content = message.content]. *)
Definition run (user_id content : string) : M string :=
  let msg_lower := lower content in
  if any_equal location_queries msg_lower then mret get_location_details
  else
    history ← get_conversation_history user_id;
    if String.eqb msg_lower "forget" || String.eqb msg_lower "reset" then
      _ ← set_history user_id [];
      mret "I've reset our conversation history."
    else if any_in creation_phrases msg_lower then run_create_event content
    else if contains "postpone" msg_lower then run_postpone msg_lower
    else if contains "update location" msg_lower || contains "change location" msg_lower
    then run_update_location msg_lower
    else if contains "add attendee" msg_lower || contains "invite" msg_lower
    then run_update_attendees msg_lower
    else run_general_chat user_id history msg_lower content.

End Agent.

(** ** A concrete set of collaborators

    A small calendar and well-behaved services, used to run the handler on
    concrete messages; the variants below make one collaborator fail. *)

Module Demo.

Definition time_of (iso : string) : value :=
  VDict (<["dateTime" := VStr iso]> (<["timeZone" := VStr "America/New_York"]> ∅)).

Definition standup : event :=
  <["id" := VStr "ev1"]>
    (<["summary" := VStr "Standup"]>
       (<["start" := time_of "1000"]>
          (<["end" := time_of "2000"]>
             (<["attendees" := VList [VDict (<["email" := VStr "ann@example.com"]> ∅)]]> ∅)))).

Definition demo_day : event :=
  <["id" := VStr "ev2"]>
    (<["summary" := VStr "Demo day"]>
       (<["start" := time_of "3000"]>
          (<["end" := time_of "4000"]>
             (<["location" := VStr "Room 1"]> ∅)))).

Definition events : list event := [standup; demo_day].

Definition demo_review : event :=
  <["id" := VStr "ev4"]>
    (<["summary" := VStr "Team Demo review"]>
       (<["start" := time_of "6000"]>
          (<["end" := time_of "7000"]> ∅))).

(** Changes of the start and of the location of an event. *)
Definition changes : list (string * value) :=
  [("start", time_of "9000"); ("location", VStr "Room 5")].

(** A state in which the user 7 has a history. *)
Definition two_users : world :=
  World (<["7" := [Turn "user" "hi"; Turn "assistant" "Hello."]]> ∅) 10 [].

(** A calendar on which every summary holds the word Demo. *)
Definition demo_events : list event := [demo_day; demo_review].

Definition has_id (event_id : value) (ev : event) : bool :=
  match event_id, ev !! "id" with
  | VStr a, Some (VStr b) => String.eqb a b
  | _, _ => false
  end.

(** The textual form of a date is the decimal writing of its wall-clock
    time. *)
Definition fromisoformat (s : string) : outcome datetime :=
  match (if isdigit s then int s else Raise EmptyString) with
  | Ret wall => Ret (Datetime wall (Some (-18000)%Z))
  | Raise _ => Raise ("Invalid isoformat string: '" +:+ s +:+ "'")
  end.

Definition extracted : value :=
  VDict (<["summary" := VStr "Demo"]> (<["start_time" := VStr "5000"]> ∅)).

(** The collaborators, given the behaviour of the chat call, of the calendar
    listing and of the weather request. *)
Definition make (chat_complete : list turn -> outcome (list string))
    (events_list : list_request -> outcome (list event))
    (weather_report : string -> outcome (option string)) : services :=
  {| sv_location := "Boston, Massachusetts, United States";
     sv_timezone := "America/New_York";
     sv_weather_api_key := Some "key";
     sv_maps_api_key := None;
     sv_now := Datetime 500 (Some (-18000)%Z);
     sv_utc_isoformat := fun dt => str_of_Z (wall_us dt);
     sv_fromisoformat := fromisoformat;
     sv_isoformat := fun dt => str_of_Z (wall_us dt);
     sv_astimezone := fun dt => Ret dt;
     sv_strftime := fun _ dt => str_of_Z (wall_us dt);
     sv_json_loads := fun _ => Ret extracted;
     sv_str := fun _ => "?";
     sv_chat_complete := chat_complete;
     sv_events_list := events_list;
     sv_events_get := fun event_id =>
       match filter (fun ev => has_id event_id ev = true) events with
       | ev :: _ => Ret ev
       | [] => Ret (<["id" := event_id]> (<["htmlLink" := VStr "https://calendar.example/ev"]> ∅))
       end;
     sv_events_insert := fun body => Ret (<["id" := VStr "ev3"]> body);
     sv_events_update := fun _ body => Ret body;
     sv_weather_report := weather_report;
     sv_distance_matrix := fun _ _ _ => Raise "maps unavailable";
     sv_ip_api_details := Ret None |}.

Definition chat_ok : list turn -> outcome (list string) := fun _ => Ret ["Sure."].

Definition list_ok : list_request -> outcome (list event) :=
  fun request => Ret (take (maxResults request) events).

Definition weather_ok : string -> outcome (option string) :=
  fun city => Ret (Some ("Current weather in " +:+ city +:+ ": clear sky")).

(** Every collaborator answers. *)
Definition healthy : services := make chat_ok list_ok weather_ok.

(** The language model cannot be reached. *)
Definition llm_down : services :=
  make (fun _ => Raise "API error occurred: Status 503") list_ok weather_ok.

(** The calendar cannot be reached. *)
Definition calendar_down : services :=
  make chat_ok (fun _ => Raise "HttpError 503") weather_ok.

(** An all-day event: its start and end carry a date and no time. *)
Definition holiday : event :=
  <["id" := VStr "ev5"]>
    (<["summary" := VStr "Holiday"]>
       (<["start" := VDict (<["date" := VStr "2025-07-04"]> ∅)]>
          (<["end" := VDict (<["date" := VStr "2025-07-05"]> ∅)]> ∅))).

(** The calendar holds the all-day event only. *)
Definition holidays : services := make chat_ok (fun _ => Ret [holiday]) weather_ok.

(** An event without a title: the calendar sends no summary for it. *)
Definition untitled : event :=
  <["id" := VStr "ev6"]>
    (<["start" := time_of "500"]> (<["end" := time_of "600"]> ∅)).

(** The calendar holds the untitled event before the stand-up. *)
Definition untitled_first : services :=
  make chat_ok (fun _ => Ret [untitled; standup]) weather_ok.

(** The calendar lists the events and then fails to read any of them. *)
Definition gone : services :=
  {| sv_location := sv_location healthy;
     sv_timezone := sv_timezone healthy;
     sv_weather_api_key := sv_weather_api_key healthy;
     sv_maps_api_key := sv_maps_api_key healthy;
     sv_now := sv_now healthy;
     sv_utc_isoformat := sv_utc_isoformat healthy;
     sv_fromisoformat := sv_fromisoformat healthy;
     sv_isoformat := sv_isoformat healthy;
     sv_astimezone := sv_astimezone healthy;
     sv_strftime := sv_strftime healthy;
     sv_json_loads := sv_json_loads healthy;
     sv_str := sv_str healthy;
     sv_chat_complete := sv_chat_complete healthy;
     sv_events_list := sv_events_list healthy;
     sv_events_get := fun _ => Raise "Not Found";
     sv_events_insert := sv_events_insert healthy;
     sv_events_update := sv_events_update healthy;
     sv_weather_report := sv_weather_report healthy;
     sv_distance_matrix := sv_distance_matrix healthy;
     sv_ip_api_details := sv_ip_api_details healthy |}.

(** The services [healthy] with another chat call and another JSON
    parser. *)
Definition with_extraction (chat_complete : list turn -> outcome (list string))
    (json_loads : string -> outcome value) : services :=
  {| sv_location := sv_location healthy;
     sv_timezone := sv_timezone healthy;
     sv_weather_api_key := sv_weather_api_key healthy;
     sv_maps_api_key := sv_maps_api_key healthy;
     sv_now := sv_now healthy;
     sv_utc_isoformat := sv_utc_isoformat healthy;
     sv_fromisoformat := sv_fromisoformat healthy;
     sv_isoformat := sv_isoformat healthy;
     sv_astimezone := sv_astimezone healthy;
     sv_strftime := sv_strftime healthy;
     sv_json_loads := json_loads;
     sv_str := sv_str healthy;
     sv_chat_complete := chat_complete;
     sv_events_list := sv_events_list healthy;
     sv_events_get := sv_events_get healthy;
     sv_events_insert := sv_events_insert healthy;
     sv_events_update := sv_events_update healthy;
     sv_weather_report := sv_weather_report healthy;
     sv_distance_matrix := sv_distance_matrix healthy;
     sv_ip_api_details := sv_ip_api_details healthy |}.

(** The language model extracts a start time that is no date. *)
Definition vague : services :=
  with_extraction (fun _ => Ret ["{}"])
    (fun _ => Ret (VDict (<["summary" := VStr "Call"]>
                            (<["start_time" := VStr "next week"]> ∅)))).

(** The language model answers with a fenced text on one line. *)
Definition fenced_line : services :=
  with_extraction (fun _ => Ret ["```{}```"]) (fun _ => Ret extracted).

(** Only the language model can be reached: the calendar and the weather
    service fail (the maps service of [make] fails as well). *)
Definition all_down : services :=
  make chat_ok (fun _ => Raise "HttpError 503") (fun _ => Raise "Connection refused").

(** An event with an attendee that has a display name and no address. *)
Definition guest_event : event :=
  <["id" := VStr "ev7"]>
    (<["summary" := VStr "Lunch"]>
       (<["start" := time_of "2500"]>
          (<["end" := time_of "2600"]>
             (<["attendees" := VList [VDict (<["displayName" := VStr "Guest"]> ∅)]]> ∅)))).

(** The calendar holds that event between the two others. *)
Definition nameless_guest : services :=
  make chat_ok (fun _ => Ret [standup; guest_event; demo_day]) weather_ok.

(** The language model answers without a choice. *)
Definition no_choice : services := make (fun _ => Ret []) list_ok weather_ok.

(** The calendar holds the events [demo_events]. *)
Definition demos : services :=
  make chat_ok (fun request => Ret (take (maxResults request) demo_events)) weather_ok.

(** The weather service cannot be reached. *)
Definition weather_down : services :=
  make chat_ok list_ok (fun _ => Raise "Connection refused").

End Demo.

(** ** Sequences of appends to the conversation memory *)

Module Memory.

(** A sequence of single-turn appends for one user. *)
Fixpoint add_all (user_id : string) (turns : list turn) : M unit :=
  match turns with
  | [] => mret tt
  | t :: rest =>
      _ ← add_to_history user_id (role t) (content t);
      add_all user_id rest
  end.

(** The history of a user as the dict holds it ([[]] when there is no
    entry). *)
Definition stored (w : world) (user_id : string) : list turn :=
  default [] (conversation_history w !! user_id).

(** What one call of [add_to_history] leaves in the entry of the user. *)
Definition appended (limit : nat) (history : list turn) (t : turn) : list turn :=
  if (limit <? length (history ++ [t]))%nat then drop 1 (history ++ [t]) else history ++ [t].

(** [recent limit all] is what remains of [all] when only the last [limit]
    entries are kept. *)
Definition recent (limit : nat) (all : list turn) : list turn :=
  drop (length all - limit) all.

(** Twelve turns, two more than a fresh agent keeps. *)
Definition twelve_turns : list turn :=
  (fun n => Turn "user" (str_of_Z (Z.of_nat n))) <$> seq 0 12.

End Memory.

(** ** Intents *)

(** The closed set of intents of a message. *)
Inductive intent :=
  | LocationQuery
  | Reset
  | CreateEvent
  | Postpone
  | UpdateLocation
  | UpdateAttendees
  | GeneralChat.

Definition all_intents : list intent :=
  [LocationQuery; Reset; CreateEvent; Postpone; UpdateLocation; UpdateAttendees; GeneralChat].

(** The branch that [run] takes for a message: the tests of lines 314, 320,
    325, 364, 391 and 421 of the source, in the order of the source. *)
Definition classify (content : string) : intent :=
  let msg_lower := lower content in
  if any_equal location_queries msg_lower then LocationQuery
  else if String.eqb msg_lower "forget" || String.eqb msg_lower "reset" then Reset
  else if any_in creation_phrases msg_lower then CreateEvent
  else if contains "postpone" msg_lower then Postpone
  else if contains "update location" msg_lower || contains "change location" msg_lower
  then UpdateLocation
  else if contains "add attendee" msg_lower || contains "invite" msg_lower
  then UpdateAttendees
  else GeneralChat.

(** What [run] does on each of its branches. *)
Definition handle (sv : services) (i : intent) (user_id content : string) : M string :=
  match i with
  | LocationQuery => mret (get_location_details sv)
  | Reset =>
      _ ← get_conversation_history user_id;
      _ ← set_history user_id [];
      mret "I've reset our conversation history."
  | CreateEvent =>
      _ ← get_conversation_history user_id;
      run_create_event sv content
  | Postpone =>
      _ ← get_conversation_history user_id;
      run_postpone sv (lower content)
  | UpdateLocation =>
      _ ← get_conversation_history user_id;
      run_update_location sv (lower content)
  | UpdateAttendees =>
      _ ← get_conversation_history user_id;
      run_update_attendees sv (lower content)
  | GeneralChat =>
      history ← get_conversation_history user_id;
      run_general_chat sv user_id history (lower content) content
  end.

(** The classification order as the specification words it (section 4.1):
    an ordered list of rules over the message without case, each a test and
    the intent it selects; the first rule that matches wins and a message
    that no rule matches is general chat. *)
Definition spec_rules : list ((string -> bool) * intent) :=
  [ (fun m => existsb (String.eqb m) location_queries, LocationQuery);
    (fun m => String.eqb m "forget" || String.eqb m "reset", Reset);
    (fun m => existsb (fun phrase => contains phrase m) creation_phrases, CreateEvent);
    (fun m => contains "postpone" m, Postpone);
    (fun m => contains "update location" m || contains "change location" m, UpdateLocation);
    (fun m => contains "add attendee" m || contains "invite" m, UpdateAttendees) ].

Fixpoint first_match (rules : list ((string -> bool) * intent)) (m : string) : intent :=
  match rules with
  | [] => GeneralChat
  | (test, i) :: rest => if test m then i else first_match rest m
  end.

Definition spec_classify (content : string) : intent :=
  first_match spec_rules (lower content).

(** ** Occurrences of a separator *)

(** The separator [sep] does not start at a position of [a] in the text
    [a +:+ rest]. *)
Fixpoint no_start_within (sep a rest : string) : bool :=
  match a with
  | EmptyString => true
  | String c a' => negb (startswith sep (a +:+ rest)) && no_start_within sep a' rest
  end.

(** ** Summaries of events *)

(** The summary of an event when it is a string. *)
Definition summary_text (ev : event) : option string :=
  match ev !! "summary" with
  | Some (VStr s) => Some s
  | _ => None
  end.

(** The summary of the event equals [name] when case is ignored. *)
Definition matches_up_to_case (name : string) (ev : event) : bool :=
  match summary_text ev with
  | Some s => String.eqb (lower s) (lower name)
  | None => false
  end.

(** The event has a summary, and it differs from [name] even when case is
    ignored. *)
Definition differs_up_to_case (name : string) (ev : event) : bool :=
  match summary_text ev with
  | Some s => negb (String.eqb (lower s) (lower name))
  | None => false
  end.

(** [name] occurs in the summary of the event and is not the whole of it. *)
Definition strictly_within_summary (name : string) (ev : event) : bool :=
  match summary_text ev with
  | Some s => contains name s && negb (String.eqb name s)
  | None => false
  end.

(** ** Commands extracted from a message *)

(** The postpone branch computes on [msg_lower = message.content.lower()]. *)
Definition postpone_command (content : string) : outcome (option string * Z) :=
  extract_postpone (lower content).

(** The location branch computes on [msg_lower] as well. *)
Definition update_location_command (content : string)
    : outcome (string + string * string) :=
  extract_update_location (lower content).

(** [word in ['hour', 'hours']] *)
Definition is_hour_word (word : string) : bool :=
  String.eqb word "hour" || String.eqb word "hours".

(** Every word of digits that stands before 'hour' or 'hours' can be
    converted by [int]. *)
Definition counts_readable (words : list string) : Prop :=
  forall i digits hour_word,
    words !! i = Some digits -> words !! S i = Some hour_word ->
    is_hour_word hour_word = true ->
    isdigit digits = true ->
    exists n, int digits = Ret n.

(** ** Changes of an event *)

Definition is_dict (v : value) : bool :=
  match v with
  | VDict _ => true
  | _ => false
  end.

(** A change can be merged into the event: a nested object meets a nested
    object or a key that the event does not have. *)
Definition mergeable (ev : event) (change : string * value) : bool :=
  match change with
  | (key, VDict _) =>
      match ev !! key with
      | None | Some (VDict _) => true
      | Some _ => false
      end
  | _ => true
  end.

(** The value of a changed key after the merge: a nested object is united
    with the one of the event (the keys of the change win), another value
    replaces the one of the event. *)
Definition merged (ev : event) (key : string) (v : value) : value :=
  match v with
  | VDict d =>
      match ev !! key with
      | Some (VDict old) => VDict (d ∪ old)
      | _ => VDict d
      end
  | _ => v
  end.

(** ** Requests sent to the calendar *)

(** The requests that a computation adds to the log all satisfy [P]. *)
Definition logs {A} (P : cal_request -> Prop) (m : M A) : Prop :=
  forall w, exists new,
    calendar_log (snd (m w)) = calendar_log w ++ new /\ Forall P new.

Definition is_update (r : cal_request) : Prop :=
  match r with
  | CalUpdate _ _ => True
  | CalInsert _ => False
  end.

(** The body of a new event whose end is one hour after its start, the
    start being the one resolved from some [start_time]. *)
Definition one_hour_event (sv : services) (body : event) : Prop :=
  exists start_time start_dt end_dt,
    resolve_start sv start_time = Ret start_dt
    /\ body !! "start" = Some (time_field sv start_dt)
    /\ body !! "end" = Some (time_field sv end_dt)
    /\ wall_us end_dt = (wall_us start_dt + hour_us)%Z
    /\ utcoffset end_dt = utcoffset start_dt.

Definition insert_one_hour (sv : services) (r : cal_request) : Prop :=
  match r with
  | CalInsert body => one_hour_event sv body
  | CalUpdate _ _ => True
  end.

(** ** Computations that return *)

(** The computation ends with a result, whatever the state: it does not
    raise. *)
Definition returns {A} (m : M A) : Prop :=
  forall w, exists a, fst (m w) = Ret a.

(** ** Start of the agent: the location and the time zone

    [get_ip_location] and [update_location_and_timezone] talk to the
    geolocation services; their answers are the fields of [locators]. *)

Record locators := Locators {
  (** [requests.get('http://ip-api.com/json/', timeout=5).json()] *)
  lc_ip_api : outcome value;
  (** [requests.get('https://ipapi.co/json/', timeout=5)]: the status code
      and the decoded body *)
  lc_ipapi_co : outcome (Z * value);
  (** [requests.get('https://ipinfo.io/json', timeout=5).json()] *)
  lc_ipinfo : outcome value;
  (** [os.getenv("USER_LOCATION")] *)
  lc_user_location : option string;
  (** [self.tf.timezone_at(lat=..., lng=...)] *)
  lc_timezone_at : value -> value -> outcome value;
  (** [str(pytz.timezone(name))] *)
  lc_pytz_timezone : value -> outcome string;
  (** [str(v)] for a value that is not a string *)
  lc_str : value -> string
}.

(** [v == s] for a string [s] *)
Definition equals_str (v : value) (s : string) : bool :=
  match v with
  | VStr t => String.eqb t s
  | _ => false
  end.

(** [k in v] for a string [k]: a key of a dict, an element of a list, a part
    of a string. *)
Definition contains_key (v : value) (k : string) : outcome bool :=
  match v with
  | VDict d => Ret (bool_decide (is_Some (d !! k)))
  | VList l => Ret (existsb (fun x => equals_str x k) l)
  | VStr s => Ret (contains k s)
  | _ => Raise ("argument of type '" +:+ type_name v +:+ "' is not iterable")
  end.

Section Startup.

Context (lc : locators).

(** [f"{v}"] *)
Definition fmt_value (v : value) : string :=
  match v with
  | VStr s => s
  | VNull => "None"
  | _ => lc_str lc v
  end.

(** [f"{data['city']}, {data[region_key]}, {data['country']}"] *)
Definition place_label (data : value) (region_key : string) : outcome string :=
  city ← getitem data "city";
  region ← getitem data region_key;
  country ← getitem data "country";
  mret (fmt_value city +:+ ", " +:+ fmt_value region +:+ ", " +:+ fmt_value country).

(** The body of the [try] statement of [get_ip_location] (lines 44-60):
    [Ret (Some label)] when a [return] is reached, [Ret None] when the body
    ends without one. *)
Definition ip_location_lookup : outcome (option string) :=
  data ← lc_ip_api lc;
  status ← getitem data "status";
  if equals_str status "success" then
    label ← place_label data "regionName";
    mret (Some label)
  else
    response ← lc_ipapi_co lc;
    if (response.1 =? 200)%Z then
      label ← place_label response.2 "region";
      mret (Some label)
    else
      data ← lc_ipinfo lc;
      has_city ← contains_key data "city";
      has_region ← (if has_city then contains_key data "region" else mret false);
      if has_city && has_region then
        label ← place_label data "region";
        mret (Some label)
      else mret None.

Definition get_ip_location : string :=
  match ip_location_lookup with
  | Ret (Some label) => label
  | _ =>
      match lc_user_location lc with
      | Some env_location =>
          if is_empty env_location then "Location unknown" else env_location
      | None => "Location unknown"
      end
  end.

(** The attributes [location], [latitude], [longitude] and [timezone] of
    the agent; an attribute that was never assigned is [None]. *)
Record place := Place {
  pl_location : string;
  pl_latitude : option value;
  pl_longitude : option value;
  pl_timezone : option string
}.

(** The [except] clause of [update_location_and_timezone]. *)
Definition fallback_timezone (p : place) : place :=
  Place (pl_location p) (pl_latitude p) (pl_longitude p) (Some "America/Los_Angeles").

Definition update_location_and_timezone (p : place) : place :=
  match lc_ip_api lc with
  | Raise _ => fallback_timezone p
  | Ret data =>
      match getitem data "status" with
      | Raise _ => fallback_timezone p
      | Ret status =>
          if equals_str status "success" then
            match place_label data "regionName" with
            | Raise _ => fallback_timezone p
            | Ret label =>
                let p := Place label (pl_latitude p) (pl_longitude p) (pl_timezone p) in
                match getitem data "lat" with
                | Raise _ => fallback_timezone p
                | Ret lat =>
                    let p := Place (pl_location p) (Some lat) (pl_longitude p) (pl_timezone p) in
                    match getitem data "lon" with
                    | Raise _ => fallback_timezone p
                    | Ret lon =>
                        let p := Place (pl_location p) (pl_latitude p) (Some lon)
                                       (pl_timezone p) in
                        match lc_timezone_at lc lat lon with
                        | Raise _ => fallback_timezone p
                        | Ret timezone_str =>
                            match lc_pytz_timezone lc timezone_str with
                            | Raise _ => fallback_timezone p
                            | Ret zone =>
                                Place (pl_location p) (pl_latitude p) (pl_longitude p)
                                      (Some zone)
                            end
                        end
                    end
                end
            end
          else fallback_timezone p
      end
  end.

(** The part of [__init__] that sets the location and the time zone (lines
    29-31 and 39). *)
Definition init_place : place :=
  let location :=
    match lc_user_location lc with
    | Some env_location => if is_empty env_location then get_ip_location else env_location
    | None => get_ip_location
    end in
  update_location_and_timezone (Place location None None None).

End Startup.

(** ** Relations between the state before and after a computation *)

(** Every run of the computation relates the state it starts in to the
    state it leaves. *)
Definition preserves {A} (R : world -> world -> Prop) (m : M A) : Prop :=
  forall w, R w (snd (m w)).

(** The limit is kept, and a history that was within the limit is still
    within it. *)
Definition bound_kept (w w' : world) : Prop :=
  memory_limit w' = memory_limit w
  /\ forall user_id,
       length (Memory.stored w user_id) <= memory_limit w ->
       length (Memory.stored w' user_id) <= memory_limit w.

(** The histories of the users other than [user_id] are the same. *)
Definition others_kept (user_id : string) (w w' : world) : Prop :=
  forall other, other ≠ user_id -> Memory.stored w' other = Memory.stored w other.

(** The computation adds at most [n] requests to the log. *)
Definition sends {A} (n : nat) (m : M A) : Prop :=
  forall w, exists new,
    calendar_log (snd (m w)) = calendar_log w ++ new /\ length new <= n.

(** [word in ['to', 'for']] *)
Definition is_connector (word : string) : bool :=
  String.eqb word "to" || String.eqb word "for".

(** A text between an opening fence with a language tag and a closing
    fence. *)
Definition fenced (lang body : string) : string :=
  "```" +:+ lang +:+ nl +:+ body +:+ nl +:+ "```".

(** The messages of the extraction call of the event creation branch. *)
Definition extraction_messages (content : string) : list turn :=
  [Turn "system" CREATE_EVENT_PROMPT; Turn "user" ("Create this event: " +:+ content)].

(** ** Concrete geolocation services *)

Module DemoPlace.

Definition boston : value :=
  VDict (<["status" := VStr "success"]>
           (<["city" := VStr "Boston"]>
              (<["regionName" := VStr "Massachusetts"]>
                 (<["region" := VStr "MA"]>
                    (<["country" := VStr "United States"]>
                       (<["lat" := VInt 42]> (<["lon" := VInt (-71)]> ∅))))))).

Definition zone_of (name : value) : outcome string :=
  match name with
  | VStr s => Ret s
  | _ => Raise "'NoneType' object has no attribute 'upper'"
  end.

(** The first service answers; the operator configured another place. *)
Definition online : locators :=
  {| lc_ip_api := Ret boston;
     lc_ipapi_co := Ret (200%Z, boston);
     lc_ipinfo := Ret boston;
     lc_user_location := Some "Paris, France";
     lc_timezone_at := fun _ _ => Ret (VStr "America/New_York");
     lc_pytz_timezone := zone_of;
     lc_str := fun _ => "?" |}.

(** The first service cannot be reached; the two others would answer. *)
Definition first_down : locators :=
  {| lc_ip_api := Raise "Connection timed out";
     lc_ipapi_co := Ret (200%Z, boston);
     lc_ipinfo := Ret boston;
     lc_user_location := None;
     lc_timezone_at := fun _ _ => Ret (VStr "America/New_York");
     lc_pytz_timezone := zone_of;
     lc_str := fun _ => "?" |}.

End DemoPlace.

(** * Properties *)

(** ** Facts on the text operations *)

Module PyStrFacts.

Lemma append_nil s : EmptyString +:+ s = s.
Proof. reflexivity. Qed.

Lemma append_cons c a b : String c a +:+ b = String c (a +:+ b).
Proof. reflexivity. Qed.

Lemma startswith_app p t : startswith p (p +:+ t) = true.
Proof.
  unfold startswith. induction p as [|c p IH]; simpl.
  - destruct t; reflexivity.
  - destruct (ascii_dec c c) as [_|Hne]; [exact IH | contradiction].
Qed.

Lemma startswith_inv p s : startswith p s = true -> exists t, s = p +:+ t.
Proof.
  unfold startswith. revert s. induction p as [|c p IH]; intros s H.
  - exists s. reflexivity.
  - destruct s as [|d s]; simpl in H; [discriminate|].
    destruct (ascii_dec c d) as [->|Hne]; [|discriminate].
    destruct (IH s H) as [t ->]. exists t. reflexivity.
Qed.

Lemma length_append a b :
  String.length (a +:+ b) = String.length a + String.length b.
Proof. induction a as [|c a IH]; simpl; [reflexivity | rewrite IH; reflexivity]. Qed.

Lemma length_lower s : String.length (lower s) = String.length s.
Proof. induction s as [|c s IH]; simpl; [reflexivity | rewrite IH; reflexivity]. Qed.

Lemma append_empty_r s : s +:+ EmptyString = s.
Proof. induction s as [|c s IH]; [reflexivity | rewrite append_cons, IH; reflexivity]. Qed.

Lemma append_assoc a b c : (a +:+ b) +:+ c = a +:+ (b +:+ c).
Proof. induction a as [|x a IH]; [reflexivity | rewrite !append_cons, IH; reflexivity]. Qed.

Lemma contains_unfold needle hay :
  contains needle hay =
  startswith needle hay ||
  match hay with
  | EmptyString => false
  | String _ hay' => contains needle hay'
  end.
Proof. destruct hay; reflexivity. Qed.

(** A substring is not longer than the text it occurs in. *)
Lemma contains_length needle hay :
  contains needle hay = true -> String.length needle <= String.length hay.
Proof.
  induction hay as [|c hay IH]; rewrite contains_unfold; intros H.
  - rewrite orb_false_r in H. apply startswith_inv in H as [t Ht].
    rewrite Ht, length_append. lia.
  - apply orb_true_iff in H as [H|H].
    + apply startswith_inv in H as [t Ht]. rewrite Ht, length_append. lia.
    + specialize (IH H). simpl. lia.
Qed.

(** A substring as long as the text is the text itself. *)
Lemma contains_same_length needle hay :
  contains needle hay = true -> String.length needle = String.length hay -> needle = hay.
Proof.
  intros H Hlen.
  assert (Hstart : startswith needle hay = true).
  { rewrite contains_unfold in H. apply orb_true_iff in H as [H|H]; [exact H|].
    destruct hay as [|c hay]; [discriminate|].
    apply contains_length in H. simpl in Hlen. lia. }
  apply startswith_inv in Hstart as [t Ht].
  rewrite Ht, length_append in Hlen.
  destruct t as [|c t]; [|simpl in Hlen; lia].
  rewrite Ht, append_empty_r. reflexivity.
Qed.

(** A strict substring differs from the text even when case is ignored. *)
Lemma strict_substring_lower needle hay :
  contains needle hay = true -> needle ≠ hay -> lower hay ≠ lower needle.
Proof.
  intros H Hne Heq. apply Hne, contains_same_length; [exact H|].
  rewrite <- (length_lower needle), <- (length_lower hay), Heq. reflexivity.
Qed.

Lemma startswith_app_long p x y :
  startswith p (x +:+ y) = true -> String.length p <= String.length x ->
  startswith p x = true.
Proof.
  unfold startswith. revert x. induction p as [|c p IH]; intros x H Hlen.
  - destruct x; reflexivity.
  - destruct x as [|d x]; [simpl in Hlen; lia|].
    rewrite append_cons in H. simpl in *.
    destruct (ascii_dec c d); [|discriminate].
    apply IH; [exact H | lia].
Qed.

Lemma no_start_within_intro sep_init l a rest :
  let sep := sep_init +:+ String l EmptyString in
  contains sep (a +:+ sep_init) = false ->
  no_start_within sep a (sep +:+ rest) = true.
Proof.
  intros sep. induction a as [|c a IH]; intros H; [reflexivity|].
  rewrite append_cons, contains_unfold in H.
  apply orb_false_iff in H as [Hstart Hrest].
  cbn [no_start_within]. rewrite (IH Hrest), andb_true_r.
  apply negb_true_iff. destruct (startswith sep (String c a +:+ sep +:+ rest)) eqn:E;
    [|reflexivity].
  rewrite <- Hstart. symmetry.
  apply (startswith_app_long sep (String c (a +:+ sep_init)) (String l EmptyString +:+ rest)).
  - rewrite <- E. f_equal. unfold sep.
    rewrite !append_cons, !append_assoc. reflexivity.
  - unfold sep. simpl. rewrite !length_append. simpl. lia.
Qed.

Lemma split_aux_skip sep x cur rest :
  split_aux sep (String.length x) cur (x +:+ rest) = split_aux sep 0 cur rest.
Proof.
  induction x as [|c x IH]; [reflexivity|].
  rewrite append_cons. simpl. exact IH.
Qed.

Lemma split_aux_unfold sep cur c s :
  split_aux sep 0 cur (String c s) =
  if startswith sep (String c s)
  then cur :: split_aux sep (String.length sep - 1) EmptyString s
  else split_aux sep 0 (cur +:+ String c EmptyString) s.
Proof. reflexivity. Qed.

Lemma split_aux_none sep cur s :
  contains sep s = false -> split_aux sep 0 cur s = [cur +:+ s].
Proof.
  revert cur. induction s as [|c s IH]; intros cur H.
  - simpl. rewrite append_empty_r. reflexivity.
  - rewrite contains_unfold in H. apply orb_false_iff in H as [Hstart Hrest].
    rewrite split_aux_unfold, Hstart, (IH _ Hrest), append_assoc. reflexivity.
Qed.

Lemma split_aux_first sep cur a rest :
  sep ≠ EmptyString ->
  no_start_within sep a (sep +:+ rest) = true ->
  split_aux sep 0 cur (a +:+ sep +:+ rest) = (cur +:+ a) :: split_aux sep 0 EmptyString rest.
Proof.
  intros Hsep. revert cur. induction a as [|c a IH]; intros cur H.
  - rewrite append_nil, append_empty_r.
    destruct sep as [|c0 sep']; [contradiction|].
    rewrite append_cons, split_aux_unfold.
    rewrite <- append_cons, startswith_app.
    replace (String.length (String c0 sep') - 1) with (String.length sep')
      by (simpl; lia).
    rewrite split_aux_skip. reflexivity.
  - cbn [no_start_within] in H. apply andb_true_iff in H as [Hstart Hrest].
    apply negb_true_iff in Hstart.
    rewrite append_cons, split_aux_unfold.
    rewrite <- append_cons, Hstart, (IH _ Hrest), append_assoc. reflexivity.
Qed.

(** A text with one occurrence of the separator is cut in two. *)
Lemma split_once_only sep_init l a b :
  let sep := sep_init +:+ String l EmptyString in
  contains sep (a +:+ sep_init) = false ->
  contains sep b = false ->
  split sep (a +:+ sep +:+ b) = [a; b].
Proof.
  intros sep Ha Hb. unfold split.
  rewrite split_aux_first.
  - rewrite (split_aux_none sep EmptyString b Hb). reflexivity.
  - unfold sep. destruct sep_init; discriminate.
  - apply no_start_within_intro, Ha.
Qed.

(** An occurrence at the end of [a] is an occurrence. *)
Lemma contains_app_l needle a b : contains needle (a +:+ needle +:+ b) = true.
Proof.
  induction a as [|c a IH].
  - rewrite append_nil, contains_unfold, startswith_app. reflexivity.
  - rewrite append_cons, contains_unfold, IH. apply orb_true_r.
Qed.

End PyStrFacts.

(** ** Conversation memory *)

Module MemoryFacts.
Import Memory.

Lemma get_conversation_history_stored w user_id :
  fst (get_conversation_history user_id w) = Ret (stored w user_id).
Proof.
  unfold get_conversation_history, stored.
  destruct (conversation_history w !! user_id); reflexivity.
Qed.

Lemma add_to_history_spec w user_id t :
  add_to_history user_id (role t) (content t) w =
  (Ret tt, World (<[user_id := appended (memory_limit w) (stored w user_id) t]>
                    (conversation_history w))
                 (memory_limit w) (calendar_log w)).
Proof.
  destruct t as [r c]. destruct w as [h l g].
  unfold add_to_history, appended, stored, mbind, M_bind, get_conversation_history,
    get_memory_limit, set_history.
  simpl. destruct (h !! user_id) as [old|] eqn:E; simpl.
  - reflexivity.
  - rewrite insert_insert_eq. reflexivity.
Qed.

Lemma stored_add_to_history w user_id t :
  stored (snd (add_to_history user_id (role t) (content t) w)) user_id =
  appended (memory_limit w) (stored w user_id) t.
Proof.
  rewrite add_to_history_spec. unfold stored. simpl.
  rewrite lookup_insert_eq. reflexivity.
Qed.

Lemma stored_add_to_history_other w user_id other t :
  user_id ≠ other ->
  stored (snd (add_to_history user_id (role t) (content t) w)) other = stored w other.
Proof.
  intros Hne. rewrite add_to_history_spec. unfold stored. simpl.
  rewrite lookup_insert_ne by exact Hne. reflexivity.
Qed.

Lemma memory_limit_add_to_history w user_id t :
  memory_limit (snd (add_to_history user_id (role t) (content t) w)) = memory_limit w.
Proof. rewrite add_to_history_spec. reflexivity. Qed.

Lemma length_recent limit all : length (recent limit all) = Nat.min limit (length all).
Proof. unfold recent. rewrite length_drop. lia. Qed.

(** One append keeps the entry equal to the recent part of all that was
    appended so far. *)
Lemma appended_recent limit all t :
  appended limit (recent limit all) t = recent limit (all ++ [t]).
Proof.
  unfold appended, recent.
  rewrite !length_app, length_drop. simpl.
  destruct (Nat.ltb_spec limit (length all - (length all - limit) + 1)) as [Hlt|Hge].
  - assert (Hle : limit <= length all) by lia.
    rewrite <- (drop_app_le all [t] (length all - limit)) by lia.
    rewrite drop_drop. f_equal. lia.
  - assert (Hlt : length all < limit) by lia.
    replace (length all - limit) with 0 by lia.
    replace (length all + 1 - limit) with 0 by lia.
    reflexivity.
Qed.

Lemma add_all_app user_id turns1 turns2 w :
  snd (add_all user_id (turns1 ++ turns2) w) =
  snd (add_all user_id turns2 (snd (add_all user_id turns1 w))).
Proof.
  revert w. induction turns1 as [|t turns1 IH]; intros w; [reflexivity|].
  simpl. unfold mbind, M_bind. rewrite add_to_history_spec. simpl.
  apply IH.
Qed.

Lemma memory_limit_add_all user_id turns w :
  memory_limit (snd (add_all user_id turns w)) = memory_limit w.
Proof.
  revert w. induction turns as [|t turns IH]; intros w; [reflexivity|].
  simpl. unfold mbind, M_bind. rewrite add_to_history_spec. simpl.
  rewrite IH. reflexivity.
Qed.

Lemma stored_add_all user_id turns w all :
  stored w user_id = recent (memory_limit w) all ->
  stored (snd (add_all user_id turns w)) user_id = recent (memory_limit w) (all ++ turns).
Proof.
  revert w all. induction turns as [|t turns IH]; intros w all Hw.
  - simpl. rewrite app_nil_r. exact Hw.
  - simpl. unfold mbind, M_bind.
    pose proof (stored_add_to_history w user_id t) as Hs.
    pose proof (memory_limit_add_to_history w user_id t) as Hm.
    destruct (add_to_history user_id (role t) (content t) w) as [[[]|e] w1] eqn:E;
      [|rewrite add_to_history_spec in E; discriminate].
    simpl in *.
    rewrite (IH w1 (all ++ [t])).
    + rewrite Hm, <- app_assoc. reflexivity.
    + rewrite Hs, Hm, Hw. apply appended_recent.
Qed.

Lemma stored_add_all_other user_id other turns w :
  user_id ≠ other ->
  stored (snd (add_all user_id turns w)) other = stored w other.
Proof.
  intros Hne. revert w. induction turns as [|t turns IH]; intros w; [reflexivity|].
  simpl. unfold mbind, M_bind. rewrite add_to_history_spec. simpl.
  rewrite IH. unfold stored. simpl. rewrite lookup_insert_ne by exact Hne. reflexivity.
Qed.

End MemoryFacts.

(** C3. For every user, after [memory_limit + k] single-turn appends that
    start from an empty history, reading the history of the user returns
    exactly the last [memory_limit] turns (the first [k] are evicted, the
    rest keep their order), and after every append the history holds at
    most [memory_limit] turns. *)
Theorem history_keeps_last_turns (w : world) (user_id : string)
    (turns : list turn) (k : nat) :
  Memory.stored w user_id = [] ->
  length turns = memory_limit w + k ->
  fst (get_conversation_history user_id (snd (Memory.add_all user_id turns w)))
    = Ret (drop k turns)
  /\ length (drop k turns) = memory_limit w
  /\ (forall n, length (Memory.stored (snd (Memory.add_all user_id (take n turns) w)) user_id)
                <= memory_limit w).
Proof.
  intros Hempty Hlen.
  assert (Hstart : Memory.stored w user_id = Memory.recent (memory_limit w) [])
    by (rewrite Hempty; reflexivity).
  split; [|split].
  - rewrite MemoryFacts.get_conversation_history_stored.
    rewrite (MemoryFacts.stored_add_all user_id turns w [] Hstart).
    simpl. unfold Memory.recent. do 2 f_equal. lia.
  - rewrite length_drop. lia.
  - intros n.
    rewrite (MemoryFacts.stored_add_all user_id (take n turns) w [] Hstart).
    simpl. rewrite MemoryFacts.length_recent. lia.
Qed.

Lemma history_keeps_last_turns_witness :
  fst (get_conversation_history "42"
         (snd (Memory.add_all "42" Memory.twelve_turns init_world)))
    = Ret (drop 2 Memory.twelve_turns)
  /\ length (drop 2 Memory.twelve_turns) = memory_limit init_world
  /\ (forall n, length (Memory.stored
                          (snd (Memory.add_all "42" (take n Memory.twelve_turns) init_world))
                          "42")
                <= memory_limit init_world).
Proof.
  apply (history_keeps_last_turns init_world "42" Memory.twelve_turns 2); reflexivity.
Defined.

(** ** Classification *)

Lemma run_dispatch sv user_id content :
  run sv user_id content = handle sv (classify content) user_id content.
Proof.
  unfold run, classify, handle.
  destruct (any_equal location_queries (lower content)); [reflexivity|].
  destruct (String.eqb (lower content) "forget" || String.eqb (lower content) "reset");
    [reflexivity|].
  destruct (any_in creation_phrases (lower content)); [reflexivity|].
  destruct (contains "postpone" (lower content)); [reflexivity|].
  destruct (contains "update location" (lower content)
            || contains "change location" (lower content)); [reflexivity|].
  destruct (contains "add attendee" (lower content) || contains "invite" (lower content));
    reflexivity.
Qed.

Lemma any_equal_sym queries s :
  any_equal queries s = existsb (String.eqb s) queries.
Proof.
  unfold any_equal. induction queries as [|q queries IH]; [reflexivity|].
  simpl. rewrite IH, (String.eqb_sym q s). reflexivity.
Qed.

Lemma classify_spec content : classify content = spec_classify content.
Proof.
  unfold classify, spec_classify, spec_rules, first_match.
  rewrite any_equal_sym. reflexivity.
Qed.

(** C2. Classification is a total function of the message into the seven
    intents; [run] takes the branch of the computed intent, and the intent is
    the one of the first matching rule of the ordered list of section 4.1
    (location phrases, then reset/forget, then the creation phrases, then
    postpone, then update/change location, then add attendee/invite), general
    chat when no rule matches. *)
Theorem classification_total_ordered (sv : services) (user_id content : string) :
  run sv user_id content = handle sv (classify content) user_id content
  /\ classify content = first_match spec_rules (lower content)
  /\ classify content ∈ all_intents
  /\ NoDup all_intents.
Proof.
  split; [apply run_dispatch|].
  split; [apply classify_spec|].
  split.
  - unfold all_intents. rewrite !elem_of_cons. destruct (classify content); tauto.
  - unfold all_intents.
    repeat (apply NoDup_cons; split;
            [rewrite ?elem_of_cons, elem_of_nil; intuition discriminate|]).
    apply NoDup_nil_2.
Qed.

(** ** Event resolution *)

Module Resolver.

Lemma summary_text_inv ev s :
  summary_text ev = Some s -> ev !! "summary" = Some (VStr s).
Proof.
  unfold summary_text. destruct (ev !! "summary") as [[]|]; congruence.
Qed.

Lemma find_target_event_hit name ev post :
  matches_up_to_case name ev = true ->
  find_target_event (ev :: post) name = Ret (Some ev).
Proof.
  unfold matches_up_to_case. destruct (summary_text ev) as [s|] eqn:E; [|discriminate].
  intros H. apply summary_text_inv in E.
  simpl. unfold dict_getitem. rewrite E. simpl. rewrite H. reflexivity.
Qed.

Lemma find_target_event_skip name pre rest :
  forallb (differs_up_to_case name) pre = true ->
  find_target_event (pre ++ rest) name = find_target_event rest name.
Proof.
  induction pre as [|ev pre IH]; [reflexivity|].
  simpl. intros H. apply andb_true_iff in H as [Hev Hpre].
  unfold differs_up_to_case in Hev.
  destruct (summary_text ev) as [s|] eqn:E; [|discriminate].
  apply summary_text_inv in E. unfold dict_getitem. rewrite E. simpl.
  apply negb_true_iff in Hev. rewrite Hev. apply IH, Hpre.
Qed.

Lemma strictly_within_differs name ev :
  strictly_within_summary name ev = true -> differs_up_to_case name ev = true.
Proof.
  unfold strictly_within_summary, differs_up_to_case.
  destruct (summary_text ev) as [s|]; [|discriminate].
  intros H. apply andb_true_iff in H as [Hin Hne].
  apply negb_true_iff in Hne. apply String.eqb_neq in Hne.
  apply negb_true_iff, String.eqb_neq.
  apply PyStrFacts.strict_substring_lower; assumption.
Qed.

Lemma find_target_event_none name events :
  forallb (differs_up_to_case name) events = true ->
  find_target_event events name = Ret None.
Proof.
  intros H. rewrite <- (app_nil_r events).
  rewrite (find_target_event_skip name events [] H). reflexivity.
Qed.

Lemma forallb_strictly_within_differs name events :
  forallb (strictly_within_summary name) events = true ->
  forallb (differs_up_to_case name) events = true.
Proof.
  rewrite !forallb_forall. intros H ev Hev. apply strictly_within_differs, H, Hev.
Qed.

End Resolver.

(** The search on a window in which the events that are read carry a text
    as summary.  The three name-based operations search the answer of the
    calendar to a request for the 10 next events ordered by start time.  The
    search returns the first event whose summary equals the name when case
    is ignored; and when the name is a strict substring of the summary of
    every event of the window, no event is found and the reply is
    "Could not find event '<name>'" (nothing is sent to the calendar). *)
Theorem event_resolution_exact (sv : services) (events : list event) (name : string) :
  sv_events_list sv (upcoming_request sv 10) = Ret events ->
  (maxResults (upcoming_request sv 10) = 10
   /\ orderBy (upcoming_request sv 10) = "startTime")
  /\ (forall pre ev post,
        events = pre ++ ev :: post ->
        forallb (differs_up_to_case name) pre = true ->
        matches_up_to_case name ev = true ->
        find_target_event events name = Ret (Some ev))
  /\ (forallb (strictly_within_summary name) events = true ->
        find_target_event events name = Ret None
        /\ (forall hours w,
              postpone_event sv name hours w
              = (Ret ("Could not find event '" +:+ name +:+ "'"), w))
        /\ (forall new_location w,
              update_event_location sv name new_location w
              = (Ret ("Could not find event '" +:+ name +:+ "'"), w))
        /\ (forall attendees w,
              update_event_attendees sv name attendees w
              = (Ret ("Could not find event '" +:+ name +:+ "'"), w))).
Proof.
  intros Hlist. split; [split; reflexivity|]. split.
  - intros pre ev post -> Hpre Hev.
    rewrite (Resolver.find_target_event_skip name pre (ev :: post) Hpre).
    apply Resolver.find_target_event_hit, Hev.
  - intros Hall.
    assert (Hnone : find_target_event events name = Ret None)
      by apply Resolver.find_target_event_none, Resolver.forallb_strictly_within_differs, Hall.
    split; [exact Hnone|].
    repeat split; intros; 
      unfold postpone_event, update_event_location, update_event_attendees,
        try_except, mbind, M_bind, lift, get_upcoming_events;
      rewrite Hlist, Hnone; reflexivity.
Qed.

Lemma event_resolution_exact_witness :
  find_target_event Demo.events "STANDUP" = Ret (Some Demo.standup)
  /\ find_target_event Demo.events "demo day" = Ret (Some Demo.demo_day)
  /\ postpone_event Demo.demos "Demo" 2 init_world
     = (Ret "Could not find event 'Demo'", init_world).
Proof.
  split; [|split].
  - apply (proj1 (proj2 (event_resolution_exact Demo.healthy Demo.events "STANDUP" eq_refl))
             [] Demo.standup [Demo.demo_day]); reflexivity.
  - apply (proj1 (proj2 (event_resolution_exact Demo.healthy Demo.events "demo day" eq_refl))
             [Demo.standup] Demo.demo_day []); reflexivity.
  - apply (proj2 (proj2 (event_resolution_exact Demo.demos Demo.demo_events "Demo" eq_refl)));
      reflexivity.
Defined.

(** C5, at a failing input: the window of upcoming events holds an event
    without a title, for which the calendar sends no 'summary', and after it
    the event "Standup".  The search reads [event['summary']] of each event
    in turn (lines 555, 602 and 630) and [KeyError] is raised at the
    untitled event: the messages that name the stand-up are answered with
    the failure text of their branch and nothing is sent to the calendar,
    although the window holds an event whose summary equals the name up to
    case; the search neither returns that event nor ends as not found.  On
    the window without the untitled event the same message moves the
    stand-up. *)
Theorem untitled_event_hides_match :
  sv_events_list Demo.untitled_first (upcoming_request Demo.untitled_first 10)
    = Ret [Demo.untitled; Demo.standup]
  /\ Demo.untitled !! "summary" = None
  /\ matches_up_to_case "standup" Demo.standup = true
  /\ classify "postpone Standup 2 hours" = Postpone
  /\ fst (run Demo.untitled_first "42" "postpone Standup 2 hours" init_world)
     = Ret "Failed to postpone event: 'summary'"
  /\ calendar_log (snd (run Demo.untitled_first "42" "postpone Standup 2 hours" init_world))
     = []
  /\ fst (run Demo.untitled_first "42" "update location of Standup to Room 5" init_world)
     = Ret "Failed to update event location: 'summary'"
  /\ fst (run Demo.untitled_first "42" "add attendee Standup to bob@example.com" init_world)
     = Ret "Failed to update event attendees: 'summary'"
  /\ sv_events_list Demo.healthy (upcoming_request Demo.healthy 10)
     = Ret [Demo.standup; Demo.demo_day]
  /\ fst (run Demo.healthy "42" "postpone Standup 2 hours" init_world)
     = Ret ("Event 'standup' postponed by 2 hours." +:+ nl
            +:+ "Event updated successfully: None")
  /\ exists body,
       calendar_log (snd (run Demo.healthy "42" "postpone Standup 2 hours" init_world))
       = [CalUpdate (VStr "ev1") body].
Proof.
  do 10 (split; [vm_compute; reflexivity|]).
  eexists. vm_compute. reflexivity.
Qed.

(** ** Postpone requests *)

Module PostponeFacts.

Lemma postpone_loop_cons words i word rest st :
  postpone_loop words i (word :: rest) st =
  (st' ← postpone_body words st i word; postpone_loop words (S i) rest st').
Proof. reflexivity. Qed.

Lemma postpone_loop_app words i rest1 rest2 st :
  postpone_loop words i (rest1 ++ rest2) st =
  (st' ← postpone_loop words i rest1 st;
   postpone_loop words (i + length rest1) rest2 st').
Proof.
  revert i st. induction rest1 as [|word rest1 IH]; intros i st.
  - cbn [app length postpone_loop mbind outcome_bind]. rewrite Nat.add_0_r. reflexivity.
  - change ((word :: rest1) ++ rest2) with (word :: (rest1 ++ rest2)).
    rewrite !postpone_loop_cons.
    destruct (postpone_body words st i word) as [st1|e]; [|reflexivity].
    cbn [mbind outcome_bind]. rewrite IH.
    replace (S i + length rest1) with (i + length (word :: rest1)) by (simpl; lia).
    reflexivity.
Qed.

(** Only the word 'postpone' changes the event name. *)
Lemma postpone_body_name words st i word st' :
  word ≠ "postpone" ->
  postpone_body words st i word = Ret st' -> fst st' = fst st.
Proof.
  intros Hne. unfold postpone_body. destruct st as [event_name hours].
  apply String.eqb_neq in Hne. rewrite Hne.
  destruct (String.eqb word "hour" || String.eqb word "hours");
    [|intros H; injection H as <-; reflexivity].
  destruct ((0 <? i) && isdigit (nth (i - 1) words EmptyString));
    [|intros H; injection H as <-; reflexivity].
  destruct (int (nth (i - 1) words EmptyString)) as [n|e]; [|discriminate].
  intros H. injection H as <-. reflexivity.
Qed.

Lemma postpone_loop_name words i rest st st' :
  "postpone" ∉ rest ->
  postpone_loop words i rest st = Ret st' -> fst st' = fst st.
Proof.
  revert i st. induction rest as [|word rest IH]; intros i st Hnot H.
  - injection H as <-. reflexivity.
  - rewrite postpone_loop_cons in H.
    destruct (postpone_body words st i word) as [st1|e] eqn:E; [|discriminate].
    cbn [mbind outcome_bind] in H.
    rewrite (IH (S i) st1) by (first [exact H | intros Hin; apply Hnot; right; exact Hin]).
    apply (postpone_body_name words st i word st1); [|exact E].
    intros ->. apply Hnot. left.
Qed.

(** Only the words 'hour' and 'hours' change the number of hours, and only
    they can make the loop raise. *)
Lemma postpone_body_hours words st i word :
  is_hour_word word = false ->
  exists st', postpone_body words st i word = Ret st' /\ snd st' = snd st.
Proof.
  intros Hne. unfold postpone_body, is_hour_word in *. destruct st as [event_name hours].
  rewrite Hne. destruct (String.eqb word "postpone"); [|eauto].
  destruct (i + 1 <? length words); eauto.
Qed.

Lemma postpone_loop_hours words i rest st st' :
  forallb (fun word => negb (is_hour_word word)) rest = true ->
  postpone_loop words i rest st = Ret st' -> snd st' = snd st.
Proof.
  revert i st. induction rest as [|word rest IH]; intros i st Hnot H.
  - injection H as <-. reflexivity.
  - simpl in Hnot. apply andb_true_iff in Hnot as [Hword Hrest].
    apply negb_true_iff in Hword.
    destruct (postpone_body_hours words st i word Hword) as (st1 & E & Hsnd).
    rewrite postpone_loop_cons, E in H. cbn [mbind outcome_bind] in H.
    rewrite (IH (S i) st1 Hrest H). exact Hsnd.
Qed.

Lemma nth_middle_app (pre post : list string) (x : string) :
  nth (length pre) (pre ++ x :: post) EmptyString = x.
Proof. induction pre as [|y pre IH]; [reflexivity | exact IH]. Qed.

(** The word after a last 'postpone' is the event name. *)
Lemma postpone_loop_event_name pre name post st' :
  "postpone" ∉ name :: post ->
  let words := pre ++ "postpone" :: name :: post in
  postpone_loop words 0 words (None, 1%Z) = Ret st' ->
  fst st' = Some name.
Proof.
  intros Hnot words. unfold words at 2.
  rewrite postpone_loop_app.
  destruct (postpone_loop words 0 pre (None, 1%Z)) as [[event_name hours]|e]; [|discriminate].
  cbn [mbind outcome_bind]. rewrite postpone_loop_cons.
  assert (Hbody : postpone_body words (event_name, hours) (0 + length pre) "postpone"
                  = Ret (Some name, hours)).
  { unfold postpone_body. simpl String.eqb.
    assert (Hlen : (length pre + 1 <? length words) = true).
    { apply Nat.ltb_lt. unfold words. rewrite length_app. simpl. lia. }
    cbn [Nat.add]. rewrite Hlen. do 3 f_equal.
    unfold words.
    replace (pre ++ "postpone" :: name :: post) with ((pre ++ ["postpone"]) ++ name :: post)
      by (rewrite <- app_assoc; reflexivity).
    replace (length pre + 1) with (length (pre ++ ["postpone"]))
      by (rewrite length_app; reflexivity).
    apply nth_middle_app. }
  rewrite Hbody. cbn [mbind outcome_bind]. intros H.
  rewrite (postpone_loop_name words _ (name :: post) _ st' Hnot H). reflexivity.
Qed.

(** A number before a last 'hour' or 'hours' is the number of hours. *)
Lemma postpone_loop_hour_count pre digits hour_word post n st' :
  isdigit digits = true ->
  int digits = Ret n ->
  is_hour_word hour_word = true ->
  forallb (fun word => negb (is_hour_word word)) post = true ->
  let words := pre ++ digits :: hour_word :: post in
  postpone_loop words 0 words (None, 1%Z) = Ret st' ->
  snd st' = n.
Proof.
  intros Hdigits Hint Hhour Hnot words. unfold words at 2.
  replace (pre ++ digits :: hour_word :: post) with ((pre ++ [digits]) ++ hour_word :: post)
    by (rewrite <- app_assoc; reflexivity).
  rewrite postpone_loop_app.
  destruct (postpone_loop words 0 (pre ++ [digits]) (None, 1%Z)) as [[event_name hours]|e];
    [|discriminate].
  cbn [mbind outcome_bind]. rewrite postpone_loop_cons.
  assert (Hbody : postpone_body words (event_name, hours) (0 + length (pre ++ [digits]))
                    hour_word = Ret (event_name, n)).
  { unfold postpone_body.
    assert (Hword : String.eqb hour_word "postpone" = false).
    { unfold is_hour_word in Hhour. apply orb_true_iff in Hhour as [H|H];
        apply String.eqb_eq in H; subst; reflexivity. }
    rewrite Hword. unfold is_hour_word in Hhour. rewrite Hhour.
    rewrite length_app. cbn [Nat.add length].
    replace (length pre + 1 - 1) with (length pre) by lia.
    unfold words. rewrite nth_middle_app, Hdigits, Hint.
    replace (0 <? length pre + 1) with true by (symmetry; apply Nat.ltb_lt; lia).
    reflexivity. }
  rewrite Hbody. cbn [mbind outcome_bind]. intros H.
  rewrite (postpone_loop_hours words _ post _ st' Hnot H). reflexivity.
Qed.

(** Without a number before 'hour' or 'hours' the number of hours is kept. *)
Lemma postpone_loop_no_count words :
  (forall i digits hour_word,
      words !! i = Some digits -> words !! S i = Some hour_word ->
      is_hour_word hour_word = true -> isdigit digits = false) ->
  forall rest i st st',
    drop i words = rest ->
    postpone_loop words i rest st = Ret st' -> snd st' = snd st.
Proof.
  intros Hno rest. induction rest as [|word rest IH]; intros i st st' Hdrop H.
  - injection H as <-. reflexivity.
  - assert (Hword : words !! i = Some word).
    { rewrite <- (Nat.add_0_r i), <- lookup_drop, Hdrop. reflexivity. }
    assert (Hrest : drop (S i) words = rest).
    { replace (S i) with (i + 1) by lia. rewrite <- drop_drop, Hdrop. reflexivity. }
    assert (Hbody : exists st1, postpone_body words st i word = Ret st1 /\ snd st1 = snd st).
    { destruct (is_hour_word word) eqn:Hhour; [|apply postpone_body_hours, Hhour].
      unfold postpone_body. destruct st as [event_name hours].
      destruct (String.eqb word "postpone"); [destruct (i + 1 <? length words); eauto|].
      unfold is_hour_word in Hhour. rewrite Hhour.
      destruct i as [|j]; [cbn [Nat.ltb Nat.leb andb]; eauto|].
      cbn [Nat.sub]. rewrite Nat.sub_0_r.
      destruct (words !! j) as [digits|] eqn:Hj.
      - rewrite (nth_lookup_Some _ _ _ _ Hj).
        rewrite (Hno j digits word Hj Hword); [rewrite andb_false_r; eauto|].
        unfold is_hour_word. exact Hhour.
      - apply lookup_ge_None in Hj. apply lookup_lt_Some in Hword. lia. }
    destruct Hbody as (st1 & E & Hsnd).
    rewrite postpone_loop_cons, E in H. cbn [mbind outcome_bind] in H.
    rewrite (IH (S i) st1 st' Hrest H). exact Hsnd.
Qed.

(** The loop ends with a result when every number before 'hour' or 'hours'
    can be converted. *)
Lemma postpone_loop_returns words :
  counts_readable words ->
  forall rest i st,
    drop i words = rest -> exists st', postpone_loop words i rest st = Ret st'.
Proof.
  intros Hok rest. induction rest as [|word rest IH]; intros i st Hdrop; [eexists; reflexivity|].
  assert (Hword : words !! i = Some word).
  { rewrite <- (Nat.add_0_r i), <- lookup_drop, Hdrop. reflexivity. }
  assert (Hrest : drop (S i) words = rest).
  { replace (S i) with (i + 1) by lia. rewrite <- drop_drop, Hdrop. reflexivity. }
  assert (Hbody : exists st1, postpone_body words st i word = Ret st1).
  { unfold postpone_body. destruct st as [event_name hours].
    destruct (String.eqb word "postpone"); [destruct (i + 1 <? length words); eauto|].
    destruct (String.eqb word "hour" || String.eqb word "hours") eqn:Hhour; [|eauto].
    destruct i as [|j]; [cbn [Nat.ltb Nat.leb andb]; eauto|].
    cbn [Nat.sub]. rewrite Nat.sub_0_r.
    destruct (words !! j) as [digits|] eqn:Hj.
    - rewrite (nth_lookup_Some _ _ _ _ Hj).
      destruct (isdigit digits) eqn:Hdigits; [|rewrite andb_false_r; eauto].
      destruct (Hok j digits word Hj Hword Hhour Hdigits) as [n Hn].
      rewrite Hn. cbn [Nat.ltb Nat.leb andb mbind outcome_bind]. eauto.
    - apply lookup_ge_None in Hj. apply lookup_lt_Some in Hword. lia. }
  destruct Hbody as [st1 E].
  rewrite postpone_loop_cons, E. cbn [mbind outcome_bind]. apply IH, Hrest.
Qed.

(** A superscript two is a digit for [isdigit] and no number for [int]: the
    branch replies with the text of the [ValueError] and sends nothing.  A
    digit of another script counts. *)
Lemma other_digits_before_hours :
  run_postpone Demo.healthy (lower "postpone standup ² hours") init_world
  = (Ret "Failed to postpone event: invalid literal for int() with base 10: '²'", init_world)
  /\ postpone_command "postpone standup ٣ hours" = Ret (Some "standup", 3%Z)
  /\ postpone_command "postpone standup ２ hours" = Ret (Some "standup", 2%Z).
Proof. repeat split; vm_compute; reflexivity. Qed.

End PostponeFacts.

(** C6, the claim as stated fails: the words are taken from the message in
    lower case, so the event name of "postpone Demo 2 hours" is "demo".  And
    a word of digits before 'hours' need not give a number of hours: the
    superscript two is a digit for [isdigit], [int] raises on it and nothing
    is extracted. *)
Lemma postpone_extraction_counterexample :
  postpone_command "postpone Demo 2 hours" ≠ Ret (Some "Demo", 2%Z)
  /\ postpone_command "postpone Demo" ≠ Ret (Some "Demo", 1%Z)
  /\ isdigit "²" = true
  /\ postpone_command "postpone Demo ² hours"
     = Raise "invalid literal for int() with base 10: '²'".
Proof.
  split; [vm_compute; discriminate|].
  split; [vm_compute; discriminate|].
  split; vm_compute; reflexivity.
Qed.

(** C6, amended.  The extraction is a function of the message alone (no
    service is consulted) and works on the words of the message in lower
    case.  When every word of digits before 'hour' or 'hours' is a decimal
    number that [int] converts, the extraction gives an event name and a
    number of hours: the word after 'postpone' is the event name, the number
    written by the word of digits before 'hour' or 'hours' is the number of
    hours, and the number of hours is 1 when no such word of digits exists.
    "postpone Demo 2 hours" gives the event name "demo" and 2 hours,
    "postpone Demo" gives "demo" and 1 hour. *)
Theorem postpone_extraction_lower_case (content : string) (words : list string) :
  words = split_ws (lower content) ->
  counts_readable words ->
  (exists event_name hours,
      postpone_command content = Ret (event_name, hours)
      /\ (forall pre name post,
            words = pre ++ "postpone" :: name :: post ->
            "postpone" ∉ name :: post ->
            event_name = Some name)
      /\ (forall pre digits hour_word post n,
            words = pre ++ digits :: hour_word :: post ->
            isdigit digits = true ->
            int digits = Ret n ->
            is_hour_word hour_word = true ->
            forallb (fun word => negb (is_hour_word word)) post = true ->
            hours = n)
      /\ ((forall i digits hour_word,
              words !! i = Some digits -> words !! S i = Some hour_word ->
              is_hour_word hour_word = true -> isdigit digits = false) ->
          hours = 1%Z))
  /\ postpone_command "postpone Demo 2 hours" = Ret (Some "demo", 2%Z)
  /\ postpone_command "postpone Demo" = Ret (Some "demo", 1%Z).
Proof.
  intros Hwords Hok. split; [|split; vm_compute; reflexivity].
  unfold postpone_command, extract_postpone. rewrite <- Hwords.
  destruct (PostponeFacts.postpone_loop_returns words Hok words 0 (None, 1%Z) eq_refl)
    as [[event_name hours] Hrun].
  exists event_name, hours. split; [exact Hrun|]. split; [|split].
  - intros pre name post Hdec Hnot. subst words. rewrite Hdec in Hrun.
    apply (PostponeFacts.postpone_loop_event_name pre name post (event_name, hours) Hnot Hrun).
  - intros pre digits hour_word post n Hdec Hdigits Hint Hhour Hnot.
    subst words. rewrite Hdec in Hrun.
    apply (PostponeFacts.postpone_loop_hour_count pre digits hour_word post n
             (event_name, hours) Hdigits Hint Hhour Hnot Hrun).
  - intros Hno.
    apply (PostponeFacts.postpone_loop_no_count words Hno words 0 (None, 1%Z)
             (event_name, hours) eq_refl Hrun).
Qed.

Lemma postpone_extraction_lower_case_witness :
  counts_readable ["please"; "postpone"; "standup"; "by"; "3"; "hours"]
  /\ postpone_command "Please POSTPONE Standup by 3 hours" = Ret (Some "standup", 3%Z).
Proof.
  assert (Hok : counts_readable ["please"; "postpone"; "standup"; "by"; "3"; "hours"]).
  { intros i digits hour_word Hi HSi Hhour Hdigits.
    do 6 (destruct i as [|i]; [simpl in Hi, HSi; inversion Hi; inversion HSi; subst;
                               first [discriminate Hhour | eexists; vm_compute; reflexivity]|]).
    discriminate Hi. }
  split; [exact Hok|].
  destruct (proj1 (postpone_extraction_lower_case "Please POSTPONE Standup by 3 hours"
                     ["please"; "postpone"; "standup"; "by"; "3"; "hours"] eq_refl Hok))
    as (event_name & hours & Hcommand & Hname & Hhours & _).
  rewrite Hcommand.
  rewrite (Hname ["please"] "standup" ["by"; "3"; "hours"] eq_refl)
    by (rewrite !elem_of_cons, elem_of_nil; intuition discriminate).
  rewrite (Hhours ["please"; "postpone"; "standup"; "by"] "3" "hours" [] 3%Z
             eq_refl eq_refl eq_refl eq_refl eq_refl).
  reflexivity.
Defined.

(** ** Location updates *)

Module LocationFacts.

Lemma location_parts_update pre rest :
  contains "update location of" (pre +:+ "update location o") = false ->
  contains "update location of" rest = false ->
  location_parts (pre +:+ "update location of" +:+ rest) = Some rest.
Proof.
  intros Hpre Hrest. unfold location_parts.
  rewrite PyStrFacts.contains_app_l.
  pose proof (PyStrFacts.split_once_only "update location o" "f" pre rest Hpre Hrest) as Hsplit.
  cbv zeta in Hsplit. change ("update location o" +:+ "f") with "update location of" in Hsplit.
  rewrite Hsplit.
  reflexivity.
Qed.

Lemma location_parts_change pre rest :
  contains "update location of" (pre +:+ "change location of" +:+ rest) = false ->
  contains "change location of" (pre +:+ "change location o") = false ->
  contains "change location of" rest = false ->
  location_parts (pre +:+ "change location of" +:+ rest) = Some rest.
Proof.
  intros Hupdate Hpre Hrest. unfold location_parts.
  rewrite Hupdate, PyStrFacts.contains_app_l.
  pose proof (PyStrFacts.split_once_only "change location o" "f" pre rest Hpre Hrest) as Hsplit.
  cbv zeta in Hsplit. change ("change location o" +:+ "f") with "change location of" in Hsplit.
  rewrite Hsplit.
  reflexivity.
Qed.

Lemma extract_to msg_lower a b :
  location_parts msg_lower = Some (a +:+ " to " +:+ b) ->
  contains " to " (a +:+ " to") = false ->
  contains " to " b = false ->
  extract_update_location msg_lower = Ret (inr (strip a, strip b)).
Proof.
  intros Hparts Ha Hb. unfold extract_update_location. rewrite Hparts.
  rewrite PyStrFacts.contains_app_l.
  pose proof (PyStrFacts.split_once_only " to" " " a b Ha Hb) as Hsplit.
  cbv zeta in Hsplit. change (" to" +:+ " ") with " to " in Hsplit.
  rewrite Hsplit. reflexivity.
Qed.

Lemma extract_at msg_lower a b :
  location_parts msg_lower = Some (a +:+ " at " +:+ b) ->
  contains " to " (a +:+ " at " +:+ b) = false ->
  contains " at " (a +:+ " at") = false ->
  contains " at " b = false ->
  extract_update_location msg_lower = Ret (inr (strip a, strip b)).
Proof.
  intros Hparts Hto Ha Hb. unfold extract_update_location. rewrite Hparts, Hto.
  rewrite PyStrFacts.contains_app_l.
  pose proof (PyStrFacts.split_once_only " at" " " a b Ha Hb) as Hsplit.
  cbv zeta in Hsplit. change (" at" +:+ " ") with " at " in Hsplit.
  rewrite Hsplit. reflexivity.
Qed.

(** A reply of the extraction is the reply of the branch. *)
Lemma run_update_location_reply sv msg_lower reply w :
  extract_update_location msg_lower = Ret (inl reply) ->
  run_update_location sv msg_lower w = (Ret reply, w).
Proof.
  intros H. unfold run_update_location, try_except, mbind, M_bind, lift.
  rewrite H. reflexivity.
Qed.

(** With two connectors the unpacking of the pieces raises, and the branch
    replies with the text of the exception. *)
Lemma several_connectors_fail :
  run_update_location Demo.healthy "update location of trip to paris to london" init_world
  = (Ret "Failed to update event location: too many values to unpack (expected 2)",
     World (conversation_history init_world) (memory_limit init_world) []).
Proof. vm_compute. reflexivity. Qed.

End LocationFacts.

(** The text is cut out of the message in lower case, so the new location of
    "update location of standup to Room 5" is "room 5". *)
Lemma update_location_extraction_counterexample :
  update_location_command "update location of standup to Room 5"
  ≠ Ret (inr ("standup", "Room 5")).
Proof. vm_compute. discriminate. Qed.

(** The extraction on a message with one connector.  It works on the
    message in lower case and takes the text after the phrase
    "update location of", else after "change location of"; without such a
    phrase the reply is a usage hint.
    When that text holds the connector " to " once, or holds no " to " and
    holds " at " once, the event name and the new location are the trimmed
    texts before and after the connector; without a connector the reply is
    a usage hint.  "update location of standup to Room 5" gives the event
    name "standup" and the new location "room 5". *)
Theorem update_location_extraction_lower_case (sv : services) (content m : string) :
  m = lower content ->
  (contains "update location of" m = false ->
   contains "change location of" m = false ->
   update_location_command content = Ret (inl USAGE_FORMAT)
   /\ forall w, run_update_location sv m w = (Ret USAGE_FORMAT, w))
  /\ (forall pre rest,
        m = pre +:+ "update location of" +:+ rest ->
        contains "update location of" (pre +:+ "update location o") = false ->
        contains "update location of" rest = false ->
        location_parts m = Some rest)
  /\ (forall pre rest,
        m = pre +:+ "change location of" +:+ rest ->
        contains "update location of" m = false ->
        contains "change location of" (pre +:+ "change location o") = false ->
        contains "change location of" rest = false ->
        location_parts m = Some rest)
  /\ (forall parts,
        location_parts m = Some parts ->
        contains " to " parts = false ->
        contains " at " parts = false ->
        update_location_command content = Ret (inl USAGE_CONNECTOR)
        /\ forall w, run_update_location sv m w = (Ret USAGE_CONNECTOR, w))
  /\ (forall a b,
        location_parts m = Some (a +:+ " to " +:+ b) ->
        contains " to " (a +:+ " to") = false ->
        contains " to " b = false ->
        update_location_command content = Ret (inr (strip a, strip b)))
  /\ (forall a b,
        location_parts m = Some (a +:+ " at " +:+ b) ->
        contains " to " (a +:+ " at " +:+ b) = false ->
        contains " at " (a +:+ " at") = false ->
        contains " at " b = false ->
        update_location_command content = Ret (inr (strip a, strip b)))
  /\ update_location_command "update location of standup to Room 5"
     = Ret (inr ("standup", "room 5")).
Proof.
  intros ->. unfold update_location_command.
  split; [|split; [|split; [|split; [|split; [|split; [|reflexivity]]]]]].
  - intros Hupdate Hchange.
    assert (H : extract_update_location (lower content) = Ret (inl USAGE_FORMAT)).
    { unfold extract_update_location, location_parts. rewrite Hupdate, Hchange. reflexivity. }
    split; [exact H|]. intros w. apply LocationFacts.run_update_location_reply, H.
  - intros pre rest -> Hpre Hrest. apply LocationFacts.location_parts_update; assumption.
  - intros pre rest Hm Hupdate Hpre Hrest. rewrite Hm in *.
    apply LocationFacts.location_parts_change; assumption.
  - intros parts Hparts Hto Hat.
    assert (H : extract_update_location (lower content) = Ret (inl USAGE_CONNECTOR)).
    { unfold extract_update_location. rewrite Hparts, Hto, Hat. reflexivity. }
    split; [exact H|]. intros w. apply LocationFacts.run_update_location_reply, H.
  - intros a b. apply LocationFacts.extract_to.
  - intros a b. apply LocationFacts.extract_at.
Qed.

Lemma update_location_extraction_lower_case_witness :
  run_update_location Demo.healthy "update location" init_world
    = (Ret USAGE_FORMAT, init_world)
  /\ location_parts "please change location of demo day at room 2" = Some " demo day at room 2"
  /\ run_update_location Demo.healthy "update location of standup" init_world
     = (Ret USAGE_CONNECTOR, init_world)
  /\ update_location_command "Update location of Standup to Room 5, 2nd floor"
     = Ret (inr ("standup", "room 5, 2nd floor"))
  /\ update_location_command "Please change location of Demo day at Room 2"
     = Ret (inr ("demo day", "room 2")).
Proof.
  split; [|split; [|split; [|split]]].
  - apply (proj1 (update_location_extraction_lower_case Demo.healthy
                    "Update Location" "update location" eq_refl)); reflexivity.
  - apply (proj1 (proj2 (proj2 (update_location_extraction_lower_case Demo.healthy
                    "Please change location of Demo day at Room 2"
                    "please change location of demo day at room 2" eq_refl)))
             "please " " demo day at room 2"); reflexivity.
  - apply (proj1 (proj2 (proj2 (proj2 (update_location_extraction_lower_case Demo.healthy
                    "update location of standup" "update location of standup" eq_refl))))
             " standup"); reflexivity.
  - apply (proj1 (proj2 (proj2 (proj2 (proj2 (update_location_extraction_lower_case Demo.healthy
                    "Update location of Standup to Room 5, 2nd floor"
                    "update location of standup to room 5, 2nd floor" eq_refl)))))
             " standup" "room 5, 2nd floor"); reflexivity.
  - apply (proj1 (proj2 (proj2 (proj2 (proj2 (proj2 (update_location_extraction_lower_case
                    Demo.healthy
                    "Please change location of Demo day at Room 2"
                    "please change location of demo day at room 2" eq_refl))))))
             " demo day" "room 2"); reflexivity.
Defined.

(** C7, at two failing inputs.  The texts are cut out of the message in
    lower case (line 390 tests and lines 394 to 396 split [msg_lower]), so
    for "update location of standup to Room 5" the new location is "room 5"
    and not "Room 5": the calendar is sent the location "room 5" and the
    reply names it.  And the remainder is split at every connector and
    unpacked into two names (lines 400 to 403): with a second connector in
    it, as in "update location of standup to Room 5 next to the lobby", the
    unpacking raises [ValueError] and the reply is the failure text of the
    branch, where the first connector from the left would give the event
    name "standup" and the new location "Room 5 next to the lobby"; nothing
    is sent to the calendar. *)
Theorem update_location_loses_case_and_connectors :
  classify "update location of standup to Room 5" = UpdateLocation
  /\ update_location_command "update location of standup to Room 5"
     = Ret (inr ("standup", "room 5"))
  /\ update_location_command "update location of standup to Room 5"
     ≠ Ret (inr ("standup", "Room 5"))
  /\ calendar_log
       (snd (run Demo.healthy "42" "update location of standup to Room 5" init_world))
     = [CalUpdate (VStr "ev1") (<["location" := VStr "room 5"]> Demo.standup)]
  /\ fst (run Demo.healthy "42" "update location of standup to Room 5" init_world)
     = Ret ("Updated location for 'standup' to: room 5" +:+ nl
            +:+ "Event updated successfully: None")
  /\ classify "update location of standup to Room 5 next to the lobby" = UpdateLocation
  /\ split_once " to " " standup to room 5 next to the lobby"
     = Some (" standup", "room 5 next to the lobby")
  /\ update_location_command "update location of standup to Room 5 next to the lobby"
     = Raise "too many values to unpack (expected 2)"
  /\ fst (run Demo.healthy "42" "update location of standup to Room 5 next to the lobby"
            init_world)
     = Ret "Failed to update event location: too many values to unpack (expected 2)"
  /\ calendar_log
       (snd (run Demo.healthy "42" "update location of standup to Room 5 next to the lobby"
               init_world))
     = [].
Proof.
  do 2 (split; [vm_compute; reflexivity|]).
  split; [vm_compute; discriminate|].
  repeat split; vm_compute; reflexivity.
Qed.

(** ** Merging changes into an event *)

Module MergeFacts.

Lemma apply_change_merged ev key v :
  mergeable ev (key, v) = true ->
  apply_change ev (key, v) = Ret (<[key := merged ev key v]> ev).
Proof.
  unfold mergeable, apply_change, merged.
  destruct v as [| | | | |d]; try reflexivity.
  destruct (ev !! key) as [[| | | | |old]|]; try discriminate; intros _.
  - reflexivity.
  - rewrite (right_id_L ∅ (∪) d). reflexivity.
Qed.

Lemma mergeable_insert_ne ev key x change :
  change.1 ≠ key -> mergeable (<[key := x]> ev) change = mergeable ev change.
Proof.
  destruct change as [k v]. simpl. intros Hne. unfold mergeable.
  rewrite lookup_insert_ne by congruence. reflexivity.
Qed.

Lemma merged_insert_ne ev key x k v :
  k ≠ key -> merged (<[key := x]> ev) k v = merged ev k v.
Proof.
  intros Hne. unfold merged. rewrite lookup_insert_ne by congruence. reflexivity.
Qed.

Lemma apply_changes_spec changes : forall ev,
  NoDup (changes.*1) ->
  forallb (mergeable ev) changes = true ->
  exists body,
    apply_changes ev changes = Ret body
    /\ (forall key, key ∉ changes.*1 -> body !! key = ev !! key)
    /\ (forall key v, (key, v) ∈ changes -> body !! key = Some (merged ev key v)).
Proof.
  induction changes as [|[k v] rest IH]; intros ev Hdup Hall.
  - exists ev. split; [reflexivity|]. split; [reflexivity|].
    intros key x Hin. apply elem_of_nil in Hin. contradiction.
  - simpl in Hdup. apply NoDup_cons in Hdup as [Hk Hdup].
    simpl in Hall. apply andb_true_iff in Hall as [Hkv Hall].
    assert (Hne : forall change, change ∈ rest -> change.1 ≠ k).
    { intros change Hin Heq. subst k. apply Hk, list_elem_of_fmap. exists change. auto. }
    destruct (IH (<[k := merged ev k v]> ev) Hdup) as (body & Hbody & Hframe & Hmerged).
    { rewrite forallb_forall in Hall |- *. intros change Hin.
      rewrite mergeable_insert_ne; [apply Hall, Hin|].
      apply Hne, list_elem_of_In, Hin. }
    exists body. split; [|split].
    + cbn [apply_changes]. rewrite (apply_change_merged ev k v Hkv). exact Hbody.
    + intros key Hkey. simpl in Hkey. apply not_elem_of_cons in Hkey as [Hkey Hrest].
      rewrite (Hframe key Hrest). apply lookup_insert_ne. congruence.
    + intros key x Hin. apply elem_of_cons in Hin as [Heq|Hin].
      * inversion Heq; subst. rewrite (Hframe k Hk). apply lookup_insert_eq.
      * rewrite (Hmerged key x Hin). f_equal. apply merged_insert_ne.
        apply (Hne (key, x) Hin).
Qed.

(** The request that [modify_event] sends. *)
Lemma modify_event_log sv event_id changes ev body w :
  sv_events_get sv event_id = Ret ev ->
  apply_changes ev changes = Ret body ->
  calendar_log (snd (modify_event sv event_id changes w))
  = calendar_log w ++ [CalUpdate event_id body].
Proof.
  intros Hget Happly.
  unfold modify_event, try_except, mbind, M_bind, lift, log_request.
  rewrite Hget, Happly.
  destruct (sv_events_update sv event_id body); reflexivity.
Qed.

(** When a change cannot be merged, nothing is sent and the reply tells the
    failure. *)
Lemma modify_event_not_merged sv event_id changes ev e w :
  sv_events_get sv event_id = Ret ev ->
  apply_changes ev changes = Raise e ->
  modify_event sv event_id changes w = (Ret ("Failed to modify event: " +:+ e), w).
Proof.
  intros Hget Happly.
  unfold modify_event, try_except, mbind, M_bind, lift.
  rewrite Hget, Happly. reflexivity.
Qed.

End MergeFacts.

(** C8.  [modify_event] reads the stored event and sends it back with the
    changes merged into it: a key that the changes do not name keeps the
    value of the stored event; for a change that is a nested object, the
    nested object of the stored event is kept and the keys of the change are
    written into it (its other keys are preserved); any other change
    replaces the value of its key. *)
Theorem modify_event_merges (sv : services) (event_id : value)
    (changes : list (string * value)) (ev : event) (w : world) :
  sv_events_get sv event_id = Ret ev ->
  NoDup (changes.*1) ->
  forallb (mergeable ev) changes = true ->
  exists body,
    calendar_log (snd (modify_event sv event_id changes w))
    = calendar_log w ++ [CalUpdate event_id body]
    /\ (forall key, key ∉ changes.*1 -> body !! key = ev !! key)
    /\ (forall key d old,
          (key, VDict d) ∈ changes -> ev !! key = Some (VDict old) ->
          exists nested,
            body !! key = Some (VDict nested)
            /\ (forall k, d !! k = None -> nested !! k = old !! k)
            /\ (forall k x, d !! k = Some x -> nested !! k = Some x))
    /\ (forall key v,
          (key, v) ∈ changes -> is_dict v = false -> body !! key = Some v).
Proof.
  intros Hget Hdup Hall.
  destruct (MergeFacts.apply_changes_spec changes ev Hdup Hall)
    as (body & Hbody & Hframe & Hmerged).
  exists body. split; [|split; [|split]].
  - apply (MergeFacts.modify_event_log sv event_id changes ev body w Hget Hbody).
  - exact Hframe.
  - intros key d old Hin Hold. exists (d ∪ old). split; [|split].
    + rewrite (Hmerged key (VDict d) Hin). unfold merged. rewrite Hold. reflexivity.
    + intros k Hk. apply lookup_union_r, Hk.
    + intros k x Hk. apply lookup_union_Some_l, Hk.
  - intros key v Hin Hv. rewrite (Hmerged key v Hin).
    destruct v; try reflexivity. discriminate Hv.
Qed.

Lemma modify_event_merges_witness :
  exists body,
    calendar_log (snd (modify_event Demo.healthy (VStr "ev1") Demo.changes init_world))
    = [CalUpdate (VStr "ev1") body]
    /\ body !! "summary" = Some (VStr "Standup")
    /\ body !! "location" = Some (VStr "Room 5")
    /\ exists nested,
         body !! "start" = Some (VDict nested)
         /\ nested !! "dateTime" = Some (VStr "9000")
         /\ nested !! "timeZone" = Some (VStr "America/New_York").
Proof.
  destruct (modify_event_merges Demo.healthy (VStr "ev1") Demo.changes Demo.standup init_world)
    as (body & Hlog & Hframe & Hnested & Hother).
  - reflexivity.
  - repeat (apply NoDup_cons; split;
            [rewrite ?elem_of_cons, elem_of_nil; intuition discriminate|]).
    apply NoDup_nil_2.
  - reflexivity.
  - exists body. split; [exact Hlog|]. split; [|split].
    + rewrite Hframe; [reflexivity|].
      unfold Demo.changes. simpl. rewrite !elem_of_cons, elem_of_nil. intuition discriminate.
    + apply Hother; [|reflexivity].
      unfold Demo.changes. rewrite !elem_of_cons. right. left. reflexivity.
    + destruct (Hnested "start"
                  (<["dateTime" := VStr "9000"]> (<["timeZone" := VStr "America/New_York"]> ∅))
                  (<["dateTime" := VStr "1000"]> (<["timeZone" := VStr "America/New_York"]> ∅)))
        as (nested & Hbody & Hkeep & Hset).
      * unfold Demo.changes. rewrite !elem_of_cons. left. reflexivity.
      * reflexivity.
      * exists nested. split; [exact Hbody|]. split.
        -- apply Hset. reflexivity.
        -- apply Hset. reflexivity.
Defined.

(** ** Attendees *)

Module AttendeeFacts.

Lemma truthy_nonempty (ev : event) key v : ev !! key = Some v -> truthy (VDict ev) = true.
Proof.
  intros H. unfold truthy. apply negb_true_iff, bool_decide_eq_false.
  intros Hsize. apply map_size_empty_iff in Hsize. subst ev.
  rewrite lookup_empty in H. discriminate.
Qed.

Lemma modify_event_returns sv event_id changes w :
  exists reply, fst (modify_event sv event_id changes w) = Ret reply.
Proof.
  unfold modify_event, try_except, mbind, M_bind, lift, log_request.
  destruct (sv_events_get sv event_id) as [ev|e]; [|eexists; reflexivity].
  destruct (apply_changes ev changes) as [body|e]; [|eexists; reflexivity].
  destruct (sv_events_update sv event_id body); eexists; reflexivity.
Qed.

Lemma elem_of_new_attendees emails requested x :
  x ∈ new_attendees emails requested <->
  exists email, x = attendee_of email /\ email ∈ requested /\ email_in emails email = false.
Proof.
  unfold new_attendees. rewrite list_elem_of_fmap. split.
  - intros (email & -> & Hin). apply list_elem_of_filter in Hin as [Hnot Hin]. eauto.
  - intros (email & -> & Hin & Hnot). exists email. split; [reflexivity|].
    apply list_elem_of_filter. auto.
Qed.

Lemma attendee_of_inj a b : attendee_of a = attendee_of b -> a = b.
Proof.
  intros H.
  pose (email_of := fun v => match v with VDict d => d !! "email" | _ => None end).
  assert (Ha : email_of (attendee_of a) = Some (VStr a)) by apply lookup_insert_eq.
  assert (Hb : email_of (attendee_of b) = Some (VStr b)) by apply lookup_insert_eq.
  rewrite H in Ha. congruence.
Qed.

Lemma existing_emails_app l1 l2 e1 e2 :
  existing_emails l1 = Ret e1 -> existing_emails l2 = Ret e2 ->
  existing_emails (l1 ++ l2) = Ret (e1 ++ e2).
Proof.
  revert e1. induction l1 as [|att l1 IH]; intros e1 H1 H2.
  - injection H1 as <-. exact H2.
  - simpl in *. destruct (getitem att "email") as [email|]; [|discriminate].
    simpl in *. destruct (hashable email) as [email'|]; [|discriminate].
    simpl in *. destruct (existing_emails l1) as [emails|]; [|discriminate].
    simpl in *. injection H1 as <-.
    rewrite (IH emails eq_refl H2). reflexivity.
Qed.

Lemma getitem_attendee_of email :
  getitem (attendee_of email) "email" = Ret (VStr email).
Proof.
  unfold attendee_of.
  change (dict_getitem (<["email" := VStr email]> ∅) "email" = Ret (VStr email)).
  unfold dict_getitem. rewrite lookup_insert_eq. reflexivity.
Qed.

Lemma existing_emails_cons att rest :
  existing_emails (att :: rest) =
  (email ← getitem att "email";
   email ← hashable email;
   emails ← existing_emails rest;
   mret (email :: emails)).
Proof. reflexivity. Qed.

Lemma existing_emails_attendee_of emails :
  existing_emails (attendee_of <$> emails) = Ret (VStr <$> emails).
Proof.
  induction emails as [|email emails IH]; [reflexivity|].
  rewrite fmap_cons, existing_emails_cons, getitem_attendee_of.
  unfold mbind, outcome_bind, hashable. rewrite IH. reflexivity.
Qed.

Lemma email_in_app emails1 emails2 email :
  email_in (emails1 ++ emails2) email = email_in emails1 email || email_in emails2 email.
Proof. unfold email_in. apply existsb_app. Qed.

Lemma email_in_strings (emails : list string) email :
  email ∈ emails -> email_in (VStr <$> emails) email = true.
Proof.
  intros Hin. unfold email_in. apply existsb_exists. exists (VStr email). split.
  - apply list_elem_of_In, list_elem_of_fmap. eauto.
  - simpl. apply String.eqb_refl.
Qed.

(** Nothing is added when every requested address is present. *)
Lemma new_attendees_all_present emails requested :
  (forall email, email ∈ requested -> email_in emails email = true) ->
  new_attendees emails requested = [].
Proof.
  intros H. unfold new_attendees.
  induction requested as [|email requested IH]; [reflexivity|].
  rewrite filter_cons. destruct (decide (email_in emails email = false)) as [Hf|_].
  - rewrite H in Hf by left. discriminate.
  - apply IH. intros e He. apply H. right. exact He.
Qed.

Lemma all_attendees_spec target requested existing emails :
  dict_get target "attendees" (VList []) = VList existing ->
  existing_emails existing = Ret emails ->
  all_attendees target requested = Ret (existing ++ new_attendees emails requested).
Proof.
  intros Hget Hemails. unfold all_attendees. rewrite Hget. simpl.
  rewrite Hemails. reflexivity.
Qed.

(** Adding the same addresses to the updated list adds nothing. *)
Lemma all_attendees_again target requested existing emails :
  existing_emails existing = Ret emails ->
  all_attendees (<["attendees" := VList (existing ++ new_attendees emails requested)]> target)
    requested
  = Ret (existing ++ new_attendees emails requested).
Proof.
  intros Hemails.
  set (added := filter (fun email => email_in emails email = false) requested).
  assert (Hnew : new_attendees emails requested = attendee_of <$> added) by reflexivity.
  rewrite (all_attendees_spec _ requested (existing ++ new_attendees emails requested)
             (emails ++ (VStr <$> added))).
  - rewrite (new_attendees_all_present (emails ++ (VStr <$> added)) requested);
      [rewrite app_nil_r; reflexivity|].
    intros email Hin. rewrite email_in_app.
    destruct (email_in emails email) eqn:E; [reflexivity|].
    apply email_in_strings, list_elem_of_filter. auto.
  - unfold dict_get. rewrite lookup_insert_eq. reflexivity.
  - rewrite Hnew. apply existing_emails_app; [exact Hemails|].
    apply existing_emails_attendee_of.
Qed.

End AttendeeFacts.

(** C9.  When [update_event_attendees] finds the event, the attendee list
    that it sends to the calendar is the list of the existing attendees
    followed by one entry for each requested address that no existing
    attendee has: an address that is present already gets no second entry,
    and adding the same addresses to the list that was sent adds nothing. *)
Theorem attendees_added_once (sv : services) (name : string) (requested : list string)
    (w : world) (events : list event) (target : event) (existing emails : list value)
    (event_id : value) (fetched : event) :
  sv_events_list sv (upcoming_request sv 10) = Ret events ->
  find_target_event events name = Ret (Some target) ->
  dict_get target "attendees" (VList []) = VList existing ->
  existing_emails existing = Ret emails ->
  target !! "id" = Some event_id ->
  sv_events_get sv event_id = Ret fetched ->
  exists body added,
    calendar_log (snd (update_event_attendees sv name requested w))
    = calendar_log w ++ [CalUpdate event_id body]
    /\ body !! "attendees" = Some (VList (existing ++ added))
    /\ (forall x, x ∈ added ->
          exists email,
            x = attendee_of email /\ email ∈ requested /\ email_in emails email = false)
    /\ (forall email,
          email ∈ requested -> email_in emails email = true -> attendee_of email ∉ added)
    /\ (forall email,
          email ∈ requested -> email_in emails email = false -> attendee_of email ∈ added)
    /\ all_attendees (<["attendees" := VList (existing ++ added)]> target) requested
       = Ret (existing ++ added).
Proof.
  intros Hlist Hfind Hget Hemails Hid Hfetch.
  set (all := existing ++ new_attendees emails requested).
  exists (<["attendees" := VList all]> fetched), (new_attendees emails requested).
  split; [|split; [|split; [|split; [|split]]]].
  - pose proof (MergeFacts.modify_event_log sv event_id [("attendees", VList all)] fetched
                  (<["attendees" := VList all]> fetched) w Hfetch eq_refl) as Hlog.
    destruct (AttendeeFacts.modify_event_returns sv event_id [("attendees", VList all)] w)
      as [reply Hreply].
    unfold update_event_attendees, try_except, mbind, M_bind, lift, get_upcoming_events.
    rewrite Hlist, Hfind. unfold target_missing.
    rewrite (AttendeeFacts.truthy_nonempty target "id" event_id Hid). cbn [negb].
    rewrite (AttendeeFacts.all_attendees_spec target requested existing emails Hget Hemails).
    unfold dict_getitem. rewrite Hid. fold all.
    destruct (modify_event sv event_id [("attendees", VList all)] w) as [[r|e] w'];
      simpl in *; [exact Hlog | discriminate].
  - apply lookup_insert_eq.
  - intros x Hx. apply AttendeeFacts.elem_of_new_attendees, Hx.
  - intros email Hin Hpresent Hadded.
    apply AttendeeFacts.elem_of_new_attendees in Hadded as (email' & Heq & _ & Hnot).
    apply AttendeeFacts.attendee_of_inj in Heq. subst email'. congruence.
  - intros email Hin Hnot. apply AttendeeFacts.elem_of_new_attendees. eauto.
  - apply AttendeeFacts.all_attendees_again, Hemails.
Qed.

Lemma attendees_added_once_witness :
  exists body added,
    calendar_log (snd (update_event_attendees Demo.healthy "standup"
                         ["ann@example.com"; "bob@example.com"] init_world))
    = calendar_log init_world ++ [CalUpdate (VStr "ev1") body]
    /\ body !! "attendees"
       = Some (VList ([VDict (<["email" := VStr "ann@example.com"]> ∅)] ++ added))
    /\ (forall x, x ∈ added ->
          exists email,
            x = attendee_of email
            /\ email ∈ ["ann@example.com"; "bob@example.com"]
            /\ email_in [VStr "ann@example.com"] email = false)
    /\ (forall email,
          email ∈ ["ann@example.com"; "bob@example.com"] ->
          email_in [VStr "ann@example.com"] email = true -> attendee_of email ∉ added)
    /\ (forall email,
          email ∈ ["ann@example.com"; "bob@example.com"] ->
          email_in [VStr "ann@example.com"] email = false -> attendee_of email ∈ added)
    /\ all_attendees
         (<["attendees" := VList ([VDict (<["email" := VStr "ann@example.com"]> ∅)] ++ added)]>
            Demo.standup)
         ["ann@example.com"; "bob@example.com"]
       = Ret ([VDict (<["email" := VStr "ann@example.com"]> ∅)] ++ added).
Proof.
  apply (attendees_added_once Demo.healthy "standup" ["ann@example.com"; "bob@example.com"]
           init_world Demo.events Demo.standup
           [VDict (<["email" := VStr "ann@example.com"]> ∅)] [VStr "ann@example.com"]
           (VStr "ev1") Demo.standup); reflexivity.
Defined.

(** ** The log of calendar requests *)

Module LogFacts.

Lemma logs_ret {A} P (a : A) : logs P (mret a).
Proof. intros w. exists []. rewrite app_nil_r. split; [reflexivity | constructor]. Qed.

Lemma logs_lift {A} P (o : outcome A) : logs P (lift o).
Proof. intros w. exists []. rewrite app_nil_r. split; [reflexivity | constructor]. Qed.

Lemma logs_bind {A B} P (m : M A) (f : A -> M B) :
  logs P m -> (forall a, logs P (f a)) -> logs P (m ≫= f).
Proof.
  intros Hm Hf w. unfold mbind, M_bind.
  destruct (Hm w) as (new1 & Hlog1 & Hall1).
  destruct (m w) as [[a|e] w1]; simpl in *.
  - destruct (Hf a w1) as (new2 & Hlog2 & Hall2).
    exists (new1 ++ new2). rewrite Hlog2, Hlog1, app_assoc.
    split; [reflexivity | apply Forall_app; auto].
  - exists new1. auto.
Qed.

(** The continuation of a pure step runs only on its result. *)
Lemma logs_bind_lift {A B} P (o : outcome A) (f : A -> M B) :
  (forall a, o = Ret a -> logs P (f a)) -> logs P (lift o ≫= f).
Proof.
  intros Hf w. unfold mbind, M_bind, lift.
  destruct o as [a|e].
  - apply (Hf a eq_refl).
  - exists []. rewrite app_nil_r. split; [reflexivity | constructor].
Qed.

Lemma logs_try {A} P (body : M A) (handler : string -> M A) :
  logs P body -> (forall e, logs P (handler e)) -> logs P (try_except body handler).
Proof.
  intros Hbody Hhandler w. unfold try_except.
  destruct (Hbody w) as (new1 & Hlog1 & Hall1).
  destruct (body w) as [[a|e] w1]; simpl in *.
  - exists new1. auto.
  - destruct (Hhandler e w1) as (new2 & Hlog2 & Hall2).
    exists (new1 ++ new2). rewrite Hlog2, Hlog1, app_assoc.
    split; [reflexivity | apply Forall_app; auto].
Qed.

Lemma logs_log_request P r : P r -> logs P (log_request r).
Proof.
  intros Hr w. exists [r]. split; [reflexivity|]. constructor; [exact Hr | constructor].
Qed.

Lemma logs_weaken {A} (P Q : cal_request -> Prop) (m : M A) :
  (forall r, P r -> Q r) -> logs P m -> logs Q m.
Proof.
  intros HPQ Hm w. destruct (Hm w) as (new & Hlog & Hall).
  exists new. split; [exact Hlog|]. eapply Forall_impl; eauto.
Qed.

Lemma logs_get_conversation_history P user_id : logs P (get_conversation_history user_id).
Proof.
  intros w. exists []. rewrite app_nil_r. split; [|constructor].
  unfold get_conversation_history. destruct (conversation_history w !! user_id); reflexivity.
Qed.

Lemma logs_set_history P user_id history : logs P (set_history user_id history).
Proof. intros w. exists []. rewrite app_nil_r. split; [reflexivity | constructor]. Qed.

Lemma logs_get_memory_limit P : logs P get_memory_limit.
Proof. intros w. exists []. rewrite app_nil_r. split; [reflexivity | constructor]. Qed.

Lemma logs_add_to_history P user_id role content :
  logs P (add_to_history user_id role content).
Proof.
  unfold add_to_history.
  apply logs_bind; [apply logs_get_conversation_history|]. intros history.
  apply logs_bind; [apply logs_get_memory_limit|]. intros limit.
  apply logs_set_history.
Qed.

Lemma logs_modify_event sv event_id changes :
  logs is_update (modify_event sv event_id changes).
Proof.
  unfold modify_event. apply logs_try; [|intros e; apply logs_ret].
  apply logs_bind_lift. intros ev _.
  apply logs_bind_lift. intros updated_event _.
  apply logs_bind; [apply logs_log_request; exact I|]. intros _.
  apply logs_bind_lift. intros result _. apply logs_ret.
Qed.

Lemma logs_postpone_event sv event_summary hours :
  logs is_update (postpone_event sv event_summary hours).
Proof.
  unfold postpone_event. apply logs_try; [|intros e; apply logs_ret].
  apply logs_bind_lift. intros events _.
  apply logs_bind_lift. intros [ev|] _; [|apply logs_ret].
  destruct (target_missing (Some ev)); [apply logs_ret|].
  do 6 (apply logs_bind_lift; intros ? _).
  apply logs_bind_lift. intros event_id _.
  apply logs_bind; [apply logs_modify_event|]. intros result. apply logs_ret.
Qed.

Lemma logs_update_event_location sv event_summary new_location :
  logs is_update (update_event_location sv event_summary new_location).
Proof.
  unfold update_event_location. apply logs_try; [|intros e; apply logs_ret].
  apply logs_bind_lift. intros events _.
  apply logs_bind_lift. intros [ev|] _; [|apply logs_ret].
  destruct (target_missing (Some ev)); [apply logs_ret|].
  apply logs_bind_lift. intros event_id _.
  apply logs_bind; [apply logs_modify_event|]. intros result. apply logs_ret.
Qed.

Lemma logs_update_event_attendees sv event_summary attendees :
  logs is_update (update_event_attendees sv event_summary attendees).
Proof.
  unfold update_event_attendees. apply logs_try; [|intros e; apply logs_ret].
  apply logs_bind_lift. intros events _.
  apply logs_bind_lift. intros [ev|] _; [|apply logs_ret].
  destruct (target_missing (Some ev)); [apply logs_ret|].
  apply logs_bind_lift. intros all _.
  apply logs_bind_lift. intros event_id _.
  apply logs_bind; [apply logs_modify_event|]. intros result. apply logs_ret.
Qed.

Lemma logs_run_postpone sv msg_lower : logs is_update (run_postpone sv msg_lower).
Proof.
  unfold run_postpone. apply logs_try; [|intros e; apply logs_ret].
  apply logs_bind_lift. intros [[event_name|] hours] _; [|apply logs_ret].
  destruct (is_empty event_name); [apply logs_ret | apply logs_postpone_event].
Qed.

Lemma logs_run_update_location sv msg_lower :
  logs is_update (run_update_location sv msg_lower).
Proof.
  unfold run_update_location. apply logs_try; [|intros e; apply logs_ret].
  apply logs_bind_lift. intros [reply|[event_name new_location]] _; [apply logs_ret|].
  destruct (negb (is_empty event_name) && negb (is_empty new_location));
    [apply logs_update_event_location | apply logs_ret].
Qed.

Lemma logs_run_update_attendees sv msg_lower :
  logs is_update (run_update_attendees sv msg_lower).
Proof.
  unfold run_update_attendees. apply logs_try; [|intros e; apply logs_ret].
  destruct (extract_update_attendees msg_lower) as [[event_name|] [|attendee attendees]];
    try apply logs_ret.
  destruct (is_empty event_name); [apply logs_ret | apply logs_update_event_attendees].
Qed.

Lemma logs_run_general_chat sv user_id history msg_lower content :
  logs is_update (run_general_chat sv user_id history msg_lower content).
Proof.
  unfold run_general_chat.
  apply logs_bind_lift. intros context _.
  apply logs_bind_lift. intros choices _.
  apply logs_bind; [apply logs_add_to_history|]. intros _.
  apply logs_bind_lift. intros reply _.
  apply logs_bind; [apply logs_add_to_history|]. intros _.
  apply logs_lift.
Qed.

(** Without an end time, the end is one hour after the start. *)
Lemma resolve_end_default sv start_dt end_dt :
  resolve_end sv start_dt VNull = Ret end_dt ->
  wall_us end_dt = (wall_us start_dt + hour_us)%Z /\ utcoffset end_dt = utcoffset start_dt.
Proof.
  unfold resolve_end. cbn [truthy negb].
  change (timedelta_hours 1) with (Ret (A := Z) hour_us).
  unfold mbind, outcome_bind, dt_add.
  destruct ((0 <=? wall_us start_dt + hour_us)%Z && (wall_us start_dt + hour_us <=? max_wall_us)%Z);
    [|discriminate].
  intros H. injection H as <-. split; reflexivity.
Qed.

Lemma new_event_body_start sv summary start_dt end_dt location :
  new_event_body sv summary start_dt end_dt location !! "start"
  = Some (time_field sv start_dt).
Proof.
  unfold new_event_body. destruct (truthy location).
  - rewrite lookup_insert_ne by discriminate.
    rewrite lookup_insert_ne by discriminate. apply lookup_insert_eq.
  - rewrite lookup_insert_ne by discriminate. apply lookup_insert_eq.
Qed.

Lemma new_event_body_end sv summary start_dt end_dt location :
  new_event_body sv summary start_dt end_dt location !! "end"
  = Some (time_field sv end_dt).
Proof.
  unfold new_event_body. destruct (truthy location).
  - do 3 (rewrite lookup_insert_ne by discriminate). apply lookup_insert_eq.
  - do 2 (rewrite lookup_insert_ne by discriminate). apply lookup_insert_eq.
Qed.

Lemma logs_create_event sv summary start_time location :
  logs (insert_one_hour sv) (create_event sv summary start_time VNull location).
Proof.
  unfold create_event. apply logs_try; [|intros e; apply logs_ret].
  apply logs_bind_lift. intros start_dt Hstart.
  apply logs_bind_lift. intros end_dt Hend.
  apply resolve_end_default in Hend as [Hwall Hoffset].
  apply logs_bind.
  - apply logs_log_request. exists start_time, start_dt, end_dt.
    split; [exact Hstart|].
    split; [apply new_event_body_start|].
    split; [apply new_event_body_end|]. auto.
  - intros _. apply logs_bind_lift. intros created_event _.
    apply logs_bind_lift. intros created_id _.
    apply logs_bind_lift. intros verify_event _.
    destruct (truthy (VDict verify_event)); apply logs_ret.
Qed.

Lemma logs_run_create_event sv content :
  logs (insert_one_hour sv) (run_create_event sv content).
Proof.
  unfold run_create_event. apply logs_try; [|intros e; apply logs_ret].
  do 7 (apply logs_bind_lift; intros ? _).
  apply logs_bind; [apply logs_create_event|]. intros result. apply logs_ret.
Qed.

End LogFacts.

(** ** Event creation *)

Lemma logs_handle sv user_id content :
  logs (fun r => insert_one_hour sv r /\ (classify content = CreateEvent \/ is_update r))
       (handle sv (classify content) user_id content).
Proof.
  destruct (classify content); cbn [handle].
  - eapply LogFacts.logs_weaken; [|apply (LogFacts.logs_ret is_update)].
    intros [] H; simpl in *; tauto.
  - eapply LogFacts.logs_weaken with (P := is_update); [intros [] H; simpl in *; tauto|].
    apply LogFacts.logs_bind; [apply LogFacts.logs_get_conversation_history|]. intros _.
    apply LogFacts.logs_bind; [apply LogFacts.logs_set_history|]. intros _.
    apply LogFacts.logs_ret.
  - eapply LogFacts.logs_weaken with (P := insert_one_hour sv); [intros r H; auto|].
    apply LogFacts.logs_bind; [apply LogFacts.logs_get_conversation_history|]. intros _.
    apply LogFacts.logs_run_create_event.
  - eapply LogFacts.logs_weaken with (P := is_update); [intros [] H; simpl in *; tauto|].
    apply LogFacts.logs_bind; [apply LogFacts.logs_get_conversation_history|]. intros _.
    apply LogFacts.logs_run_postpone.
  - eapply LogFacts.logs_weaken with (P := is_update); [intros [] H; simpl in *; tauto|].
    apply LogFacts.logs_bind; [apply LogFacts.logs_get_conversation_history|]. intros _.
    apply LogFacts.logs_run_update_location.
  - eapply LogFacts.logs_weaken with (P := is_update); [intros [] H; simpl in *; tauto|].
    apply LogFacts.logs_bind; [apply LogFacts.logs_get_conversation_history|]. intros _.
    apply LogFacts.logs_run_update_attendees.
  - eapply LogFacts.logs_weaken with (P := is_update); [intros [] H; simpl in *; tauto|].
    apply LogFacts.logs_bind; [apply LogFacts.logs_get_conversation_history|]. intros history.
    apply LogFacts.logs_run_general_chat.
Qed.

(** C10.  Whatever the message, every request for the creation of an event
    that [run] sends comes from the event creation branch, which calls
    [create_event] without an end time, and its body ends exactly one hour
    (on the clock, in the same zone) after the start that [create_event]
    resolved. *)
Theorem created_events_last_one_hour (sv : services) (user_id content : string) (w : world) :
  exists new,
    calendar_log (snd (run sv user_id content w)) = calendar_log w ++ new
    /\ (forall body,
          CalInsert body ∈ new ->
          classify content = CreateEvent /\ one_hour_event sv body).
Proof.
  rewrite run_dispatch.
  destruct (logs_handle sv user_id content w) as (new & Hlog & Hall).
  exists new. split; [exact Hlog|].
  intros body Hin. rewrite Forall_forall in Hall.
  destruct (Hall (CalInsert body) Hin) as [Hhour [Hcreate|Hupdate]].
  - split; [exact Hcreate | exact Hhour].
  - destruct Hupdate.
Qed.

Lemma created_events_last_one_hour_witness :
  exists body,
    calendar_log (snd (run Demo.healthy "42" "Please schedule a demo" init_world))
    = [CalInsert body]
    /\ classify "Please schedule a demo" = CreateEvent
    /\ one_hour_event Demo.healthy body.
Proof.
  destruct (created_events_last_one_hour Demo.healthy "42" "Please schedule a demo" init_world)
    as (new & Hlog & Hall).
  set (body := new_event_body Demo.healthy (VStr "Demo")
                 (Datetime 5000 (Some (-18000)%Z))
                 (Datetime (5000 + hour_us) (Some (-18000)%Z)) VNull).
  assert (Hrun : calendar_log (snd (run Demo.healthy "42" "Please schedule a demo" init_world))
                 = [CalInsert body]) by (vm_compute; reflexivity).
  exists body. split; [exact Hrun|].
  apply Hall. rewrite Hrun in Hlog. simpl in Hlog. rewrite <- Hlog. left.
Defined.

(** ** Failures of the collaborators *)

Module FailureFacts.

Lemma returns_ret {A} (a : A) : returns (mret a).
Proof. intros w. exists a. reflexivity. Qed.

Lemma returns_try {A} (body : M A) (handler : string -> M A) :
  (forall e, returns (handler e)) -> returns (try_except body handler).
Proof.
  intros Hhandler w. unfold try_except.
  destruct (body w) as [[a|e] w1]; [exists a; reflexivity | apply Hhandler].
Qed.

Lemma returns_bind {A B} (m : M A) (f : A -> M B) :
  returns m -> (forall a, returns (f a)) -> returns (m ≫= f).
Proof.
  intros Hm Hf w. unfold mbind, M_bind.
  destruct (Hm w) as [a Ha]. destruct (m w) as [[a'|e] w1]; simpl in Ha; [|discriminate].
  apply Hf.
Qed.

Lemma returns_get_conversation_history user_id : returns (get_conversation_history user_id).
Proof.
  intros w. unfold get_conversation_history.
  destruct (conversation_history w !! user_id) as [history|]; eexists; reflexivity.
Qed.

Lemma returns_set_history user_id history : returns (set_history user_id history).
Proof. intros w. exists tt. reflexivity. Qed.

(** The six branches that carry out a command answer with a text, whatever
    the collaborators do: each of them catches the exceptions of its
    body. *)
Lemma run_returns_outside_general_chat sv user_id content :
  classify content ≠ GeneralChat -> returns (run sv user_id content).
Proof.
  intros Hintent. rewrite run_dispatch.
  destruct (classify content); cbn [handle]; try contradiction.
  - apply returns_ret.
  - apply returns_bind; [apply returns_get_conversation_history|]. intros _.
    apply returns_bind; [apply returns_set_history|]. intros _. apply returns_ret.
  - apply returns_bind; [apply returns_get_conversation_history|]. intros _.
    apply returns_try. intros e. apply returns_ret.
  - apply returns_bind; [apply returns_get_conversation_history|]. intros _.
    apply returns_try. intros e. apply returns_ret.
  - apply returns_bind; [apply returns_get_conversation_history|]. intros _.
    apply returns_try. intros e. apply returns_ret.
  - apply returns_bind; [apply returns_get_conversation_history|]. intros _.
    apply returns_try. intros e. apply returns_ret.
Qed.

Lemma run_general_chat_unfold sv user_id content w :
  classify content = GeneralChat ->
  run sv user_id content w =
  run_general_chat sv user_id (Memory.stored w user_id) (lower content) content
    (snd (get_conversation_history user_id w)).
Proof.
  intros Hintent. rewrite run_dispatch, Hintent. cbn [handle].
  unfold mbind, M_bind, get_conversation_history, Memory.stored.
  destruct (conversation_history w !! user_id); reflexivity.
Qed.

(** A failure of the chat call of the free-form reply leaves [run] as an
    exception. *)
Lemma chat_failure_propagates sv user_id content w context e :
  classify content = GeneralChat ->
  build_context sv (lower content) = Ret context ->
  sv_chat_complete sv (chat_messages (Memory.stored w user_id) context content) = Raise e ->
  fst (run sv user_id content w) = Raise e.
Proof.
  intros Hintent Hcontext Hchat. rewrite run_general_chat_unfold by exact Hintent.
  unfold run_general_chat, mbind, M_bind, lift. rewrite Hcontext, Hchat. reflexivity.
Qed.

(** A failure of the calendar listing during the assembly of the context
    leaves [run] as an exception. *)
Lemma calendar_failure_propagates sv user_id content w e :
  classify content = GeneralChat ->
  any_in calendar_words (lower content) = true ->
  get_upcoming_events sv 5 = Raise e ->
  fst (run sv user_id content w) = Raise e.
Proof.
  intros Hintent Hwords Hlist. rewrite run_general_chat_unfold by exact Hintent.
  unfold run_general_chat, mbind, M_bind, lift, build_context.
  rewrite Hwords, Hlist. reflexivity.
Qed.

(** A failure of the weather request leaves the location line alone in the
    context. *)
Lemma weather_failure_keeps_location sv :
  (forall city, exists e, sv_weather_report sv city = Raise e) ->
  location_and_weather sv = "My location: " +:+ sv_location sv +:+ nl.
Proof.
  intros Hweather. unfold location_and_weather, get_weather.
  destruct (negb (env_truthy (sv_weather_api_key sv))); [reflexivity|].
  destruct (Hweather (strip (hd EmptyString (split "," (sv_location sv))))) as [e ->].
  reflexivity.
Qed.

(** A failure of the distance request gives no travel estimate. *)
Lemma maps_failure_gives_none sv destination :
  (forall mode, exists e,
      sv_distance_matrix sv (sv_location sv) destination mode = Raise e) ->
  get_travel_time sv destination = None.
Proof.
  intros Hmaps. unfold get_travel_time.
  destruct (negb (env_truthy (sv_maps_api_key sv))); [reflexivity|].
  destruct (Hmaps "driving") as [e ->]. reflexivity.
Qed.

End FailureFacts.

(** C1, at a failing input: the language model cannot be reached and the
    message "hello" asks for a free-form reply; the chat call is not inside
    a [try] statement and [run] ends with the exception of the call instead
    of a reply. *)
Theorem run_raises_when_chat_fails :
  classify "hello" = GeneralChat
  /\ fst (run Demo.llm_down "42" "hello" init_world) = Raise "API error occurred: Status 503".
Proof. split; vm_compute; reflexivity. Qed.

(** C4, at a failing input: the calendar cannot be reached and the message
    asks about the calendar; the listing of the events is not inside a
    [try] statement and [run] ends with the exception of the listing.  With
    the weather service down instead, the context is the location line
    alone and the reply is given. *)
Theorem run_raises_when_calendar_listing_fails :
  fst (run Demo.calendar_down "42" "what is on my calendar" init_world)
    = Raise "HttpError 503"
  /\ fst (run Demo.calendar_down "42" "how far is my next event" init_world)
     = Raise "HttpError 503"
  /\ build_context Demo.weather_down "hello"
     = Ret ("My location: Boston, Massachusetts, United States" +:+ nl, EmptyString)
  /\ fst (run Demo.weather_down "42" "hello" init_world) = Ret "Sure.".
Proof. repeat split; vm_compute; reflexivity. Qed.

(** ** What the handler keeps of the state *)

Section Preserve.

Variable R : world -> world -> Prop.
Hypothesis R_refl : forall w, R w w.
Hypothesis R_trans : forall a b c, R a b -> R b c -> R a c.
Hypothesis R_log : forall r, preserves R (log_request r).

Lemma preserves_ret {A} (a : A) : preserves R (mret a).
Proof. intros w. apply R_refl. Qed.

Lemma preserves_lift {A} (o : outcome A) : preserves R (lift o).
Proof. intros w. apply R_refl. Qed.

Lemma preserves_bind {A B} (m : M A) (f : A -> M B) :
  preserves R m -> (forall a, preserves R (f a)) -> preserves R (m ≫= f).
Proof.
  intros Hm Hf w. unfold mbind, M_bind.
  specialize (Hm w). destruct (m w) as [[a|e] w1]; simpl in *; [|exact Hm].
  eapply R_trans; [exact Hm | apply Hf].
Qed.

Lemma preserves_try {A} (body : M A) (handler : string -> M A) :
  preserves R body -> (forall e, preserves R (handler e)) ->
  preserves R (try_except body handler).
Proof.
  intros Hbody Hhandler w. unfold try_except.
  specialize (Hbody w). destruct (body w) as [[a|e] w1]; simpl in *; [exact Hbody|].
  eapply R_trans; [exact Hbody | apply Hhandler].
Qed.

(** One step of the walk through a computation: a result, a pure step, a
    request, a sequence, a [try] statement or a case distinction. *)
Ltac preserve_step :=
  first
    [ apply preserves_ret
    | apply preserves_lift
    | apply R_log
    | assumption
    | apply preserves_try; [|intros ?]
    | apply preserves_bind; [|intros ?]
    | match goal with
      | |- preserves _ (match ?x with _ => _ end) => destruct x
      | |- preserves _ (let '(_, _) := ?x in _) => destruct x
      end ].

Lemma preserves_modify_event sv event_id changes :
  preserves R (modify_event sv event_id changes).
Proof. unfold modify_event. repeat preserve_step. Qed.

Lemma preserves_create_event sv summary start_time end_time location :
  preserves R (create_event sv summary start_time end_time location).
Proof. unfold create_event. repeat preserve_step. Qed.

Lemma preserves_postpone_event sv event_summary hours :
  preserves R (postpone_event sv event_summary hours).
Proof.
  pose proof (preserves_modify_event sv) as Hmodify.
  unfold postpone_event. repeat first [apply Hmodify | preserve_step].
Qed.

Lemma preserves_update_event_location sv event_summary new_location :
  preserves R (update_event_location sv event_summary new_location).
Proof.
  pose proof (preserves_modify_event sv) as Hmodify.
  unfold update_event_location. repeat first [apply Hmodify | preserve_step].
Qed.

Lemma preserves_update_event_attendees sv event_summary attendees :
  preserves R (update_event_attendees sv event_summary attendees).
Proof.
  pose proof (preserves_modify_event sv) as Hmodify.
  unfold update_event_attendees. repeat first [apply Hmodify | preserve_step].
Qed.

Lemma preserves_run_create_event sv content :
  preserves R (run_create_event sv content).
Proof.
  pose proof (preserves_create_event sv) as Hcreate.
  unfold run_create_event. repeat first [apply Hcreate | preserve_step].
Qed.

Lemma preserves_run_postpone sv msg_lower : preserves R (run_postpone sv msg_lower).
Proof.
  pose proof (preserves_postpone_event sv) as Hpostpone.
  unfold run_postpone. repeat first [apply Hpostpone | preserve_step].
Qed.

Lemma preserves_run_update_location sv msg_lower :
  preserves R (run_update_location sv msg_lower).
Proof.
  pose proof (preserves_update_event_location sv) as Hupdate.
  unfold run_update_location. repeat first [apply Hupdate | preserve_step].
Qed.

Lemma preserves_run_update_attendees sv msg_lower :
  preserves R (run_update_attendees sv msg_lower).
Proof.
  pose proof (preserves_update_event_attendees sv) as Hupdate.
  unfold run_update_attendees. repeat first [apply Hupdate | preserve_step].
Qed.

(** The handler keeps every relation that the three operations on the
    history of the sender keep. *)
Lemma preserves_run sv user_id content :
  preserves R (get_conversation_history user_id) ->
  preserves R (set_history user_id []) ->
  (forall role text, preserves R (add_to_history user_id role text)) ->
  preserves R (run sv user_id content).
Proof.
  intros Hget Hset Hadd.
  pose proof (preserves_run_create_event sv) as H1.
  pose proof (preserves_run_postpone sv) as H2.
  pose proof (preserves_run_update_location sv) as H3.
  pose proof (preserves_run_update_attendees sv) as H4.
  rewrite run_dispatch. destruct (classify content); cbn [handle];
    unfold run_general_chat;
    repeat first [apply H1 | apply H2 | apply H3 | apply H4 | apply Hadd | preserve_step].
Qed.

End Preserve.

Module StateFacts.

Lemma stored_get_conversation_history w user_id other :
  Memory.stored (snd (get_conversation_history user_id w)) other = Memory.stored w other.
Proof.
  unfold get_conversation_history, Memory.stored.
  destruct (conversation_history w !! user_id) as [history|] eqn:E; [reflexivity|].
  simpl. destruct (decide (user_id = other)) as [->|Hne].
  - rewrite lookup_insert_eq, E. reflexivity.
  - rewrite lookup_insert_ne by exact Hne. reflexivity.
Qed.

Lemma stored_set_history w user_id history other :
  Memory.stored (snd (set_history user_id history w)) other
  = if decide (user_id = other) then history else Memory.stored w other.
Proof.
  unfold set_history, Memory.stored. simpl.
  destruct (decide (user_id = other)) as [->|Hne].
  - rewrite lookup_insert_eq. reflexivity.
  - rewrite lookup_insert_ne by exact Hne. reflexivity.
Qed.

Lemma add_to_history_turn w user_id role text :
  add_to_history user_id role text w =
  (Ret tt, World (<[user_id := Memory.appended (memory_limit w) (Memory.stored w user_id)
                                  (Turn role text)]> (conversation_history w))
                 (memory_limit w) (calendar_log w)).
Proof. apply (MemoryFacts.add_to_history_spec w user_id (Turn role text)). Qed.

Lemma length_appended limit history t :
  length history <= limit -> length (Memory.appended limit history t) <= limit.
Proof.
  intros Hlen. unfold Memory.appended. rewrite length_app. simpl.
  destruct (Nat.ltb_spec limit (length history + 1)) as [Hlt|Hge].
  - rewrite length_drop, length_app. simpl. lia.
  - rewrite length_app. simpl. lia.
Qed.

(** *** The bound of the histories *)

Lemma bound_kept_refl w : bound_kept w w.
Proof. split; auto. Qed.

Lemma bound_kept_trans a b c : bound_kept a b -> bound_kept b c -> bound_kept a c.
Proof.
  intros [Hab1 Hab2] [Hbc1 Hbc2]. split; [congruence|].
  intros user_id H. rewrite <- Hab1. apply Hbc2. rewrite Hab1. apply Hab2, H.
Qed.

Lemma bound_kept_log r : preserves bound_kept (log_request r).
Proof. intros w. split; auto. Qed.

Lemma bound_kept_get user_id : preserves bound_kept (get_conversation_history user_id).
Proof.
  intros w. split.
  - unfold get_conversation_history.
    destruct (conversation_history w !! user_id); reflexivity.
  - intros other H. rewrite stored_get_conversation_history. exact H.
Qed.

Lemma bound_kept_set user_id : preserves bound_kept (set_history user_id []).
Proof.
  intros w. split; [reflexivity|].
  intros other H. rewrite stored_set_history.
  destruct (decide (user_id = other)); [simpl; lia | exact H].
Qed.

Lemma bound_kept_add user_id role text :
  preserves bound_kept (add_to_history user_id role text).
Proof.
  intros w. rewrite add_to_history_turn. split; [reflexivity|].
  intros other H. unfold Memory.stored at 1. simpl.
  destruct (decide (user_id = other)) as [->|Hne].
  - rewrite lookup_insert_eq. simpl. apply length_appended, H.
  - rewrite lookup_insert_ne by exact Hne. exact H.
Qed.

(** *** The histories of the other users *)

Lemma others_kept_refl user_id w : others_kept user_id w w.
Proof. intros other _. reflexivity. Qed.

Lemma others_kept_trans user_id a b c :
  others_kept user_id a b -> others_kept user_id b c -> others_kept user_id a c.
Proof. intros Hab Hbc other Hne. rewrite (Hbc other Hne). apply Hab, Hne. Qed.

Lemma others_kept_log user_id r : preserves (others_kept user_id) (log_request r).
Proof. intros w other _. reflexivity. Qed.

Lemma others_kept_get user_id :
  preserves (others_kept user_id) (get_conversation_history user_id).
Proof. intros w other _. apply stored_get_conversation_history. Qed.

Lemma others_kept_set user_id history :
  preserves (others_kept user_id) (set_history user_id history).
Proof.
  intros w other Hne. rewrite stored_set_history.
  destruct (decide (user_id = other)); [congruence | reflexivity].
Qed.

Lemma others_kept_add user_id role text :
  preserves (others_kept user_id) (add_to_history user_id role text).
Proof.
  intros w other Hne. rewrite add_to_history_turn. unfold Memory.stored. simpl.
  rewrite lookup_insert_ne by congruence. reflexivity.
Qed.

End StateFacts.

(** X1.  Whatever the message and whatever the collaborators answer, [run]
    keeps the memory limit, and when every history was within the limit
    before the message, every history is within it afterwards. *)
Theorem run_keeps_histories_within_limit (sv : services) (user_id content : string)
    (w : world) :
  (forall other, length (Memory.stored w other) <= memory_limit w) ->
  memory_limit (snd (run sv user_id content w)) = memory_limit w
  /\ forall other,
       length (Memory.stored (snd (run sv user_id content w)) other) <= memory_limit w.
Proof.
  intros Hbound.
  destruct (preserves_run bound_kept StateFacts.bound_kept_refl StateFacts.bound_kept_trans
              StateFacts.bound_kept_log sv user_id content
              (StateFacts.bound_kept_get user_id) (StateFacts.bound_kept_set user_id)
              (StateFacts.bound_kept_add user_id) w) as [Hlimit Hkept].
  split; [exact Hlimit|]. intros other. apply Hkept, Hbound.
Qed.

Lemma run_keeps_histories_within_limit_witness :
  memory_limit (snd (run Demo.healthy "42" "hello" init_world)) = memory_limit init_world
  /\ forall other,
       length (Memory.stored (snd (run Demo.healthy "42" "hello" init_world)) other)
       <= memory_limit init_world.
Proof.
  apply (run_keeps_histories_within_limit Demo.healthy "42" "hello" init_world).
  intros other. unfold Memory.stored, init_world. simpl.
  rewrite lookup_empty. simpl. lia.
Defined.

(** X2.  A message of one user never changes the history of another user,
    whatever the message and whatever the collaborators answer. *)
Theorem run_keeps_other_histories (sv : services) (user_id content other : string)
    (w : world) :
  other ≠ user_id ->
  Memory.stored (snd (run sv user_id content w)) other = Memory.stored w other.
Proof.
  intros Hne.
  apply (preserves_run (others_kept user_id) (StateFacts.others_kept_refl user_id)
           (StateFacts.others_kept_trans user_id) (StateFacts.others_kept_log user_id)
           sv user_id content
           (StateFacts.others_kept_get user_id) (StateFacts.others_kept_set user_id [])
           (StateFacts.others_kept_add user_id) w other Hne).
Qed.

Lemma run_keeps_other_histories_witness :
  Memory.stored (snd (run Demo.healthy "42" "hello" Demo.two_users)) "7"
  = Memory.stored Demo.two_users "7".
Proof.
  apply (run_keeps_other_histories Demo.healthy "42" "hello" "7" Demo.two_users).
  discriminate.
Defined.

(** ** The number of requests of one message *)

Module SendFacts.

Lemma sends_ret {A} n (a : A) : sends n (mret a).
Proof. intros w. exists []. rewrite app_nil_r. split; [reflexivity | simpl; lia]. Qed.

Lemma sends_lift {A} n (o : outcome A) : sends n (lift o).
Proof. intros w. exists []. rewrite app_nil_r. split; [reflexivity | simpl; lia]. Qed.

Lemma sends_bind_lift {A B} n (o : outcome A) (f : A -> M B) :
  (forall a, sends n (f a)) -> sends n (lift o ≫= f).
Proof.
  intros Hf w. unfold mbind, M_bind, lift. destruct o as [a|e]; [apply Hf|].
  exists []. rewrite app_nil_r. split; [reflexivity | simpl; lia].
Qed.

(** A step that sends nothing, followed by the rest. *)
Lemma sends_bind_silent {A B} n (m : M A) (f : A -> M B) :
  sends 0 m -> (forall a, sends n (f a)) -> sends n (m ≫= f).
Proof.
  intros Hm Hf w. unfold mbind, M_bind.
  destruct (Hm w) as (new1 & Hlog1 & Hlen1).
  assert (new1 = []) as -> by (destruct new1; [reflexivity | simpl in Hlen1; lia]).
  rewrite app_nil_r in Hlog1.
  destruct (m w) as [[a|e] w1]; simpl in *.
  - destruct (Hf a w1) as (new2 & Hlog2 & Hlen2). exists new2. rewrite Hlog2, Hlog1. auto.
  - exists []. rewrite app_nil_r. split; [exact Hlog1 | simpl; lia].
Qed.

(** A step that sends, followed by a rest that sends nothing. *)
Lemma sends_bind_last {A B} n (m : M A) (f : A -> M B) :
  sends n m -> (forall a, sends 0 (f a)) -> sends n (m ≫= f).
Proof.
  intros Hm Hf w. unfold mbind, M_bind.
  destruct (Hm w) as (new1 & Hlog1 & Hlen1).
  destruct (m w) as [[a|e] w1]; simpl in *.
  - destruct (Hf a w1) as (new2 & Hlog2 & Hlen2).
    assert (new2 = []) as -> by (destruct new2; [reflexivity | simpl in Hlen2; lia]).
    exists new1. rewrite Hlog2, app_nil_r. auto.
  - exists new1. auto.
Qed.

Lemma sends_log_request r : sends 1 (log_request r).
Proof. intros w. exists [r]. split; [reflexivity | simpl; lia]. Qed.

Lemma sends_try {A} n (body : M A) (handler : string -> M A) :
  sends n body -> (forall e, sends 0 (handler e)) -> sends n (try_except body handler).
Proof.
  intros Hbody Hhandler w. unfold try_except.
  destruct (Hbody w) as (new1 & Hlog1 & Hlen1).
  destruct (body w) as [[a|e] w1]; simpl in *; [exists new1; auto|].
  destruct (Hhandler e w1) as (new2 & Hlog2 & Hlen2).
  assert (new2 = []) as -> by (destruct new2; [reflexivity | simpl in Hlen2; lia]).
  exists new1. rewrite Hlog2, app_nil_r. auto.
Qed.

Lemma sends_get_conversation_history user_id : sends 0 (get_conversation_history user_id).
Proof.
  intros w. exists []. rewrite app_nil_r. split; [|simpl; lia].
  unfold get_conversation_history. destruct (conversation_history w !! user_id); reflexivity.
Qed.

Lemma sends_set_history user_id history : sends 0 (set_history user_id history).
Proof. intros w. exists []. rewrite app_nil_r. split; [reflexivity | simpl; lia]. Qed.

Lemma sends_add_to_history user_id role text : sends 0 (add_to_history user_id role text).
Proof.
  intros w. rewrite StateFacts.add_to_history_turn.
  exists []. rewrite app_nil_r. split; [reflexivity | simpl; lia].
Qed.

(** One step of the walk through a computation that sends at most once. *)
Ltac send_step :=
  first
    [ apply sends_ret
    | apply sends_lift
    | apply sends_log_request
    | apply sends_get_conversation_history
    | apply sends_set_history
    | apply sends_add_to_history
    | assumption
    | apply sends_try; [|intros ?]
    | apply sends_bind_lift; intros ?
    | apply sends_bind_silent;
        [first [apply sends_get_conversation_history | apply sends_set_history
               | apply sends_add_to_history]|intros ?]
    | apply sends_bind_last; [|intros ?]
    | match goal with
      | |- sends _ (match ?x with _ => _ end) => destruct x
      end ].

Lemma sends_modify_event sv event_id changes : sends 1 (modify_event sv event_id changes).
Proof. unfold modify_event. repeat send_step. Qed.

Lemma sends_create_event sv summary start_time end_time location :
  sends 1 (create_event sv summary start_time end_time location).
Proof. unfold create_event. repeat send_step. Qed.

Lemma sends_postpone_event sv event_summary hours :
  sends 1 (postpone_event sv event_summary hours).
Proof.
  pose proof (sends_modify_event sv) as Hmodify.
  unfold postpone_event. repeat first [apply Hmodify | send_step].
Qed.

Lemma sends_update_event_location sv event_summary new_location :
  sends 1 (update_event_location sv event_summary new_location).
Proof.
  pose proof (sends_modify_event sv) as Hmodify.
  unfold update_event_location. repeat first [apply Hmodify | send_step].
Qed.

Lemma sends_update_event_attendees sv event_summary attendees :
  sends 1 (update_event_attendees sv event_summary attendees).
Proof.
  pose proof (sends_modify_event sv) as Hmodify.
  unfold update_event_attendees. repeat first [apply Hmodify | send_step].
Qed.

Lemma sends_handle sv user_id content :
  sends (match classify content with
         | LocationQuery | Reset | GeneralChat => 0
         | _ => 1
         end)
        (handle sv (classify content) user_id content).
Proof.
  pose proof (sends_create_event sv) as H1.
  pose proof (sends_postpone_event sv) as H2.
  pose proof (sends_update_event_location sv) as H3.
  pose proof (sends_update_event_attendees sv) as H4.
  destruct (classify content); cbn [handle];
    unfold run_general_chat, run_create_event, run_postpone, run_update_location,
      run_update_attendees;
    repeat first [apply H1 | apply H2 | apply H3 | apply H4 | send_step].
Qed.

End SendFacts.

(** X3.  One message makes [run] send at most one request that changes the
    calendar, and none at all when the message is a location query, a reset
    or general chat. *)
Theorem run_sends_at_most_one_request (sv : services) (user_id content : string)
    (w : world) :
  exists new,
    calendar_log (snd (run sv user_id content w)) = calendar_log w ++ new
    /\ length new <= 1
    /\ match classify content with
       | LocationQuery | Reset | GeneralChat => new = []
       | _ => True
       end.
Proof.
  rewrite run_dispatch.
  destruct (SendFacts.sends_handle sv user_id content w) as (new & Hlog & Hlen).
  exists new. split; [exact Hlog|].
  destruct (classify content); (split; [lia|]); try exact I;
    destruct new; first [reflexivity | simpl in Hlen; lia].
Qed.

(** ** Reset and free-form replies *)

Module ChatFacts.

(** The state after the first access to the history of the sender. *)
Lemma get_conversation_history_run w user_id :
  get_conversation_history user_id w
  = (Ret (Memory.stored w user_id), snd (get_conversation_history user_id w)).
Proof.
  unfold get_conversation_history, Memory.stored.
  destruct (conversation_history w !! user_id); reflexivity.
Qed.

Lemma log_get_conversation_history w user_id :
  calendar_log (snd (get_conversation_history user_id w)) = calendar_log w.
Proof.
  unfold get_conversation_history.
  destruct (conversation_history w !! user_id); reflexivity.
Qed.

Lemma limit_get_conversation_history w user_id :
  memory_limit (snd (get_conversation_history user_id w)) = memory_limit w.
Proof.
  unfold get_conversation_history.
  destruct (conversation_history w !! user_id); reflexivity.
Qed.

Lemma stored_after_add w user_id role text :
  Memory.stored (snd (add_to_history user_id role text w)) user_id
  = Memory.appended (memory_limit w) (Memory.stored w user_id) (Turn role text).
Proof.
  rewrite StateFacts.add_to_history_turn. unfold Memory.stored at 1. simpl.
  rewrite lookup_insert_eq. reflexivity.
Qed.

End ChatFacts.

(** X4.  The message "forget" or "reset", in any case, empties the history
    of the sender, leaves the histories of the other users and the log of
    requests as they were, and is answered with the fixed confirmation. *)
Theorem reset_clears_own_history (sv : services) (user_id content : string) (w : world) :
  lower content = "forget" \/ lower content = "reset" ->
  fst (run sv user_id content w) = Ret "I've reset our conversation history."
  /\ Memory.stored (snd (run sv user_id content w)) user_id = []
  /\ (forall other, other ≠ user_id ->
        Memory.stored (snd (run sv user_id content w)) other = Memory.stored w other)
  /\ calendar_log (snd (run sv user_id content w)) = calendar_log w.
Proof.
  intros Hmsg.
  assert (Hrun : run sv user_id content w =
                 (Ret "I've reset our conversation history.",
                  snd (set_history user_id [] (snd (get_conversation_history user_id w))))).
  { unfold run. destruct Hmsg as [-> | ->]; cbn [any_equal existsb location_queries];
      simpl; unfold mbind, M_bind;
      rewrite ChatFacts.get_conversation_history_run; reflexivity. }
  rewrite Hrun. cbn [fst snd]. split; [reflexivity|]. split; [|split].
  - rewrite StateFacts.stored_set_history. destruct (decide (user_id = user_id)); congruence.
  - intros other Hne. rewrite StateFacts.stored_set_history.
    destruct (decide (user_id = other)); [congruence|].
    apply StateFacts.stored_get_conversation_history.
  - simpl. apply ChatFacts.log_get_conversation_history.
Qed.

Lemma reset_clears_own_history_witness :
  fst (run Demo.healthy "7" "Reset" Demo.two_users) = Ret "I've reset our conversation history."
  /\ Memory.stored (snd (run Demo.healthy "7" "Reset" Demo.two_users)) "7" = []
  /\ (forall other, other ≠ "7" ->
        Memory.stored (snd (run Demo.healthy "7" "Reset" Demo.two_users)) other
        = Memory.stored Demo.two_users other)
  /\ calendar_log (snd (run Demo.healthy "7" "Reset" Demo.two_users))
     = calendar_log Demo.two_users.
Proof.
  apply (reset_clears_own_history Demo.healthy "7" "Reset" Demo.two_users).
  right. reflexivity.
Defined.

(** X5.  When the context of a general chat message is assembled and the
    chat call answers, the reply is the content of the first choice, and the
    history of the sender receives the message and then the reply, each by
    one bounded append; the chat call is given the system prompt, the
    history as it was, and the message behind the context.  No insert
    and no update request is sent to the calendar: the log of the requests
    that change the calendar is as it was (the listing requests of the
    context assembly are not part of that log). *)
Theorem general_chat_reply_and_memory (sv : services) (user_id content : string)
    (w : world) (context : string * string) (reply : string) (others : list string) :
  classify content = GeneralChat ->
  build_context sv (lower content) = Ret context ->
  sv_chat_complete sv
    ([Turn "system" SYSTEM_PROMPT] ++ Memory.stored w user_id ++
     [Turn "user" (fst context +:+ snd context +:+ nl +:+ content)])
  = Ret (reply :: others) ->
  fst (run sv user_id content w) = Ret reply
  /\ Memory.stored (snd (run sv user_id content w)) user_id
     = Memory.appended (memory_limit w)
         (Memory.appended (memory_limit w) (Memory.stored w user_id) (Turn "user" content))
         (Turn "assistant" reply)
  /\ calendar_log (snd (run sv user_id content w)) = calendar_log w.
Proof.
  intros Hintent Hcontext Hchat.
  rewrite FailureFacts.run_general_chat_unfold by exact Hintent.
  set (w0 := snd (get_conversation_history user_id w)).
  assert (Hstored0 : Memory.stored w0 user_id = Memory.stored w user_id)
    by apply StateFacts.stored_get_conversation_history.
  assert (Hlimit0 : memory_limit w0 = memory_limit w)
    by apply ChatFacts.limit_get_conversation_history.
  assert (Hlog0 : calendar_log w0 = calendar_log w)
    by apply ChatFacts.log_get_conversation_history.
  unfold run_general_chat, mbind, M_bind, lift. rewrite Hcontext.
  unfold chat_messages. rewrite Hchat.
  rewrite !StateFacts.add_to_history_turn. cbn [first_choice fst snd].
  rewrite StateFacts.add_to_history_turn. cbn [fst snd memory_limit calendar_log].
  split; [reflexivity|]. split; [|exact Hlog0].
  unfold Memory.stored at 1. cbn [conversation_history].
  rewrite lookup_insert_eq. cbn [default]. rewrite Hlimit0. f_equal.
  unfold Memory.stored at 1. cbn [conversation_history].
  rewrite lookup_insert_eq. cbn [default]. rewrite Hstored0. reflexivity.
Qed.

Lemma general_chat_reply_and_memory_witness :
  fst (run Demo.healthy "7" "hello" Demo.two_users) = Ret "Sure."
  /\ Memory.stored (snd (run Demo.healthy "7" "hello" Demo.two_users)) "7"
     = Memory.appended (memory_limit Demo.two_users)
         (Memory.appended (memory_limit Demo.two_users) (Memory.stored Demo.two_users "7")
            (Turn "user" "hello"))
         (Turn "assistant" "Sure.")
  /\ calendar_log (snd (run Demo.healthy "7" "hello" Demo.two_users))
     = calendar_log Demo.two_users.
Proof.
  apply (general_chat_reply_and_memory Demo.healthy "7" "hello" Demo.two_users
           ("My location: Boston, Massachusetts, United States" +:+ nl +:+
            "Current weather in Boston: clear sky" +:+ nl, EmptyString)
           "Sure." []); reflexivity.
Defined.

(** X6.  When the assembly of the context or the chat call of a general chat
    message raises, [run] raises the same exception and no turn is stored:
    the history of every user, the sender included, is as it was. *)
Theorem failed_chat_stores_nothing (sv : services) (user_id content : string)
    (w : world) (e : string) :
  classify content = GeneralChat ->
  match build_context sv (lower content) with
  | Raise e' => e' = e
  | Ret context =>
      sv_chat_complete sv (chat_messages (Memory.stored w user_id) context content) = Raise e
  end ->
  fst (run sv user_id content w) = Raise e
  /\ (forall other,
        Memory.stored (snd (run sv user_id content w)) other = Memory.stored w other)
  /\ calendar_log (snd (run sv user_id content w)) = calendar_log w.
Proof.
  intros Hintent Hfail.
  rewrite FailureFacts.run_general_chat_unfold by exact Hintent.
  unfold run_general_chat, mbind, M_bind, lift.
  destruct (build_context sv (lower content)) as [context|e'].
  - rewrite Hfail. cbn [fst snd]. split; [reflexivity|]. split.
    + intros other. apply StateFacts.stored_get_conversation_history.
    + apply ChatFacts.log_get_conversation_history.
  - subst e'. cbn [fst snd]. split; [reflexivity|]. split.
    + intros other. apply StateFacts.stored_get_conversation_history.
    + apply ChatFacts.log_get_conversation_history.
Qed.

Lemma failed_chat_stores_nothing_witness :
  fst (run Demo.llm_down "7" "hello" Demo.two_users) = Raise "API error occurred: Status 503"
  /\ (forall other,
        Memory.stored (snd (run Demo.llm_down "7" "hello" Demo.two_users)) other
        = Memory.stored Demo.two_users other)
  /\ calendar_log (snd (run Demo.llm_down "7" "hello" Demo.two_users))
     = calendar_log Demo.two_users.
Proof.
  apply (failed_chat_stores_nothing Demo.llm_down "7" "hello" Demo.two_users
           "API error occurred: Status 503"); reflexivity.
Defined.

(** X7.  When the chat call answers without any choice, [run] raises the
    index error of [response.choices[0]] after the message of the user was
    appended: the history of the sender then holds the message without a
    reply. *)
Theorem empty_answer_stores_message_only (sv : services) (user_id content : string)
    (w : world) (context : string * string) :
  classify content = GeneralChat ->
  build_context sv (lower content) = Ret context ->
  sv_chat_complete sv (chat_messages (Memory.stored w user_id) context content) = Ret [] ->
  fst (run sv user_id content w) = Raise "list index out of range"
  /\ Memory.stored (snd (run sv user_id content w)) user_id
     = Memory.appended (memory_limit w) (Memory.stored w user_id) (Turn "user" content).
Proof.
  intros Hintent Hcontext Hchat.
  rewrite FailureFacts.run_general_chat_unfold by exact Hintent.
  set (w0 := snd (get_conversation_history user_id w)).
  assert (Hstored0 : Memory.stored w0 user_id = Memory.stored w user_id)
    by apply StateFacts.stored_get_conversation_history.
  assert (Hlimit0 : memory_limit w0 = memory_limit w)
    by apply ChatFacts.limit_get_conversation_history.
  unfold run_general_chat, mbind, M_bind, lift. rewrite Hcontext, Hchat.
  rewrite StateFacts.add_to_history_turn. cbn [first_choice fst snd].
  split; [reflexivity|].
  unfold Memory.stored at 1. cbn [conversation_history].
  rewrite lookup_insert_eq. cbn [default]. rewrite Hlimit0, Hstored0. reflexivity.
Qed.

Lemma empty_answer_stores_message_only_witness :
  fst (run Demo.no_choice "7" "hello" Demo.two_users) = Raise "list index out of range"
  /\ Memory.stored (snd (run Demo.no_choice "7" "hello" Demo.two_users)) "7"
     = Memory.appended (memory_limit Demo.two_users) (Memory.stored Demo.two_users "7")
         (Turn "user" "hello").
Proof.
  apply (empty_answer_stores_message_only Demo.no_choice "7" "hello" Demo.two_users
           ("My location: Boston, Massachusetts, United States" +:+ nl +:+
            "Current weather in Boston: clear sky" +:+ nl, EmptyString)); reflexivity.
Defined.

(** X8.  A message that is not general chat (a location query, a reset or
    one of the four calendar commands) is always answered with a text:
    whatever the language model, the calendar and the other services do,
    [run] does not raise. *)
Theorem commands_always_answered (sv : services) (user_id content : string) (w : world) :
  classify content ≠ GeneralChat ->
  exists reply, fst (run sv user_id content w) = Ret reply.
Proof.
  intros Hintent.
  apply (FailureFacts.run_returns_outside_general_chat sv user_id content Hintent w).
Qed.

Lemma commands_always_answered_witness :
  exists reply, fst (run Demo.calendar_down "42" "postpone standup 2 hours" init_world)
                = Ret reply.
Proof.
  apply (commands_always_answered Demo.calendar_down "42" "postpone standup 2 hours" init_world).
  discriminate.
Defined.

(** ** The calendar commands *)

Module CommandFacts.

Lemma merged_time_field sv (fetched : event) key dt :
  exists nested,
    merged fetched key (time_field sv dt) = VDict nested
    /\ nested !! "dateTime" = Some (VStr (sv_isoformat sv dt))
    /\ nested !! "timeZone" = Some (VStr (sv_timezone sv)).
Proof.
  assert (Hdate : (<["dateTime" := VStr (sv_isoformat sv dt)]>
                     (<["timeZone" := VStr (sv_timezone sv)]> (∅ : gmap string value)))
                  !! "dateTime" = Some (VStr (sv_isoformat sv dt)))
    by apply lookup_insert_eq.
  assert (Hzone : (<["dateTime" := VStr (sv_isoformat sv dt)]>
                     (<["timeZone" := VStr (sv_timezone sv)]> (∅ : gmap string value)))
                  !! "timeZone" = Some (VStr (sv_timezone sv)))
    by (rewrite lookup_insert_ne by discriminate; apply lookup_insert_eq).
  unfold merged, time_field.
  destruct (fetched !! key) as [[| | | | |old]|];
    eexists; (split; [reflexivity|]);
    split; first [assumption | apply lookup_union_Some_l; assumption].
Qed.

Lemma dt_add_wall dt delta dt' :
  dt_add dt delta = Ret dt' -> wall_us dt' = (wall_us dt + delta)%Z.
Proof.
  unfold dt_add.
  destruct ((0 <=? wall_us dt + delta)%Z && (wall_us dt + delta <=? max_wall_us)%Z);
    [|discriminate].
  intros H. injection H as <-. reflexivity.
Qed.

(** What [modify_event] answers once the stored event was read and the
    changes were merged. *)
Lemma modify_event_run sv event_id changes ev body w :
  sv_events_get sv event_id = Ret ev ->
  apply_changes ev changes = Ret body ->
  modify_event sv event_id changes w =
  (Ret match sv_events_update sv event_id body with
       | Ret result =>
           "Event updated successfully: " +:+ fmt sv (dict_get result "htmlLink" VNull)
       | Raise e => "Failed to modify event: " +:+ e
       end,
   World (conversation_history w) (memory_limit w)
         (calendar_log w ++ [CalUpdate event_id body])).
Proof.
  intros Hget Happly.
  unfold modify_event, try_except, mbind, M_bind, lift, log_request.
  rewrite Hget, Happly.
  destruct (sv_events_update sv event_id body); reflexivity.
Qed.

Lemma modify_event_unread sv event_id changes e w :
  sv_events_get sv event_id = Raise e ->
  modify_event sv event_id changes w = (Ret ("Failed to modify event: " +:+ e), w).
Proof.
  intros Hget. unfold modify_event, try_except, mbind, M_bind, lift.
  rewrite Hget. reflexivity.
Qed.

Lemma find_target_event_no_summary name pre ev post :
  forallb (differs_up_to_case name) pre = true ->
  ev !! "summary" = None ->
  find_target_event (pre ++ ev :: post) name = Raise "'summary'".
Proof.
  intros Hpre Hev. rewrite (Resolver.find_target_event_skip name pre (ev :: post) Hpre).
  simpl. unfold dict_getitem. rewrite Hev. reflexivity.
Qed.

End CommandFacts.

(** X9.  When [postpone_event] finds the event and can read its start and
    end, it sends one update of that event in which the start and the end
    are both moved by the given number of hours, so that the length of the
    event is kept; the new times are written into the start and end objects
    of the stored event and every other field of the stored event is sent
    back unchanged. *)
Theorem postpone_moves_start_and_end (sv : services) (name : string) (hours : Z)
    (w : world) (events : list event) (target : event)
    (start_time end_time new_start new_end : datetime)
    (event_id : value) (fetched : event) :
  sv_events_list sv (upcoming_request sv 10) = Ret events ->
  find_target_event events name = Ret (Some target) ->
  event_time sv target "start" = Ret start_time ->
  event_time sv target "end" = Ret end_time ->
  timedelta_hours hours = Ret (hours * hour_us)%Z ->
  dt_add start_time (hours * hour_us) = Ret new_start ->
  dt_add end_time (hours * hour_us) = Ret new_end ->
  target !! "id" = Some event_id ->
  sv_events_get sv event_id = Ret fetched ->
  forallb (mergeable fetched)
    [("start", time_field sv new_start); ("end", time_field sv new_end)] = true ->
  exists body start_object end_object,
    calendar_log (snd (postpone_event sv name hours w))
    = calendar_log w ++ [CalUpdate event_id body]
    /\ body !! "start" = Some (VDict start_object)
    /\ start_object !! "dateTime" = Some (VStr (sv_isoformat sv new_start))
    /\ body !! "end" = Some (VDict end_object)
    /\ end_object !! "dateTime" = Some (VStr (sv_isoformat sv new_end))
    /\ (forall key, key ≠ "start" -> key ≠ "end" -> body !! key = fetched !! key)
    /\ wall_us new_start = (wall_us start_time + hours * hour_us)%Z
    /\ (wall_us new_end - wall_us new_start = wall_us end_time - wall_us start_time)%Z.
Proof.
  intros Hlist Hfind Hstart Hend Hdelta Hnew_start Hnew_end Hid Hget Hmerge.
  set (changes := [("start", time_field sv new_start); ("end", time_field sv new_end)]).
  destruct (MergeFacts.apply_changes_spec changes fetched) as (body & Hbody & Hframe & Hmerged).
  { repeat (apply NoDup_cons; split;
            [rewrite ?elem_of_cons, elem_of_nil; intuition discriminate|]).
    apply NoDup_nil_2. }
  { exact Hmerge. }
  destruct (CommandFacts.merged_time_field sv fetched "start" new_start)
    as (start_object & Hs1 & Hs2 & _).
  destruct (CommandFacts.merged_time_field sv fetched "end" new_end)
    as (end_object & He1 & He2 & _).
  exists body, start_object, end_object.
  pose proof (CommandFacts.dt_add_wall _ _ _ Hnew_start) as Hw1.
  pose proof (CommandFacts.dt_add_wall _ _ _ Hnew_end) as Hw2.
  split; [|split; [|split; [|split; [|split; [|split; [|split]]]]]].
  - unfold postpone_event, try_except, mbind, M_bind, lift, get_upcoming_events.
    rewrite Hlist, Hfind. unfold target_missing.
    rewrite (AttendeeFacts.truthy_nonempty target "id" event_id Hid). cbn [negb].
    rewrite Hstart, Hend, Hdelta, Hnew_start, Hnew_end.
    unfold dict_getitem. rewrite Hid.
    fold changes. rewrite (CommandFacts.modify_event_run sv event_id changes fetched body w Hget Hbody).
    reflexivity.
  - rewrite (Hmerged "start" (time_field sv new_start)), Hs1; [reflexivity|].
    unfold changes. left.
  - exact Hs2.
  - rewrite (Hmerged "end" (time_field sv new_end)), He1; [reflexivity|].
    unfold changes. right. left.
  - exact He2.
  - intros key Hne1 Hne2. apply Hframe. unfold changes. simpl.
    rewrite !elem_of_cons, elem_of_nil. intuition congruence.
  - exact Hw1.
  - lia.
Qed.

Lemma postpone_moves_start_and_end_witness :
  exists body start_object end_object,
    calendar_log (snd (postpone_event Demo.healthy "standup" 2 init_world))
    = calendar_log init_world ++ [CalUpdate (VStr "ev1") body]
    /\ body !! "start" = Some (VDict start_object)
    /\ start_object !! "dateTime"
       = Some (VStr (sv_isoformat Demo.healthy (Datetime (1000 + 2 * hour_us) (Some (-18000)%Z))))
    /\ body !! "end" = Some (VDict end_object)
    /\ end_object !! "dateTime"
       = Some (VStr (sv_isoformat Demo.healthy (Datetime (2000 + 2 * hour_us) (Some (-18000)%Z))))
    /\ (forall key, key ≠ "start" -> key ≠ "end" -> body !! key = Demo.standup !! key)
    /\ wall_us (Datetime (1000 + 2 * hour_us) (Some (-18000)%Z))
       = (wall_us (Datetime 1000 (Some (-18000)%Z)) + 2 * hour_us)%Z
    /\ (wall_us (Datetime (2000 + 2 * hour_us) (Some (-18000)%Z))
        - wall_us (Datetime (1000 + 2 * hour_us) (Some (-18000)%Z))
        = wall_us (Datetime 2000 (Some (-18000)%Z)) - wall_us (Datetime 1000 (Some (-18000)%Z)))%Z.
Proof.
  apply (postpone_moves_start_and_end Demo.healthy "standup" 2 init_world Demo.events
           Demo.standup (Datetime 1000 (Some (-18000)%Z)) (Datetime 2000 (Some (-18000)%Z))
           (Datetime (1000 + 2 * hour_us) (Some (-18000)%Z))
           (Datetime (2000 + 2 * hour_us) (Some (-18000)%Z))
           (VStr "ev1") Demo.standup); reflexivity.
Defined.

(** X10.  An event whose start object has no 'dateTime' key (an all-day
    event carries 'date' instead) cannot be postponed: the reply is
    "Failed to postpone event: 'dateTime'" and nothing is sent to the
    calendar. *)
Theorem postpone_all_day_event_fails (sv : services) (name : string) (hours : Z)
    (w : world) (events : list event) (target : event) (start : gmap string value) :
  sv_events_list sv (upcoming_request sv 10) = Ret events ->
  find_target_event events name = Ret (Some target) ->
  target !! "start" = Some (VDict start) ->
  start !! "dateTime" = None ->
  postpone_event sv name hours w = (Ret "Failed to postpone event: 'dateTime'", w).
Proof.
  intros Hlist Hfind Hstart Hdate.
  unfold postpone_event, try_except, mbind, M_bind, lift, get_upcoming_events.
  rewrite Hlist, Hfind. unfold target_missing.
  rewrite (AttendeeFacts.truthy_nonempty target "start" _ Hstart). cbn [negb].
  unfold event_time, mbind, outcome_bind, dict_getitem. rewrite Hstart.
  cbn [getitem]. unfold dict_getitem. rewrite Hdate. reflexivity.
Qed.

Lemma postpone_all_day_event_fails_witness :
  postpone_event Demo.holidays "holiday" 1 init_world
  = (Ret "Failed to postpone event: 'dateTime'", init_world).
Proof.
  apply (postpone_all_day_event_fails Demo.holidays "holiday" 1 init_world
           [Demo.holiday] Demo.holiday (<["date" := VStr "2025-07-04"]> ∅)); reflexivity.
Defined.

(** X11.  An event without a summary that stands in the window before any
    match stops the search: each of the three name-based operations replies
    with its failure text for the missing key 'summary' and sends nothing,
    also when a later event has the name. *)
Theorem untitled_event_stops_search (sv : services) (name : string) (w : world)
    (pre post : list event) (ev : event) :
  sv_events_list sv (upcoming_request sv 10) = Ret (pre ++ ev :: post) ->
  forallb (differs_up_to_case name) pre = true ->
  ev !! "summary" = None ->
  (forall hours,
      postpone_event sv name hours w = (Ret "Failed to postpone event: 'summary'", w))
  /\ (forall new_location,
        update_event_location sv name new_location w
        = (Ret "Failed to update event location: 'summary'", w))
  /\ (forall attendees,
        update_event_attendees sv name attendees w
        = (Ret "Failed to update event attendees: 'summary'", w)).
Proof.
  intros Hlist Hpre Hev.
  pose proof (CommandFacts.find_target_event_no_summary name pre ev post Hpre Hev) as Hfind.
  repeat split; intros;
    unfold postpone_event, update_event_location, update_event_attendees,
      try_except, mbind, M_bind, lift, get_upcoming_events;
    rewrite Hlist, Hfind; reflexivity.
Qed.

Lemma untitled_event_stops_search_witness :
  (forall hours,
      postpone_event Demo.untitled_first "standup" hours init_world
      = (Ret "Failed to postpone event: 'summary'", init_world))
  /\ (forall new_location,
        update_event_location Demo.untitled_first "standup" new_location init_world
        = (Ret "Failed to update event location: 'summary'", init_world))
  /\ (forall attendees,
        update_event_attendees Demo.untitled_first "standup" attendees init_world
        = (Ret "Failed to update event attendees: 'summary'", init_world)).
Proof.
  apply (untitled_event_stops_search Demo.untitled_first "standup" init_world
           [] [Demo.standup] Demo.untitled); reflexivity.
Defined.

(** X12.  When [update_event_location] finds the event and reads the stored
    event, it sends the stored event with only the location replaced, and
    its reply starts with "Updated location for '<name>' to: <location>"
    whether the calendar accepts the update (the link of the result follows)
    or rejects it (the text "Failed to modify event: ..." follows). *)
Theorem update_location_replaces_location_only (sv : services) (name new_location : string)
    (w : world) (events : list event) (target : event) (event_id : value) (fetched : event) :
  sv_events_list sv (upcoming_request sv 10) = Ret events ->
  find_target_event events name = Ret (Some target) ->
  target !! "id" = Some event_id ->
  sv_events_get sv event_id = Ret fetched ->
  let body := <["location" := VStr new_location]> fetched in
  calendar_log (snd (update_event_location sv name new_location w))
  = calendar_log w ++ [CalUpdate event_id body]
  /\ (forall key, key ≠ "location" -> body !! key = fetched !! key)
  /\ fst (update_event_location sv name new_location w)
     = Ret ("Updated location for '" +:+ name +:+ "' to: " +:+ new_location +:+ nl +:+
            match sv_events_update sv event_id body with
            | Ret result =>
                "Event updated successfully: " +:+ fmt sv (dict_get result "htmlLink" VNull)
            | Raise e => "Failed to modify event: " +:+ e
            end).
Proof.
  intros Hlist Hfind Hid Hget body.
  assert (Hrun : update_event_location sv name new_location w =
                 (Ret ("Updated location for '" +:+ name +:+ "' to: " +:+ new_location +:+
                       nl +:+
                       match sv_events_update sv event_id body with
                       | Ret result =>
                           "Event updated successfully: " +:+
                           fmt sv (dict_get result "htmlLink" VNull)
                       | Raise e => "Failed to modify event: " +:+ e
                       end),
                  World (conversation_history w) (memory_limit w)
                        (calendar_log w ++ [CalUpdate event_id body]))).
  { unfold update_event_location, try_except, mbind, M_bind, lift, get_upcoming_events.
    rewrite Hlist, Hfind. unfold target_missing.
    rewrite (AttendeeFacts.truthy_nonempty target "id" event_id Hid). cbn [negb].
    unfold dict_getitem. rewrite Hid.
    rewrite (CommandFacts.modify_event_run sv event_id [("location", VStr new_location)]
               fetched body w Hget eq_refl).
    reflexivity. }
  rewrite Hrun. split; [reflexivity|]. split; [|reflexivity].
  intros key Hne. unfold body. apply lookup_insert_ne. congruence.
Qed.

Lemma update_location_replaces_location_only_witness :
  calendar_log (snd (update_event_location Demo.healthy "demo day" "room 2" init_world))
  = calendar_log init_world
    ++ [CalUpdate (VStr "ev2") (<["location" := VStr "room 2"]> Demo.demo_day)]
  /\ (forall key, key ≠ "location" ->
        (<["location" := VStr "room 2"]> Demo.demo_day) !! key = Demo.demo_day !! key)
  /\ fst (update_event_location Demo.healthy "demo day" "room 2" init_world)
     = Ret ("Updated location for '" +:+ "demo day" +:+ "' to: " +:+ "room 2" +:+ nl +:+
            match sv_events_update Demo.healthy (VStr "ev2")
                    (<["location" := VStr "room 2"]> Demo.demo_day) with
            | Ret result =>
                "Event updated successfully: " +:+
                fmt Demo.healthy (dict_get result "htmlLink" VNull)
            | Raise e => "Failed to modify event: " +:+ e
            end).
Proof.
  apply (update_location_replaces_location_only Demo.healthy "demo day" "room 2" init_world
           Demo.events Demo.demo_day (VStr "ev2") Demo.demo_day); reflexivity.
Defined.

(** X13.  When the stored event cannot be read, [update_event_location]
    sends nothing, and its reply still starts with the sentence
    "Updated location for ..." before the failure text of [modify_event]. *)
Theorem update_location_reports_success_on_failure (sv : services)
    (name new_location : string) (w : world) (events : list event) (target : event)
    (event_id : value) (e : string) :
  sv_events_list sv (upcoming_request sv 10) = Ret events ->
  find_target_event events name = Ret (Some target) ->
  target !! "id" = Some event_id ->
  sv_events_get sv event_id = Raise e ->
  update_event_location sv name new_location w
  = (Ret ("Updated location for '" +:+ name +:+ "' to: " +:+ new_location +:+ nl +:+
          "Failed to modify event: " +:+ e), w).
Proof.
  intros Hlist Hfind Hid Hget.
  unfold update_event_location, try_except, mbind, M_bind, lift, get_upcoming_events.
  rewrite Hlist, Hfind. unfold target_missing.
  rewrite (AttendeeFacts.truthy_nonempty target "id" event_id Hid). cbn [negb].
  unfold dict_getitem. rewrite Hid.
  rewrite (CommandFacts.modify_event_unread sv event_id _ e w Hget). reflexivity.
Qed.

Lemma update_location_reports_success_on_failure_witness :
  update_event_location Demo.gone "standup" "room 2" init_world
  = (Ret ("Updated location for '" +:+ "standup" +:+ "' to: " +:+ "room 2" +:+ nl +:+
          "Failed to modify event: " +:+ "Not Found"), init_world).
Proof.
  apply (update_location_reports_success_on_failure Demo.gone "standup" "room 2" init_world
           Demo.events Demo.standup (VStr "ev1") "Not Found"); reflexivity.
Defined.

(** ** Event creation requests *)

Module CreateFacts.

Lemma substring_all s m : String.length s <= m -> String.substring 0 m s = s.
Proof.
  revert m. induction s as [|c s IH]; intros m Hlen.
  - destruct m; reflexivity.
  - destruct m as [|m]; [simpl in Hlen; lia|].
    simpl. rewrite IH by (simpl in Hlen; lia). reflexivity.
Qed.

Lemma substring_after a rest m :
  String.length rest <= m ->
  String.substring (String.length a) m (a +:+ rest) = rest.
Proof.
  intros Hlen. induction a as [|c a IH].
  - apply substring_all, Hlen.
  - rewrite PyStrFacts.append_cons. simpl. exact IH.
Qed.

Lemma split_once_aux_unfold sep cur s :
  split_once_aux sep cur s =
  if startswith sep s
  then Some (cur, String.substring (String.length sep) (String.length s) s)
  else match s with
       | EmptyString => None
       | String c s' => split_once_aux sep (cur +:+ String c EmptyString) s'
       end.
Proof. destruct s; reflexivity. Qed.

(** The cut is made at the first place where the separator starts. *)
Lemma split_once_aux_first sep cur a rest :
  no_start_within sep a (sep +:+ rest) = true ->
  split_once_aux sep cur (a +:+ sep +:+ rest) = Some (cur +:+ a, rest).
Proof.
  revert cur. induction a as [|c a IH]; intros cur H.
  - rewrite PyStrFacts.append_nil, PyStrFacts.append_empty_r, split_once_aux_unfold.
    rewrite PyStrFacts.startswith_app.
    rewrite substring_after; [reflexivity|].
    rewrite PyStrFacts.length_append. lia.
  - cbn [no_start_within] in H. apply andb_true_iff in H as [Hstart Hrest].
    apply negb_true_iff in Hstart.
    rewrite split_once_aux_unfold, Hstart, PyStrFacts.append_cons.
    rewrite (IH _ Hrest), PyStrFacts.append_assoc. reflexivity.
Qed.

Lemma split_once_aux_none sep cur s :
  contains sep s = false -> split_once_aux sep cur s = None.
Proof.
  revert cur. induction s as [|c s IH]; intros cur H;
    rewrite PyStrFacts.contains_unfold in H; apply orb_false_iff in H as [Hstart Hrest];
    rewrite split_once_aux_unfold, Hstart; [reflexivity | apply IH, Hrest].
Qed.

Lemma rsplit_head_app sep a rest h :
  rsplit_head sep rest = Some h -> rsplit_head sep (a +:+ rest) = Some (a +:+ h).
Proof.
  intros H. induction a as [|c a IH]; [exact H|].
  rewrite !PyStrFacts.append_cons. cbn [rsplit_head]. rewrite IH. reflexivity.
Qed.

Lemma rstrip_app a b :
  is_empty (rstrip b) = false -> rstrip (a +:+ b) = a +:+ rstrip b.
Proof.
  intros H. induction a as [|c a IH]; [reflexivity|].
  rewrite !PyStrFacts.append_cons. cbn [rstrip]. rewrite IH.
  destruct (a +:+ rstrip b) eqn:E.
  - destruct a; [rewrite PyStrFacts.append_nil in E; rewrite E in H; discriminate
                | rewrite PyStrFacts.append_cons in E; discriminate].
  - cbn [is_empty]. rewrite andb_false_r. reflexivity.
Qed.

Lemma strip_fenced lang body : strip (fenced lang body) = fenced lang body.
Proof.
  unfold strip, fenced.
  change (lstrip ("```" +:+ lang +:+ nl +:+ body +:+ nl +:+ "```"))
    with ("```" +:+ lang +:+ nl +:+ body +:+ nl +:+ "```").
  rewrite <- !PyStrFacts.append_assoc.
  rewrite rstrip_app by reflexivity. reflexivity.
Qed.

Lemma no_newline_in_fence lang :
  contains nl lang = false -> contains nl ("```" +:+ lang) = false.
Proof.
  intros H.
  change ("```" +:+ lang) with (String "`" (String "`" (String "`" lang))).
  rewrite !(PyStrFacts.contains_unfold nl (String "`" _)). rewrite H. reflexivity.
Qed.

Lemma strip_code_fence_fenced lang body :
  contains nl lang = false -> strip_code_fence (fenced lang body) = Ret body.
Proof.
  intros Hlang. unfold strip_code_fence. rewrite strip_fenced.
  unfold fenced at 1.
  change (startswith "```" ("```" +:+ lang +:+ nl +:+ body +:+ nl +:+ "```"))
    with (startswith "```" ("```" +:+ (lang +:+ nl +:+ body +:+ nl +:+ "```"))).
  rewrite PyStrFacts.startswith_app.
  unfold split_once, fenced.
  rewrite <- (PyStrFacts.append_assoc "```" lang).
  rewrite (split_once_aux_first nl EmptyString ("```" +:+ lang) (body +:+ nl +:+ "```")).
  - unfold rsplit_once_head.
    rewrite (rsplit_head_app nl body (nl +:+ "```") EmptyString eq_refl).
    rewrite PyStrFacts.append_empty_r. reflexivity.
  - apply (PyStrFacts.no_start_within_intro EmptyString "010"%char).
    rewrite PyStrFacts.append_empty_r. apply no_newline_in_fence, Hlang.
Qed.

Lemma day_later_at_noon now later :
  dt_add now day_us = Ret later ->
  dt_at_noon later
  = Datetime ((wall_us now / day_us + 1) * day_us + 12 * hour_us)%Z (utcoffset now).
Proof.
  unfold dt_add.
  destruct ((0 <=? wall_us now + day_us)%Z && (wall_us now + day_us <=? max_wall_us)%Z);
    [|discriminate].
  intros H. injection H as <-. unfold dt_at_noon. cbn [wall_us utcoffset].
  f_equal. f_equal. f_equal.
  replace (wall_us now + day_us)%Z with (wall_us now + 1 * day_us)%Z by lia.
  apply Z.div_add. discriminate.
Qed.

End CreateFacts.

(** X14.  When the start time that the language model extracted cannot be
    resolved, no event is created and nothing is sent to the calendar, and
    the reply of the creation branch still starts with "Event created!"
    before the failure text of [create_event]. *)
Theorem failed_creation_reports_created (sv : services) (content : string) (w : world)
    (reply : string) (others : list string) (text : string) (info : gmap string value)
    (summary start_time : value) (e : string) :
  sv_chat_complete sv (extraction_messages content) = Ret (reply :: others) ->
  strip_code_fence reply = Ret text ->
  sv_json_loads sv text = Ret (VDict info) ->
  info !! "summary" = Some summary ->
  info !! "start_time" = Some start_time ->
  resolve_start sv start_time = Raise e ->
  run_create_event sv content w
  = (Ret ("✅ Event created!" +:+ nl +:+ "Failed to create event: " +:+ e), w).
Proof.
  intros Hchat Hfence Hjson Hsummary Hstart Hresolve.
  unfold run_create_event, try_except, mbind, M_bind, lift.
  fold (extraction_messages content). rewrite Hchat. cbn [first_choice].
  rewrite Hfence, Hjson. cbn [getitem value_get]. unfold dict_getitem.
  rewrite Hsummary, Hstart.
  unfold create_event, try_except, mbind, M_bind, lift. rewrite Hresolve. reflexivity.
Qed.

Lemma failed_creation_reports_created_witness :
  run_create_event Demo.vague "schedule a call next week" init_world
  = (Ret ("✅ Event created!" +:+ nl +:+ "Failed to create event: " +:+
          "Invalid isoformat string: 'next week'"), init_world).
Proof.
  apply (failed_creation_reports_created Demo.vague "schedule a call next week" init_world
           "{}" [] "{}"
           (<["summary" := VStr "Call"]> (<["start_time" := VStr "next week"]> ∅))
           (VStr "Call") (VStr "next week")); reflexivity.
Defined.

(** X15.  An answer of the language model that wraps the JSON text in a
    Markdown code fence with a language tag is unwrapped to the text between
    the fences before it is parsed. *)
Theorem code_fence_is_removed (lang body : string) :
  contains nl lang = false ->
  strip_code_fence ("```" +:+ lang +:+ nl +:+ body +:+ nl +:+ "```") = Ret body.
Proof. apply CreateFacts.strip_code_fence_fenced. Qed.

Lemma code_fence_is_removed_witness :
  strip_code_fence ("```" +:+ "json" +:+ nl +:+ "{}" +:+ nl +:+ "```") = Ret "{}".
Proof. apply (code_fence_is_removed "json" "{}"). reflexivity. Defined.

(** X16.  An answer that starts with a code fence and holds no line break
    makes the creation branch reply
    "Failed to create event: list index out of range"; nothing is parsed and
    nothing is sent. *)
Theorem fence_without_line_break_fails (sv : services) (content : string) (w : world)
    (reply : string) (others : list string) :
  sv_chat_complete sv (extraction_messages content) = Ret (reply :: others) ->
  startswith "```" (strip reply) = true ->
  contains nl (strip reply) = false ->
  run_create_event sv content w
  = (Ret "Failed to create event: list index out of range", w).
Proof.
  intros Hchat Hfence Hline.
  unfold run_create_event, try_except, mbind, M_bind, lift.
  fold (extraction_messages content). rewrite Hchat. cbn [first_choice].
  unfold strip_code_fence. rewrite Hfence. unfold split_once.
  rewrite (CreateFacts.split_once_aux_none nl EmptyString (strip reply) Hline).
  reflexivity.
Qed.

Lemma fence_without_line_break_fails_witness :
  run_create_event Demo.fenced_line "schedule a call" init_world
  = (Ret "Failed to create event: list index out of range", init_world).
Proof.
  apply (fence_without_line_break_fails Demo.fenced_line "schedule a call" init_world
           "```{}```" []); reflexivity.
Defined.

(** X17.  A start time that does not end in 'Z' and mentions "tomorrow", in
    any case, is resolved to noon of the day after the current local day,
    whatever else the text says; the text is not parsed as a date. *)
Theorem tomorrow_means_noon (sv : services) (text : string) (later : datetime) :
  endswith "Z" text = false ->
  contains "tomorrow" (lower text) = true ->
  dt_add (sv_now sv) day_us = Ret later ->
  resolve_start sv (VStr text)
  = sv_astimezone sv
      (Datetime ((wall_us (sv_now sv) / day_us + 1) * day_us + 12 * hour_us)%Z
                (utcoffset (sv_now sv))).
Proof.
  intros Hend Htomorrow Hadd.
  unfold resolve_start, get_local_time. rewrite Hend, Htomorrow. cbn [negb].
  change (timedelta_days 1) with (Ret (A := Z) day_us).
  unfold mbind, outcome_bind. rewrite Hadd.
  rewrite (CreateFacts.day_later_at_noon (sv_now sv) later Hadd). reflexivity.
Qed.

Lemma tomorrow_means_noon_witness :
  resolve_start Demo.healthy (VStr "Tomorrow at 3pm")
  = sv_astimezone Demo.healthy
      (Datetime ((wall_us (sv_now Demo.healthy) / day_us + 1) * day_us + 12 * hour_us)%Z
                (utcoffset (sv_now Demo.healthy))).
Proof.
  apply (tomorrow_means_noon Demo.healthy "Tomorrow at 3pm"
           (Datetime (500 + day_us) (Some (-18000)%Z))); reflexivity.
Defined.

(** ** Attendee requests *)

Module InviteFacts.

Lemma attendees_loop_cons words i word rest :
  attendees_loop words i (word :: rest) =
  if is_connector word && (0 <? i)
  then (Some (join " " (take (i - 2) (drop 2 words))),
        filter (fun w => contains "@" w = true) (drop (i + 1) words))
  else attendees_loop words (S i) rest.
Proof. reflexivity. Qed.

(** The first word is never taken for the connector. *)
Lemma attendees_loop_first words word rest :
  attendees_loop words 0 (word :: rest) = attendees_loop words 1 rest.
Proof. rewrite attendees_loop_cons. cbn [Nat.ltb Nat.leb]. rewrite andb_false_r. reflexivity. Qed.

Lemma attendees_loop_skip words i skipped rest :
  forallb (fun word => negb (is_connector word)) skipped = true ->
  attendees_loop words i (skipped ++ rest) = attendees_loop words (i + length skipped) rest.
Proof.
  revert i. induction skipped as [|word skipped IH]; intros i H.
  - rewrite Nat.add_0_r. reflexivity.
  - simpl in H. apply andb_true_iff in H as [Hword Hrest].
    apply negb_true_iff in Hword.
    change ((word :: skipped) ++ rest) with (word :: (skipped ++ rest)).
    rewrite attendees_loop_cons, Hword. cbn [andb].
    rewrite (IH (S i) Hrest). f_equal. simpl. lia.
Qed.

Lemma attendees_loop_hit words i conn rest :
  is_connector conn = true -> 0 < i ->
  attendees_loop words i (conn :: rest)
  = (Some (join " " (take (i - 2) (drop 2 words))),
     filter (fun w => contains "@" w = true) (drop (i + 1) words)).
Proof.
  intros Hconn Hi. rewrite attendees_loop_cons, Hconn.
  replace (0 <? i) with true by (symmetry; apply Nat.ltb_lt; exact Hi).
  reflexivity.
Qed.

(** The words before the first connector that is not the first word. *)
Lemma attendees_loop_words first skipped conn rest :
  forallb (fun word => negb (is_connector word)) skipped = true ->
  is_connector conn = true ->
  let words := first :: skipped ++ conn :: rest in
  attendees_loop words 0 words
  = (Some (join " " (take (length skipped - 1) (drop 1 skipped))),
     filter (fun w => contains "@" w = true) rest).
Proof.
  intros Hskipped Hconn words. unfold words at 2.
  rewrite attendees_loop_first, (attendees_loop_skip words 1 skipped _ Hskipped).
  rewrite attendees_loop_hit by (exact Hconn || lia).
  f_equal.
  - f_equal. unfold words.
    replace (1 + length skipped - 2) with (length skipped - 1) by lia.
    destruct skipped as [|second skipped]; [reflexivity|].
    change (drop 2 (first :: (second :: skipped) ++ conn :: rest))
      with (skipped ++ conn :: rest).
    change (drop 1 (second :: skipped)) with skipped.
    replace (length (second :: skipped) - 1) with (length skipped) by (simpl; lia).
    rewrite take_app_length, firstn_all. reflexivity.
  - f_equal. unfold words.
    replace (1 + length skipped + 1) with (S (length skipped + 1)) by lia.
    cbn [drop]. 
    replace (skipped ++ conn :: rest) with ((skipped ++ [conn]) ++ rest)
      by (rewrite <- app_assoc; reflexivity).
    replace (length skipped + 1) with (length (skipped ++ [conn]))
      by (rewrite length_app; reflexivity).
    apply drop_app_length.
Qed.

End InviteFacts.

(** X18.  The attendee request is read from the words of the message in
    lower case: the words between the second word and the first 'to' or
    'for' that is not the first word form the event name, and the later
    words that hold an '@' are the addresses. *)
Theorem attendee_request_words (msg_lower first second : string)
    (name : list string) (conn : string) (rest : list string) :
  split_ws msg_lower = first :: second :: name ++ conn :: rest ->
  is_connector second = false ->
  forallb (fun word => negb (is_connector word)) name = true ->
  is_connector conn = true ->
  extract_update_attendees msg_lower
  = (Some (join " " name), filter (fun w => contains "@" w = true) rest).
Proof.
  intros Hwords Hsecond Hname Hconn.
  unfold extract_update_attendees. rewrite Hwords.
  assert (Hskipped : forallb (fun word => negb (is_connector word)) (second :: name) = true)
    by (cbn [forallb]; rewrite Hsecond, Hname; reflexivity).
  pose proof (InviteFacts.attendees_loop_words first (second :: name) conn rest
                Hskipped Hconn) as Hloop.
  cbv zeta in Hloop.
  change ((second :: name) ++ conn :: rest) with (second :: name ++ conn :: rest) in Hloop.
  rewrite Hloop.
  change (drop 1 (second :: name)) with name.
  replace (length (second :: name) - 1) with (length name) by (simpl; lia).
  rewrite firstn_all. reflexivity.
Qed.

Lemma attendee_request_words_witness :
  extract_update_attendees "add attendee team sync to bob@example.com and ann@example.com"
  = (Some "team sync", ["bob@example.com"; "ann@example.com"]).
Proof.
  apply (attendee_request_words
           "add attendee team sync to bob@example.com and ann@example.com"
           "add" "attendee" ["team"; "sync"] "to" ["bob@example.com"; "and"; "ann@example.com"]);
    reflexivity.
Defined.

(** X19.  When the first 'to' or 'for' after the first word is the second
    or the third word of the message, as in "invite <address> to <event>",
    the event name is empty and the branch replies with its usage hint;
    nothing is looked up or sent. *)
Theorem early_connector_gives_usage_hint (sv : services) (msg_lower first : string)
    (skipped : list string) (conn : string) (rest : list string) (w : world) :
  split_ws msg_lower = first :: skipped ++ conn :: rest ->
  length skipped <= 1 ->
  forallb (fun word => negb (is_connector word)) skipped = true ->
  is_connector conn = true ->
  run_update_attendees sv msg_lower w
  = (Ret "Please specify the event name and attendee email addresses.", w).
Proof.
  intros Hwords Hlen Hskipped Hconn.
  unfold run_update_attendees, try_except, extract_update_attendees. rewrite Hwords.
  rewrite (InviteFacts.attendees_loop_words first skipped conn rest Hskipped Hconn).
  replace (take (length skipped - 1) (drop 1 skipped)) with (@nil string)
    by (destruct skipped as [|a [|b skipped]]; [reflexivity | reflexivity | simpl in Hlen; lia]).
  cbn [join].
  destruct (filter (fun w0 => contains "@" w0 = true) rest); reflexivity.
Qed.

Lemma early_connector_gives_usage_hint_witness :
  run_update_attendees Demo.healthy "invite bob@example.com to standup" init_world
  = (Ret "Please specify the event name and attendee email addresses.", init_world).
Proof.
  apply (early_connector_gives_usage_hint Demo.healthy "invite bob@example.com to standup"
           "invite" ["bob@example.com"] "to" ["standup"] init_world);
    first [reflexivity | simpl; lia].
Defined.

(** ** The location and the time zone at start *)

(** X20.  When the request to the first geolocation service raises, or its
    answer has no 'status' key, [get_ip_location] does not consult the two
    other services: the result is the configured USER_LOCATION, or
    "Location unknown" when none is configured, whatever the other services
    would answer. *)
Theorem first_lookup_failure_skips_fallbacks (lc : locators) :
  match lc_ip_api lc with
  | Raise _ => True
  | Ret data => exists e, getitem data "status" = Raise e
  end ->
  get_ip_location lc
  = match lc_user_location lc with
    | Some env_location =>
        if is_empty env_location then "Location unknown" else env_location
    | None => "Location unknown"
    end.
Proof.
  intros H. unfold get_ip_location, ip_location_lookup.
  destruct (lc_ip_api lc) as [data|e]; [|reflexivity].
  destruct H as [e He]. unfold mbind, outcome_bind. rewrite He. reflexivity.
Qed.

Lemma first_lookup_failure_skips_fallbacks_witness :
  get_ip_location DemoPlace.first_down = "Location unknown"
  /\ place_label DemoPlace.first_down DemoPlace.boston "region"
     = Ret "Boston, MA, United States".
Proof.
  split; [|reflexivity].
  apply (first_lookup_failure_skips_fallbacks DemoPlace.first_down). exact I.
Defined.

(** X21.  After [update_location_and_timezone] the time zone of the agent is
    always set, whatever the services answer and at whatever step they
    fail: it is the zone that pytz made of a name, or the fixed zone
    America/Los_Angeles.  The same holds after [__init__]. *)
Theorem timezone_is_always_set (lc : locators) (p : place) :
  (exists zone,
     pl_timezone (update_location_and_timezone lc p) = Some zone
     /\ (zone = "America/Los_Angeles"
         \/ exists name, lc_pytz_timezone lc name = Ret zone))
  /\ exists zone, pl_timezone (init_place lc) = Some zone.
Proof.
  assert (H : forall q, exists zone,
             pl_timezone (update_location_and_timezone lc q) = Some zone
             /\ (zone = "America/Los_Angeles"
                 \/ exists name, lc_pytz_timezone lc name = Ret zone)).
  { intros q. unfold update_location_and_timezone.
    destruct (lc_ip_api lc) as [data|]; [|eexists; split; [reflexivity | left; reflexivity]].
    destruct (getitem data "status") as [status|];
      [|eexists; split; [reflexivity | left; reflexivity]].
    destruct (equals_str status "success");
      [|eexists; split; [reflexivity | left; reflexivity]].
    destruct (place_label lc data "regionName") as [label|];
      [|eexists; split; [reflexivity | left; reflexivity]].
    destruct (getitem data "lat") as [lat|];
      [|eexists; split; [reflexivity | left; reflexivity]].
    destruct (getitem data "lon") as [lon|];
      [|eexists; split; [reflexivity | left; reflexivity]].
    destruct (lc_timezone_at lc lat lon) as [name|];
      [|eexists; split; [reflexivity | left; reflexivity]].
    destruct (lc_pytz_timezone lc name) as [zone|] eqn:E;
      [|eexists; split; [reflexivity | left; reflexivity]].
    exists zone. split; [reflexivity|]. right. exists name. exact E. }
  split; [apply H|].
  unfold init_place. destruct (H (Place
    match lc_user_location lc with
    | Some env_location => if is_empty env_location then get_ip_location lc else env_location
    | None => get_ip_location lc
    end None None None)) as (zone & Hzone & _).
  exists zone. exact Hzone.
Qed.

(** X22.  When the first geolocation service answers with status 'success'
    and a city, a region name and a country, the location of the agent
    becomes "city, region, country" of that answer, also when the operator
    configured USER_LOCATION; when the service cannot be reached, the
    location is kept and the time zone is America/Los_Angeles. *)
Theorem ip_location_overrides_configuration (lc : locators) (p : place) :
  (forall data status label,
      lc_ip_api lc = Ret data ->
      getitem data "status" = Ret status ->
      equals_str status "success" = true ->
      place_label lc data "regionName" = Ret label ->
      pl_location (update_location_and_timezone lc p) = label
      /\ pl_location (init_place lc) = label)
  /\ (forall e,
        lc_ip_api lc = Raise e ->
        update_location_and_timezone lc p
        = Place (pl_location p) (pl_latitude p) (pl_longitude p)
                (Some "America/Los_Angeles")).
Proof.
  split.
  - intros data status label Hdata Hstatus Hsuccess Hlabel.
    assert (H : forall q, pl_location (update_location_and_timezone lc q) = label).
    { intros q. unfold update_location_and_timezone.
      rewrite Hdata, Hstatus, Hsuccess, Hlabel.
      destruct (getitem data "lat") as [lat|]; [|reflexivity].
      destruct (getitem data "lon") as [lon|]; [|reflexivity].
      destruct (lc_timezone_at lc lat lon) as [name|]; [|reflexivity].
      destruct (lc_pytz_timezone lc name); reflexivity. }
    split; [apply H|]. unfold init_place. apply H.
  - intros e Hdata. unfold update_location_and_timezone. rewrite Hdata. reflexivity.
Qed.

Lemma ip_location_overrides_configuration_witness :
  lc_user_location DemoPlace.online = Some "Paris, France"
  /\ pl_location (init_place DemoPlace.online) = "Boston, Massachusetts, United States"
  /\ update_location_and_timezone DemoPlace.first_down (Place "Paris, France" None None None)
     = Place "Paris, France" None None (Some "America/Los_Angeles").
Proof.
  split; [reflexivity|]. split.
  - apply (proj1 (ip_location_overrides_configuration DemoPlace.online
                    (Place EmptyString None None None))
             DemoPlace.boston (VStr "success") "Boston, Massachusetts, United States");
      reflexivity.
  - apply (proj2 (ip_location_overrides_configuration DemoPlace.first_down
                    (Place "Paris, France" None None None)) "Connection timed out").
    reflexivity.
Defined.

(** ** Context of a message without trigger words *)

Module ContextFacts.

Lemma location_line_first sv :
  exists tail,
    location_and_weather sv = "My location: " +:+ sv_location sv +:+ nl +:+ tail.
Proof.
  unfold location_and_weather.
  destruct (get_weather sv) as [weather|].
  - destruct (is_empty weather).
    + exists EmptyString. rewrite PyStrFacts.append_empty_r. reflexivity.
    + exists (weather +:+ nl). rewrite !PyStrFacts.append_assoc. reflexivity.
  - exists EmptyString. rewrite PyStrFacts.append_empty_r. reflexivity.
Qed.

Lemma build_context_plain sv msg_lower :
  any_in calendar_words msg_lower = false ->
  any_in travel_words msg_lower = false ->
  build_context sv msg_lower = Ret (location_and_weather sv, EmptyString).
Proof.
  intros Hcalendar Htravel. unfold build_context. rewrite Hcalendar, Htravel. reflexivity.
Qed.

End ContextFacts.

(** X23.  A general chat message without a calendar word ('calendar',
    'schedule', 'event', 'meeting') and without a travel word ('far',
    'distance', 'travel time', 'how long') is answered whenever the chat
    call answers with a choice, whatever the weather, maps and calendar
    services do: the context given to the model starts with the line
    "My location: <location>" and holds no calendar part. *)
Theorem plain_chat_needs_only_the_model (sv : services) (user_id content : string)
    (w : world) (reply : string) (others : list string) :
  classify content = GeneralChat ->
  any_in calendar_words (lower content) = false ->
  any_in travel_words (lower content) = false ->
  sv_chat_complete sv
    (chat_messages (Memory.stored w user_id) (location_and_weather sv, EmptyString) content)
  = Ret (reply :: others) ->
  fst (run sv user_id content w) = Ret reply
  /\ build_context sv (lower content) = Ret (location_and_weather sv, EmptyString)
  /\ exists tail,
       location_and_weather sv = "My location: " +:+ sv_location sv +:+ nl +:+ tail.
Proof.
  intros Hintent Hcalendar Htravel Hchat.
  pose proof (ContextFacts.build_context_plain sv (lower content) Hcalendar Htravel)
    as Hcontext.
  split; [|split; [exact Hcontext | apply ContextFacts.location_line_first]].
  rewrite FailureFacts.run_general_chat_unfold by exact Hintent.
  unfold run_general_chat, mbind, M_bind, lift.
  rewrite Hcontext, Hchat.
  rewrite !StateFacts.add_to_history_turn. cbn [first_choice fst snd].
  rewrite StateFacts.add_to_history_turn. reflexivity.
Qed.

Lemma plain_chat_needs_only_the_model_witness :
  fst (run Demo.all_down "42" "hello" init_world) = Ret "Sure."
  /\ build_context Demo.all_down (lower "hello")
     = Ret (location_and_weather Demo.all_down, EmptyString)
  /\ exists tail,
       location_and_weather Demo.all_down
       = "My location: " +:+ sv_location Demo.all_down +:+ nl +:+ tail.
Proof.
  apply (plain_chat_needs_only_the_model Demo.all_down "42" "hello" init_world "Sure." []);
    reflexivity.
Defined.

(** ** The digest of the calendar *)

Module DigestFacts.

Lemma events_digest_stops sv pre ev post digest e :
  events_digest sv pre = Ret digest ->
  get_event_details sv ev = Raise e ->
  events_digest sv (pre ++ ev :: post) = Raise e.
Proof.
  revert digest. induction pre as [|first pre IH]; intros digest Hpre Hev.
  - cbn [app events_digest]. rewrite Hev. reflexivity.
  - cbn [app events_digest] in *.
    destruct (get_event_details sv first) as [details|]; [|discriminate].
    cbn [mbind outcome_bind] in *.
    destruct (events_digest sv pre) as [rest|] eqn:E; [|discriminate].
    rewrite (IH rest eq_refl Hev). reflexivity.
Qed.

(** An attendee without an address cannot be printed, also when it has a
    display name. *)
Lemma attendee_without_email sv (attendee : gmap string value) :
  attendee !! "email" = None -> attendee_line sv (VDict attendee) = Raise "'email'".
Proof.
  intros H. unfold attendee_line. cbn [value_get getitem mbind outcome_bind].
  unfold dict_getitem. rewrite H. reflexivity.
Qed.

End DigestFacts.

(** X24.  When a general chat message holds a calendar word and the details
    of one of the next five events cannot be formatted (for instance an
    attendee without an 'email' key), the whole turn raises that exception:
    the events before and after it do not help. *)
Theorem one_bad_event_fails_the_turn (sv : services) (user_id content : string) (w : world)
    (pre post : list event) (ev : event) (digest e : string) :
  classify content = GeneralChat ->
  any_in calendar_words (lower content) = true ->
  get_upcoming_events sv 5 = Ret (pre ++ ev :: post) ->
  events_digest sv pre = Ret digest ->
  get_event_details sv ev = Raise e ->
  fst (run sv user_id content w) = Raise e.
Proof.
  intros Hintent Hwords Hlist Hpre Hev.
  rewrite FailureFacts.run_general_chat_unfold by exact Hintent.
  unfold run_general_chat, mbind, M_bind, lift, build_context.
  rewrite Hwords, Hlist. cbn [mbind outcome_bind].
  rewrite (DigestFacts.events_digest_stops sv pre ev post digest e Hpre Hev).
  reflexivity.
Qed.

Lemma one_bad_event_fails_the_turn_witness :
  fst (run Demo.nameless_guest "42" "what is on my calendar" init_world) = Raise "'email'".
Proof.
  apply (one_bad_event_fails_the_turn Demo.nameless_guest "42" "what is on my calendar"
           init_world [Demo.standup] [Demo.demo_day] Demo.guest_event
           ("- Standup (1000)" +:+ nl +:+ "  Attendees:" +:+ nl +:+
            "    - ann@example.com (no response)" +:+ nl)
           "'email'"); reflexivity.
Defined.
